(** * The heuristic analysis engine of the code reviewer

    A shallow embedding of the rule-based engine of the review server
    ([analyzeCode] and the functions it calls) together with the
    properties of its report.

    JavaScript strings are sequences of UTF-16 code units; they are
    embedded as lists of [N].  Property reads go through [get], which
    follows the prototype chain of object literals and raises a
    [TypeError] on [undefined] and [null] and on the restricted
    accessors of functions; code that can raise lives in the [result]
    monad.  A call that spreads an array over its arguments raises a
    [RangeError] when the runtime has no room for them: the engine is
    given with room for every call first, and with the room as a
    parameter after ([Limited]). *)

From Stdlib Require Import List Bool Arith NArith ZArith QArith Lia.
From Stdlib Require Import Ascii String.
Import ListNotations.

Close Scope Q_scope.
Open Scope nat_scope.
Set Implicit Arguments.

(* ================================================================== *)
(** * Strings *)
(* ================================================================== *)

Definition jsstring := list N.

(** String literals.  The escapes of the source are kept: [\n] is a line
    feed, [\t] a tab, [\\] a backslash; [\q] stands for the double quote,
    which a literal of this file cannot hold. *)
Definition escape (c : ascii) : N :=
  match c with
  | "n"%char => 10
  | "t"%char => 9
  | "q"%char => 34
  | _ => N_of_ascii c
  end%N.

Fixpoint lit (s : string) : jsstring :=
  match s with
  | EmptyString => []
  | String "\"%char (String c r) => escape c :: lit r
  | String c r => N_of_ascii c :: lit r
  end.

Definition chr (s : string) : N :=
  match lit s with
  | c :: _ => c
  | [] => 0%N
  end.

Fixpoint str_eqb (a b : jsstring) : bool :=
  match a, b with
  | [], [] => true
  | x :: a', y :: b' => N.eqb x y && str_eqb a' b'
  | _, _ => false
  end.

(** [s.startsWith(p)] *)
Fixpoint startsWith (s p : jsstring) : bool :=
  match p, s with
  | [], _ => true
  | _ :: _, [] => false
  | y :: p', x :: s' => N.eqb x y && startsWith s' p'
  end.

(** [s.endsWith(p)] *)
Definition endsWith (s p : jsstring) : bool :=
  startsWith (rev s) (rev p).

(** [s.includes(p)] *)
Fixpoint includes (s p : jsstring) : bool :=
  startsWith s p ||
  match s with
  | [] => false
  | _ :: s' => includes s' p
  end.

(** [s.indexOf(p)]: the offset of the first occurrence, or -1 *)
Fixpoint indexOf (s p : jsstring) : Z :=
  if startsWith s p then 0%Z
  else match s with
       | [] => (-1)%Z
       | _ :: s' => let i := indexOf s' p in
                    if (i <? 0)%Z then (-1)%Z else (i + 1)%Z
       end.

(** [s.includes(p, position)]: the search starts at [position], clamped
    to the string *)
Definition includesFrom (s p : jsstring) (position : Z) : bool :=
  includes (skipn (Z.to_nat position) s) p.

(** [s.split('\n')] *)
Fixpoint split_lines (s : jsstring) : list jsstring :=
  match s with
  | [] => [[]]
  | c :: r =>
      if N.eqb c 10 then [] :: split_lines r
      else match split_lines r with
           | l :: ls => (c :: l) :: ls
           | [] => [[c]]
           end
  end.

(** White space and line terminators: what [trim] strips and [\s]
    matches. *)
Definition is_space (c : N) : bool :=
  existsb (N.eqb c)
    [9; 10; 11; 12; 13; 32; 160; 5760; 8232; 8233; 8239; 8287; 12288; 65279]%N
  || (N.leb 8192 c && N.leb c 8202).

Fixpoint trimStart (s : jsstring) : jsstring :=
  match s with
  | c :: r => if is_space c then trimStart r else s
  | [] => []
  end.

(** [s.trim()] *)
Definition trim (s : jsstring) : jsstring :=
  rev (trimStart (rev (trimStart s))).

(** [xs.findIndex(p)]: the index of the first element that satisfies
    [p], or -1 *)
Fixpoint findIndex {A} (p : A -> bool) (xs : list A) : Z :=
  match xs with
  | [] => (-1)%Z
  | x :: r => if p x then 0%Z
              else let i := findIndex p r in
                   if (i <? 0)%Z then (-1)%Z else (i + 1)%Z
  end.

(** [code.split('\n').findIndex(line => line.includes(needle)) + 1] is
    written at every rule that locates its Finding. *)
Definition lineOf (p : jsstring -> bool) (code : jsstring) : Z :=
  (findIndex p (split_lines code) + 1)%Z.

Arguments lit s%_string.
Arguments chr s%_string.

(* ================================================================== *)
(** * Regular expressions *)
(* ================================================================== *)

(** The fragment of the pattern language that the engine's patterns are
    written in.  No pattern of the engine carries the [m], [i] or [u]
    flag: [^] and [$] are the ends of the input, matching is case
    sensitive and by code unit.  Quantifiers are greedy.  The groups of
    the source are read for their whole match only, so a group is its
    body. *)
Inductive regex : Type :=
| Chr (c : N)                 (* one literal character *)
| Cls (p : N -> bool)         (* a character class *)
| Lit (s : jsstring)          (* a literal word *)
| Seq (r1 r2 : regex)
| Alt (r1 r2 : regex)
| Star (r : regex)
| Plus (r : regex)
| WordB                       (* \b *)
| Bol                         (* ^ *)
| Eol.                        (* $ *)

Declare Scope regex_scope.
Delimit Scope regex_scope with re.
Bind Scope regex_scope with regex.
Infix ">>" := Seq (at level 40, left associativity) : regex_scope.
Infix "<|>" := Alt (at level 50, left associativity) : regex_scope.

(** [\w] *)
Definition is_word (c : N) : bool :=
  (N.leb 97 c && N.leb c 122) || (N.leb 65 c && N.leb c 90)
  || (N.leb 48 c && N.leb c 57) || N.eqb c 95.

(** [.]: any character but a line terminator *)
Definition is_dot (c : N) : bool :=
  negb (existsb (N.eqb c) [10; 13; 8232; 8233]%N).

Definition is_not (cs : list N) (c : N) : bool :=
  negb (existsb (N.eqb c) cs).

Definition is_lower (c : N) : bool := N.leb 97 c && N.leb c 122.
Definition is_upper (c : N) : bool := N.leb 65 c && N.leb c 90.
Definition is_digit (c : N) : bool := N.leb 48 c && N.leb c 57.

Definition word_before (prev : option N) : bool :=
  match prev with Some c => is_word c | None => false end.

Definition word_after (s : jsstring) : bool :=
  match s with c :: _ => is_word c | [] => false end.

(** The last character of [consumed], or [prev] when nothing was
    consumed. *)
Definition last_of (prev : option N) (consumed : jsstring) : option N :=
  match rev consumed with c :: _ => Some c | [] => prev end.

(** A position of the input is the character before it ([None] at the
    start of the input) and the text after it.  A matcher takes a
    position and a continuation [k]; it hands the position after its
    match to [k], and where [k] fails it backtracks, so the alternatives
    are tried in the order a backtracking matcher tries them.  The
    result is the text left after the whole match. *)
Definition continuation : Type := option N -> jsstring -> option jsstring.
Definition matcher : Type := option N -> jsstring -> continuation -> option jsstring.

(** The greedy loop of [r*], over the matcher [step] of [r]: one more
    round first, the rest of the pattern after.  A round that consumes
    nothing is refused.  Every round consumes a character, so a fuel of
    the length of the text is never used up. *)
Fixpoint star_loop (step : matcher) (k : continuation) (fuel : nat)
  (prev : option N) (s : jsstring) : option jsstring :=
  match fuel with
  | O => k prev s
  | S fuel' =>
      match step prev s
              (fun prev' s' =>
                 if Nat.ltb (List.length s') (List.length s)
                 then star_loop step k fuel' prev' s' else None) with
      | Some rest => Some rest
      | None => k prev s
      end
  end.

Fixpoint rmatch (r : regex) (prev : option N) (s : jsstring)
  (k : continuation) {struct r} : option jsstring :=
  match r with
  | Chr c =>
      match s with
      | x :: s' => if N.eqb x c then k (Some x) s' else None
      | [] => None
      end
  | Cls p =>
      match s with
      | x :: s' => if p x then k (Some x) s' else None
      | [] => None
      end
  | Lit w =>
      if startsWith s w
      then k (last_of prev w) (skipn (List.length w) s)
      else None
  | Seq r1 r2 => rmatch r1 prev s (fun prev' s' => rmatch r2 prev' s' k)
  | Alt r1 r2 =>
      match rmatch r1 prev s k with
      | Some rest => Some rest
      | None => rmatch r2 prev s k
      end
  | Star r1 => star_loop (rmatch r1) k (List.length s) prev s
  | Plus r1 =>
      rmatch r1 prev s
        (fun prev1 s1 => star_loop (rmatch r1) k (List.length s1) prev1 s1)
  | WordB => if xorb (word_before prev) (word_after s) then k prev s else None
  | Bol => match prev with None => k prev s | Some _ => None end
  | Eol => match s with [] => k prev s | _ :: _ => None end
  end.

(** A match of [r] that starts exactly at the position: the text left
    after it. *)
Definition match_here (r : regex) (prev : option N) (s : jsstring)
  : option jsstring :=
  rmatch r prev s (fun _ rest => Some rest).

(** The leftmost match at or after the position: the position where it
    starts and the text left after it. *)
Fixpoint exec (r : regex) (prev : option N) (s : jsstring)
  : option (option N * jsstring * jsstring) :=
  match match_here r prev s with
  | Some rest => Some (prev, s, rest)
  | None =>
      match s with
      | [] => None
      | c :: s' => exec r (Some c) s'
      end
  end.

Definition matched_text (from rest : jsstring) : jsstring :=
  firstn (List.length from - List.length rest) from.

(** [s.match(r)] for a pattern without the [g] flag: the text of the
    first match, or [None] for [null]. *)
Definition match_first (r : regex) (s : jsstring) : option jsstring :=
  match exec r None s with
  | Some (_, from, rest) => Some (matched_text from rest)
  | None => None
  end.

(** The loop of [s.match(r)] for a pattern with the [g] flag: each match
    is searched from the end of the one before, one character further
    after an empty match.  Every round moves on by one character at
    least, so [S (length s)] rounds reach the end of the input. *)
Fixpoint match_all_from (fuel : nat) (r : regex) (prev : option N)
  (s : jsstring) : list jsstring :=
  match fuel with
  | O => []
  | S fuel' =>
      match exec r prev s with
      | None => []
      | Some (prev0, from, rest) =>
          let m := matched_text from rest in
          m :: match m, rest with
               | _ :: _, _ => match_all_from fuel' r (last_of prev0 m) rest
               | [], c :: rest' => match_all_from fuel' r (Some c) rest'
               | [], [] => []
               end
      end
  end.

(** [s.match(r) || []] for a pattern with the [g] flag *)
Definition match_all (r : regex) (s : jsstring) : list jsstring :=
  match_all_from (S (List.length s)) r None s.

(* ================================================================== *)
(** * Values, property reads and errors *)
(* ================================================================== *)

(** Code that can raise returns a [result]. *)
Inductive result (A : Type) : Type :=
| Ok (a : A)
| Throw (error : string).

Arguments Ok {A} a.
Arguments Throw {A} error%_string.

Definition bind {A B} (m : result A) (f : A -> result B) : result B :=
  match m with
  | Ok a => f a
  | Throw e => Throw e
  end.

Notation "x <- m ;; k" := (bind m (fun x => k))
  (at level 61, m at next level, right associativity).

(** The values that the tables of the engine hold and that reading them
    can give. *)
#[local] Unset Elimination Schemes.
Inductive jsval : Type :=
| JUndefined
| JNull
| JString (s : jsstring)
| JNumber (n : Z)
| JArray (items : list jsstring)
| JObject (props : list (jsstring * jsval))
| JBuiltin (name : jsstring).   (* an object or function of the runtime *)
#[local] Set Elimination Schemes.

Fixpoint assoc {A} (k : jsstring) (props : list (jsstring * A)) : option A :=
  match props with
  | [] => None
  | (k', v) :: r => if str_eqb k k' then Some v else assoc k r
  end.

(** What every object literal inherits from [Object.prototype]. *)
Definition object_prototype_names : list jsstring :=
  map lit
    ["constructor"; "__defineGetter__"; "__defineSetter__"; "hasOwnProperty";
     "__lookupGetter__"; "__lookupSetter__"; "isPrototypeOf";
     "propertyIsEnumerable"; "toString"; "valueOf"; "__proto__";
     "toLocaleString"]%string.

(** The functions of the runtime that a read of the tables can give, each
    with its [length] and its [name]: the [Object] and [Function]
    constructors, [Function.prototype] and its methods, the methods of
    [Object.prototype] and the static methods of [Object]. *)
Definition builtin_functions : list (jsstring * (Z * jsstring)) :=
  map (fun f => (lit (fst (fst f)), (snd (fst f), lit (snd f))))
    [ ("Object", 1%Z, "Object");
      ("Function", 1%Z, "Function");
      ("Function.prototype", 0%Z, EmptyString);
      ("Function.prototype.apply", 2%Z, "apply");
      ("Function.prototype.bind", 1%Z, "bind");
      ("Function.prototype.call", 1%Z, "call");
      ("Function.prototype.toString", 0%Z, "toString");
      ("Object.prototype.__defineGetter__", 2%Z, "__defineGetter__");
      ("Object.prototype.__defineSetter__", 2%Z, "__defineSetter__");
      ("Object.prototype.hasOwnProperty", 1%Z, "hasOwnProperty");
      ("Object.prototype.__lookupGetter__", 1%Z, "__lookupGetter__");
      ("Object.prototype.__lookupSetter__", 1%Z, "__lookupSetter__");
      ("Object.prototype.isPrototypeOf", 1%Z, "isPrototypeOf");
      ("Object.prototype.propertyIsEnumerable", 1%Z, "propertyIsEnumerable");
      ("Object.prototype.toString", 0%Z, "toString");
      ("Object.prototype.valueOf", 0%Z, "valueOf");
      ("Object.prototype.toLocaleString", 0%Z, "toLocaleString");
      ("Object.assign", 2%Z, "assign");
      ("Object.getOwnPropertyDescriptor", 2%Z, "getOwnPropertyDescriptor");
      ("Object.getOwnPropertyDescriptors", 1%Z, "getOwnPropertyDescriptors");
      ("Object.getOwnPropertyNames", 1%Z, "getOwnPropertyNames");
      ("Object.getOwnPropertySymbols", 1%Z, "getOwnPropertySymbols");
      ("Object.hasOwn", 2%Z, "hasOwn");
      ("Object.is", 2%Z, "is");
      ("Object.preventExtensions", 1%Z, "preventExtensions");
      ("Object.seal", 1%Z, "seal");
      ("Object.create", 2%Z, "create");
      ("Object.defineProperties", 2%Z, "defineProperties");
      ("Object.defineProperty", 3%Z, "defineProperty");
      ("Object.freeze", 1%Z, "freeze");
      ("Object.getPrototypeOf", 1%Z, "getPrototypeOf");
      ("Object.setPrototypeOf", 2%Z, "setPrototypeOf");
      ("Object.isExtensible", 1%Z, "isExtensible");
      ("Object.isFrozen", 1%Z, "isFrozen");
      ("Object.isSealed", 1%Z, "isSealed");
      ("Object.keys", 1%Z, "keys");
      ("Object.entries", 1%Z, "entries");
      ("Object.fromEntries", 1%Z, "fromEntries");
      ("Object.values", 1%Z, "values");
      ("Object.groupBy", 2%Z, "groupBy") ]%string.

(** The methods that every function inherits from [Function.prototype]. *)
Definition function_method_names : list jsstring :=
  map lit ["apply"; "bind"; "call"; "toString"]%string.

(** The accessors of [Function.prototype] that raise when they are read
    of a function of the runtime. *)
Definition restricted_names : list jsstring :=
  map lit ["caller"; "arguments"]%string.

(** The static members of the [Object] constructor. *)
Definition object_static_names : list jsstring :=
  map lit
    ["assign"; "getOwnPropertyDescriptor"; "getOwnPropertyDescriptors";
     "getOwnPropertyNames"; "getOwnPropertySymbols"; "hasOwn"; "is";
     "preventExtensions"; "seal"; "create"; "defineProperties";
     "defineProperty"; "freeze"; "getPrototypeOf"; "setPrototypeOf";
     "isExtensible"; "isFrozen"; "isSealed"; "keys"; "entries";
     "fromEntries"; "values"; "groupBy"]%string.

Definition mem (k : jsstring) (ks : list jsstring) : bool :=
  existsb (str_eqb k) ks.

Definition dotted (owner k : jsstring) : jsstring :=
  owner ++ lit "." ++ k.

(** A member inherited from [Object.prototype]: [constructor] is the
    [Object] function, [__proto__] is the prototype itself. *)
Definition inherited (k : jsstring) : jsval :=
  if str_eqb k (lit "constructor") then JBuiltin (lit "Object")
  else if str_eqb k (lit "__proto__") then JBuiltin (lit "Object.prototype")
  else if mem k object_prototype_names
       then JBuiltin (dotted (lit "Object.prototype") k)
       else JUndefined.

(** Members of an object or function of the runtime, by the language
    standard.  [Object.prototype] has the members that object literals
    inherit and no prototype of its own; every other built-in is a
    function.  A function has a [length] and a [name] of its own, the
    two constructors have a [prototype], [Object] has its static
    methods; the rest comes from [Function.prototype] and, behind it,
    from [Object.prototype].  Reading [caller] or [arguments] of a
    function gives no value, it raises: see [get]. *)
Definition builtin_member (name k : jsstring) : jsval :=
  if str_eqb name (lit "Object.prototype")
  then (if str_eqb k (lit "__proto__") then JNull else inherited k)
  else if str_eqb k (lit "length")
  then match assoc name builtin_functions with
       | Some f => JNumber (fst f)
       | None => JUndefined
       end
  else if str_eqb k (lit "name")
  then match assoc name builtin_functions with
       | Some f => JString (snd f)
       | None => JUndefined
       end
  else if str_eqb k (lit "prototype")
  then (if str_eqb name (lit "Object") then JBuiltin (lit "Object.prototype")
        else if str_eqb name (lit "Function")
        then JBuiltin (lit "Function.prototype")
        else JUndefined)
  else if str_eqb k (lit "constructor") then JBuiltin (lit "Function")
  else if str_eqb k (lit "__proto__")
       then (if str_eqb name (lit "Function.prototype")
             then JBuiltin (lit "Object.prototype")
             else JBuiltin (lit "Function.prototype"))
  else if mem k function_method_names
       then JBuiltin (dotted (lit "Function.prototype") k)
  else if str_eqb name (lit "Object") && mem k object_static_names
       then JBuiltin (dotted name k)
  else if mem k restricted_names then JUndefined
       else inherited k.

(** The index that a canonical numeric key denotes. *)
Fixpoint digits (k : jsstring) (acc : nat) : option nat :=
  match k with
  | [] => Some acc
  | c :: r => if is_digit c
              then digits r (10 * acc + N.to_nat (c - 48))
              else None
  end.

Definition index_of_key (k : jsstring) : option nat :=
  match k with
  | [] => None
  | [c] => digits [c] 0
  | c :: _ => if N.eqb c 48 then None else digits k 0
  end.

(** The value of [v[k]] when the read does not raise.  Object literals
    answer with their own properties first and with those of
    [Object.prototype] after.  Strings, numbers and arrays answer for
    [length], for an index and for what every object inherits; the
    methods of their own prototypes are left out.  The engine reads a
    string or a number under [before], [after] and [explanation], and
    under the message of a bug when the type of the bug names an
    inherited function; no prototype has a member of the three names,
    nor one with a name of several words. *)
Definition member (v : jsval) (k : jsstring) : jsval :=
  match v with
  | JObject props =>
      match assoc k props with
      | Some x => x
      | None => inherited k
      end
  | JBuiltin name => builtin_member name k
  | JString s =>
      if str_eqb k (lit "length") then JNumber (Z.of_nat (List.length s))
      else match index_of_key k with
           | Some i => match nth_error s i with
                       | Some c => JString [c]
                       | None => inherited k
                       end
           | None => inherited k
           end
  | JArray items =>
      if str_eqb k (lit "length") then JNumber (Z.of_nat (List.length items))
      else match index_of_key k with
           | Some i => match nth_error items i with
                       | Some s => JString s
                       | None => inherited k
                       end
           | None => inherited k
           end
  | JNumber _ => inherited k
  | JUndefined | JNull => JUndefined
  end.

Definition nullish (v : jsval) : bool :=
  match v with
  | JUndefined | JNull => true
  | _ => false
  end.

(** The reads that raise on a value that is neither [undefined] nor
    [null]: [caller] and [arguments] of a function of the runtime. *)
Definition restricted (v : jsval) (k : jsstring) : bool :=
  match v with
  | JBuiltin name =>
      negb (str_eqb name (lit "Object.prototype")) && mem k restricted_names
  | _ => false
  end.

Definition restricted_accessor_error : string :=
  "TypeError: 'caller', 'callee', and 'arguments' properties may not be accessed on strict mode functions or the arguments objects for calls to them".

(** [v[k]]: reading a property of [undefined] or [null] raises, and so
    does reading a restricted accessor. *)
Definition get (v : jsval) (k : jsstring) : result jsval :=
  if nullish v then Throw "TypeError: Cannot read properties of undefined"
  else if restricted v k then Throw restricted_accessor_error
  else Ok (member v k).

(** [v?.[k]] *)
Definition get_opt (v : jsval) (k : jsstring) : result jsval :=
  if nullish v then Ok JUndefined else get v k.

Definition truthy (v : jsval) : bool :=
  match v with
  | JUndefined | JNull => false
  | JString [] => false
  | JNumber 0 => false
  | _ => true
  end.

(** [a || b] *)
Definition or_else (a b : jsval) : jsval :=
  if truthy a then a else b.

(** Object literals: [obj [k |-> v; ...]], with string values [str]. *)
Definition obj (props : list (jsstring * jsval)) : jsval := JObject props.
Definition str (s : string) : jsval := JString (lit s).
Arguments str s%_string.
Notation "k |-> v" := (lit k, v) (at level 60, only parsing).

(* ================================================================== *)
(** * Findings and the Fix Synthesizer *)
(* ================================================================== *)

(** The [line] of a Finding is a number or the text ['Multiple lines']. *)
Inductive line_ref : Type :=
| LineNo (n : Z)
| LineText (s : jsstring).

(** A Finding as a checker writes it: [fix] is the advice text. *)
Record Bug : Type := mkBug {
  bug_type : jsstring;
  bug_message : jsstring;
  bug_line : line_ref;
  bug_fix : jsstring
}.

Record Fix : Type := mkFix {
  before : jsval;
  after : jsval;
  explanation : jsval
}.

(** A Finding as [generateFix] returns it: the properties of the bug,
    with [fix] replaced. *)
Record Finding : Type := mkFinding {
  type : jsstring;
  message : jsstring;
  line : line_ref;
  fix_ : Fix
}.

Definition fixes : jsval :=
  obj [ "syntax" |-> obj [
       "javascript" |-> obj [
          "Missing semicolon" |-> obj [
             "before" |-> str "let result = 5 + 3";
             "after" |-> str "let result = 5 + 3;";
             "explanation" |-> str "Add a semicolon at the end of the statement" ];
          "Unmatched curly braces" |-> obj [
             "before" |-> str "if (true) {\n    console.log(\qtest\q)\n";
             "after" |-> str "if (true) {\n    console.log(\qtest\q);\n}";
             "explanation" |-> str "Ensure all opening braces have matching closing braces" ] ];
       "python" |-> obj [
          "Incorrect indentation" |-> obj [
             "before" |-> str "def test():\nprint(\qtest\q)";
             "after" |-> str "def test():\n    print(\qtest\q)";
             "explanation" |-> str "Use 4 spaces for indentation in Python" ] ];
       "java" |-> obj [
          "Missing semicolon" |-> obj [
             "before" |-> str "System.out.println(\qHello World\q)";
             "after" |-> str "System.out.println(\qHello World\q);";
             "explanation" |-> str "Add a semicolon at the end of the statement" ] ];
       "cpp" |-> obj [
          "Missing semicolon" |-> obj [
             "before" |-> str "cout << \qHello World\q";
             "after" |-> str "cout << \qHello World\q;";
             "explanation" |-> str "Add a semicolon at the end of the statement" ] ] ];
     "runtime" |-> obj [
       "javascript" |-> obj [
          "Potential undefined variable" |-> obj [
             "before" |-> str "console.log(myVariable)";
             "after" |-> str "let myVariable = \qvalue\q;\nconsole.log(myVariable);";
             "explanation" |-> str "Declare variables before using them" ] ];
       "python" |-> obj [
          "Potential division by zero" |-> obj [
             "before" |-> str "result = number / divisor";
             "after" |-> str "if divisor != 0:\n    result = number / divisor\nelse:\n    print(\qError: Division by zero\q)";
             "explanation" |-> str "Add a check for zero before division" ] ];
       "java" |-> obj [
          "Potential null pointer exception" |-> obj [
             "before" |-> str "object.method()";
             "after" |-> str "if (object != null) {\n    object.method();\n}";
             "explanation" |-> str "Add null check before accessing object methods" ] ];
       "cpp" |-> obj [
          "Potential memory leak" |-> obj [
             "before" |-> str "int* ptr = new int(5)";
             "after" |-> str "int* ptr = new int(5);\n// ... use ptr ...\ndelete ptr;";
             "explanation" |-> str "Always free allocated memory with delete" ] ] ];
     "logical" |-> obj [
       "Potential infinite loop" |-> obj [
          "before" |-> str "while(true) {\n    // code\n}";
          "after" |-> str "let condition = true;\nwhile(condition) {\n    // code\n    condition = false; // Add termination condition\n}";
          "explanation" |-> str "Add a proper termination condition to the loop" ];
       "Unreachable code" |-> obj [
          "before" |-> str "return value;\nconsole.log(\qThis will never run\q);";
          "after" |-> str "console.log(\qThis will run\q);\nreturn value;";
          "explanation" |-> str "Move the return statement to the end of the function" ] ];
     "security" |-> obj [
       "Potential SQL injection vulnerability" |-> obj [
          "before" |-> str "query = \qSELECT * FROM users WHERE id = \q + userInput";
          "after" |-> str "const query = \qSELECT * FROM users WHERE id = ?\q;\nconst params = [userInput];";
          "explanation" |-> str "Use parameterized queries to prevent SQL injection" ];
       "Potential XSS vulnerability" |-> obj [
          "before" |-> str "element.innerHTML = userInput";
          "after" |-> str "element.textContent = userInput;";
          "explanation" |-> str "Use textContent instead of innerHTML to prevent XSS attacks" ] ] ].

Definition generateFix (bug : Bug) (language : jsstring) : result Finding :=
  byType <- get fixes (bug_type bug) ;;
  byLanguage <- get_opt byType language ;;
  let languageFixes := or_else byLanguage byType in
  byMessage <- get_opt languageFixes (bug_message bug) ;;
  let fix_v :=
    or_else byMessage
      (JObject [ (lit "before", JString (lit "Original code"));
                 (lit "after", JString (bug_fix bug));
                 (lit "explanation", JString (bug_fix bug)) ]) in
  fix_before <- get fix_v (lit "before") ;;
  fix_after <- get fix_v (lit "after") ;;
  fix_explanation <- get fix_v (lit "explanation") ;;
  Ok {| type := bug_type bug;
        message := bug_message bug;
        line := bug_line bug;
        fix_ := {| before := fix_before;
                   after := fix_after;
                   explanation := fix_explanation |} |}.

(* ================================================================== *)
(** * Bug Finder *)
(* ================================================================== *)

(** [xs.forEach((x, index) => ...)] over a body that updates [st] and
    can raise. *)
Fixpoint forEach {A St} (xs : list A) (index : nat)
  (body : A -> nat -> St -> result St) (st : St) : result St :=
  match xs with
  | [] => Ok st
  | x :: r => st' <- body x index st ;; forEach r (S index) body st'
  end.

(** [errors.push(generateFix(bug, language))] *)
Definition push (errors : list Finding) (bug : Bug) (language : jsstring)
  : result (list Finding) :=
  finding <- generateFix bug language ;;
  Ok (errors ++ [finding]).

(** [if (cond) { errors.push(generateFix(bug, language)) }] *)
Definition push_if (cond : bool) (errors : list Finding) (bug : Bug)
  (language : jsstring) : result (list Finding) :=
  if cond then push errors bug language else Ok errors.

Definition line_number (index : nat) : line_ref :=
  LineNo (Z.of_nat index + 1).

Definition nonempty (s : jsstring) : bool :=
  match s with [] => false | _ :: _ => true end.

(** [/\{/g] and [/\}/g] *)
Definition re_open : regex := Chr (chr "{").
Definition re_close : regex := Chr (chr "}").

(** [/\b\w+\s*\([^)]*$/g] *)
Definition re_call : regex :=
  (WordB >> Plus (Cls is_word) >> Star (Cls is_space) >> Chr (chr "(")
   >> Star (Cls (is_not [chr ")"])) >> Eol)%re.

(** [/["'][^"']*$/g] *)
Definition re_quote : regex :=
  (Cls (fun c => N.eqb c 34 || N.eqb c 39)
   >> Star (Cls (is_not [34; 39]%N)) >> Eol)%re.

(** [/^\s*/] *)
Definition re_indent : regex := (Bol >> Star (Cls is_space))%re.

(** The test of the missing-semicolon rule for javascript. *)
Definition js_missing_semicolon (trimmedLine : jsstring) : bool :=
  nonempty trimmedLine &&
  negb (endsWith trimmedLine (lit ";")) &&
  negb (endsWith trimmedLine (lit "{")) &&
  negb (endsWith trimmedLine (lit "}")) &&
  negb (includes trimmedLine (lit "if")) &&
  negb (includes trimmedLine (lit "for")) &&
  negb (includes trimmedLine (lit "while")) &&
  negb (includes trimmedLine (lit "function")) &&
  negb (startsWith trimmedLine (lit "//")) &&
  negb (startsWith trimmedLine (lit "/*")) &&
  negb (startsWith trimmedLine (lit "*")) &&
  negb (startsWith trimmedLine (lit "const")) &&
  negb (startsWith trimmedLine (lit "let")) &&
  negb (startsWith trimmedLine (lit "var")).

(** The test of the missing-semicolon rule for java and for cpp. *)
Definition c_missing_semicolon (trimmedLine : jsstring) : bool :=
  nonempty trimmedLine &&
  negb (endsWith trimmedLine (lit ";")) &&
  negb (endsWith trimmedLine (lit "{")) &&
  negb (endsWith trimmedLine (lit "}")) &&
  negb (includes trimmedLine (lit "if")) &&
  negb (includes trimmedLine (lit "for")) &&
  negb (includes trimmedLine (lit "while")) &&
  negb (includes trimmedLine (lit "class")) &&
  negb (startsWith trimmedLine (lit "//")) &&
  negb (startsWith trimmedLine (lit "/*")) &&
  negb (startsWith trimmedLine (lit "*")).

Definition missing_semicolon_bug (index : nat) : Bug :=
  {| bug_type := lit "syntax";
     bug_message := lit "Missing semicolon";
     bug_line := line_number index;
     bug_fix := lit "Add semicolon at the end of the statement" |}.

Definition unclosed_call_bug (code call : jsstring) : Bug :=
  {| bug_type := lit "syntax";
     bug_message := lit "Missing closing parenthesis in function call";
     bug_line := LineNo (lineOf (fun line => includes line call) code);
     bug_fix := lit "Add closing parenthesis to complete the function call" |}.

Definition controlStructures : list jsstring :=
  map lit ["if"; "for"; "while"; "def"; "class"; "else"; "elif"]%string.

Definition checkSyntaxErrors (code language : jsstring)
  : result (list Finding) :=
  let errors : list Finding := [] in
  let lines := split_lines code in
  if str_eqb language (lit "javascript") then
    (* Check for missing semicolons *)
    errors <- forEach lines 0 (fun line index errors =>
      let trimmedLine := trim line in
      push_if (js_missing_semicolon trimmedLine) errors
        (missing_semicolon_bug index) language) errors ;;
    (* Check for unclosed brackets *)
    let openBrackets := List.length (match_all re_open code) in
    let closeBrackets := List.length (match_all re_close code) in
    errors <- push_if (negb (Nat.eqb openBrackets closeBrackets)) errors
      {| bug_type := lit "syntax";
         bug_message := lit "Unmatched curly braces";
         bug_line := LineText (lit "Multiple lines");
         bug_fix := lit "Check and match all opening and closing braces" |}
      language ;;
    (* Check for missing parentheses in function calls *)
    let functionCalls := match_all re_call code in
    errors <- forEach functionCalls 0 (fun call _ errors =>
      push errors (unclosed_call_bug code call) language) errors ;;
    (* Check for missing quotes *)
    let unclosedQuotes := match_all re_quote code in
    forEach unclosedQuotes 0 (fun quote _ errors =>
      push errors
        {| bug_type := lit "syntax";
           bug_message := lit "Unclosed string literal";
           bug_line := LineNo (lineOf (fun line => includes line quote) code);
           bug_fix := lit "Add closing quote to complete the string" |}
        language) errors
  else if str_eqb language (lit "python") then
    (* Check for indentation *)
    errors <- forEach lines 0 (fun line index errors =>
      match match_first re_indent line with
      | None => Throw "TypeError: Cannot read properties of null"
      | Some m0 =>
          let indent := List.length m0 in
          push_if (negb (Nat.eqb (indent mod 4) 0)) errors
            {| bug_type := lit "syntax";
               bug_message := lit "Incorrect indentation";
               bug_line := line_number index;
               bug_fix := lit "Use 4 spaces for indentation" |}
            language
      end) errors ;;
    (* Check for missing colons after control structures *)
    errors <- forEach lines 0 (fun line index errors =>
      let trimmedLine := trim line in
      forEach controlStructures 0 (fun structure _ errors =>
        push_if (startsWith trimmedLine structure
                 && negb (endsWith trimmedLine (lit ":"))) errors
          {| bug_type := lit "syntax";
             bug_message :=
               lit "Missing colon after " ++ structure ++ lit " statement";
             bug_line := line_number index;
             bug_fix := lit "Add colon after the statement" |}
          language) errors) errors ;;
    (* Check for missing parentheses in function calls *)
    let pyFunctionCalls := match_all re_call code in
    forEach pyFunctionCalls 0 (fun call _ errors =>
      push errors (unclosed_call_bug code call) language) errors
  else if str_eqb language (lit "java") then
    (* Check for missing semicolons *)
    errors <- forEach lines 0 (fun line index errors =>
      let trimmedLine := trim line in
      push_if (c_missing_semicolon trimmedLine) errors
        (missing_semicolon_bug index) language) errors ;;
    (* Check for missing class declaration *)
    errors <- push_if (negb (includes code (lit "public class"))) errors
      {| bug_type := lit "syntax";
         bug_message := lit "Missing public class declaration";
         bug_line := LineNo 1;
         bug_fix := lit "Add public class declaration" |}
      language ;;
    (* Check for missing main method *)
    push_if (negb (includes code (lit "public static void main"))) errors
      {| bug_type := lit "syntax";
         bug_message := lit "Missing main method";
         bug_line := LineText (lit "Multiple lines");
         bug_fix := lit "Add public static void main method" |}
      language
  else if str_eqb language (lit "cpp") then
    (* Check for missing semicolons *)
    errors <- forEach lines 0 (fun line index errors =>
      let trimmedLine := trim line in
      push_if (c_missing_semicolon trimmedLine) errors
        (missing_semicolon_bug index) language) errors ;;
    (* Check for missing includes *)
    errors <- push_if (includes code (lit "cout")
                       && negb (includes code (lit "#include <iostream>")))
      errors
      {| bug_type := lit "syntax";
         bug_message := lit "Missing iostream include";
         bug_line := LineNo 1;
         bug_fix := lit "Add #include <iostream> at the beginning of the file" |}
      language ;;
    (* Check for missing namespace *)
    push_if (includes code (lit "cout")
             && negb (includes code (lit "using namespace std;")))
      errors
      {| bug_type := lit "syntax";
         bug_message := lit "Missing namespace declaration";
         bug_line := LineText (lit "Multiple lines");
         bug_fix := lit "Add using namespace std; after includes" |}
      language
  else Ok errors.

(** [/var\s+(\w+)|let\s+(\w+)|const\s+(\w+)/g] *)
Definition re_declaration : regex :=
  (Lit (lit "var") >> Plus (Cls is_space) >> Plus (Cls is_word)
   <|> Lit (lit "let") >> Plus (Cls is_space) >> Plus (Cls is_word)
   <|> Lit (lit "const") >> Plus (Cls is_space) >> Plus (Cls is_word))%re.

(** [/\b[a-zA-Z_]\w*\b/g] *)
Definition re_identifier : regex :=
  (WordB >> Cls (fun c => is_lower c || is_upper c || N.eqb c 95)
   >> Star (Cls is_word) >> WordB)%re.

Definition checkRuntimeErrors (code language : jsstring)
  : result (list Finding) :=
  let errors : list Finding := [] in
  if str_eqb language (lit "javascript") then
    (* Check for undefined variables *)
    let variables := match_all re_declaration code in
    let usedVars := match_all re_identifier code in
    forEach usedVars 0 (fun varName _ errors =>
      push_if (negb (existsb (fun v => includes v varName) variables)) errors
        {| bug_type := lit "runtime";
           bug_message := lit "Potential undefined variable";
           bug_line := LineNo (lineOf (fun line => includes line varName) code);
           bug_fix :=
             lit "Declare variable " ++ varName ++ lit " before using it" |}
        language) errors
  else if str_eqb language (lit "python") then
    (* Check for potential division by zero *)
    push_if (includes code (lit "/")) errors
      {| bug_type := lit "runtime";
         bug_message := lit "Potential division by zero";
         bug_line := LineNo (lineOf (fun line => includes line (lit "/")) code);
         bug_fix := lit "Add check for zero before division" |}
      language
  else if str_eqb language (lit "java") then
    (* Check for null pointer exceptions *)
    push_if (includes code (lit ".") && negb (includes code (lit "null")))
      errors
      {| bug_type := lit "runtime";
         bug_message := lit "Potential null pointer exception";
         bug_line := LineNo (lineOf (fun line => includes line (lit ".")) code);
         bug_fix := lit "Add null check before accessing object methods" |}
      language
  else if str_eqb language (lit "cpp") then
    (* Check for memory leaks *)
    push_if (includes code (lit "new ") && negb (includes code (lit "delete ")))
      errors
      {| bug_type := lit "runtime";
         bug_message := lit "Potential memory leak";
         bug_line := LineNo (lineOf (fun line => includes line (lit "new ")) code);
         bug_fix := lit "Add delete statement to free allocated memory" |}
      language
  else Ok errors.

Definition checkLogicalErrors (code language : jsstring)
  : result (list Finding) :=
  let errors : list Finding := [] in
  (* Check for infinite loops *)
  errors <- push_if (includes code (lit "while(true)")
                     || includes code (lit "for(;;)")) errors
    {| bug_type := lit "logical";
       bug_message := lit "Potential infinite loop";
       bug_line :=
         LineNo (lineOf (fun line => includes line (lit "while(true)")
                                     || includes line (lit "for(;;)")) code);
       bug_fix := lit "Add proper loop termination condition" |}
    language ;;
  (* Check for unreachable code *)
  push_if (includes code (lit "return")
           && includesFrom code (lit "return")
                (indexOf code (lit "return") + 7)) errors
    {| bug_type := lit "logical";
       bug_message := lit "Unreachable code after return statement";
       bug_line := LineNo (lineOf (fun line => includes line (lit "return")) code);
       bug_fix := lit "Remove code after return statement or restructure logic" |}
    language.

Definition checkSecurityIssues (code language : jsstring)
  : result (list Finding) :=
  let errors : list Finding := [] in
  (* Check for SQL injection vulnerabilities *)
  errors <- push_if (includes code (lit "SELECT")
                     || includes code (lit "INSERT")
                     || includes code (lit "UPDATE")) errors
    {| bug_type := lit "security";
       bug_message := lit "Potential SQL injection vulnerability";
       bug_line :=
         LineNo (lineOf (fun line => includes line (lit "SELECT")
                                     || includes line (lit "INSERT")
                                     || includes line (lit "UPDATE")) code);
       bug_fix := lit "Use parameterized queries or prepared statements" |}
    language ;;
  (* Check for XSS vulnerabilities *)
  push_if (includes code (lit "innerHTML")
           || includes code (lit "document.write")) errors
    {| bug_type := lit "security";
       bug_message := lit "Potential XSS vulnerability";
       bug_line :=
         LineNo (lineOf (fun line => includes line (lit "innerHTML")
                                     || includes line (lit "document.write"))
                   code);
       bug_fix := lit "Use textContent instead of innerHTML or sanitize input" |}
    language.

(** [bugs.push(...found)] after each of the four checkers, in order.  The
    call is read as an append, as it is in a runtime with room for every
    element of [found] among the arguments of one call; [Limited] below
    has the runtime with less room. *)
Definition analyzePotentialBugs (code language : jsstring)
  : result (list Finding) :=
  let bugs : list Finding := [] in
  syntaxErrors <- checkSyntaxErrors code language ;;
  let bugs := bugs ++ syntaxErrors in
  runtimeErrors <- checkRuntimeErrors code language ;;
  let bugs := bugs ++ runtimeErrors in
  logicalErrors <- checkLogicalErrors code language ;;
  let bugs := bugs ++ logicalErrors in
  securityIssues <- checkSecurityIssues code language ;;
  let bugs := bugs ++ securityIssues in
  Ok bugs.

(* ================================================================== *)
(** * Metrics Calculator *)
(* ================================================================== *)

Inductive level : Type := Low | Medium | High.

(** Numbers.  A finite number carries the exact quotient or product; the
    rounding of the machine format is left out.  It changes none of the
    comparisons below on a text that a string can hold: the operands are
    counts, and a rounded [n * 0.2] lies on the same side of every count
    as the exact product. *)
Inductive jsnum : Type :=
| Finite (q : Q)
| Infinity
| NaN.

(** [a / b] on two counts *)
Definition num_div (a b : nat) : jsnum :=
  match b, a with
  | O, O => NaN
  | O, S _ => Infinity
  | S _, _ => Finite (Z.of_nat a # Pos.of_nat b)%Q
  end.

(** [x * c] for a positive constant [c] *)
Definition num_scale (x : jsnum) (c : Q) : jsnum :=
  match x with
  | Finite q => Finite (q * c)%Q
  | other => other
  end.

(** [x > y]; every comparison with [NaN] is false *)
Definition num_gt (x y : jsnum) : bool :=
  match x, y with
  | NaN, _ | _, NaN => false
  | Infinity, Finite _ => true
  | Infinity, Infinity => false
  | Finite _, Infinity => false
  | Finite a, Finite b => negb (Qle_bool a b)
  end.

Definition num_lt (x y : jsnum) : bool := num_gt y x.

Definition count (n : nat) : jsnum := Finite (inject_Z (Z.of_nat n)).

(** [/if|else|for|while|switch|catch/g] *)
Definition re_control : regex :=
  (Lit (lit "if") <|> Lit (lit "else") <|> Lit (lit "for")
   <|> Lit (lit "while") <|> Lit (lit "switch") <|> Lit (lit "catch"))%re.

(** [/\([^)]*\)/g] *)
Definition re_parens : regex :=
  (Chr (chr "(") >> Star (Cls (is_not [chr ")"])) >> Chr (chr ")"))%re.

(** The three counts that [calculateComplexity] adds up. *)
Definition complexity_score (code : jsstring) : nat :=
  let complexity := 0 in
  (* Count control structures *)
  let complexity := complexity + List.length (match_all re_control code) in
  (* Count nested structures *)
  let complexity := complexity + List.length (match_all re_open code) in
  (* Count function parameters *)
  let complexity := complexity + List.length (match_all re_parens code) in
  complexity.

Definition complexity_level (complexity : nat) : level :=
  if 20 <? complexity then High
  else if 10 <? complexity then Medium
  else Low.

Definition calculateComplexity (code language : jsstring) : level :=
  complexity_level (complexity_score code).

Definition calculateMaintainability (code : jsstring) : level :=
  let lines := split_lines code in
  let avgLineLength :=
    num_div (fold_left (fun acc line => acc + List.length line) lines 0)
            (List.length lines) in
  let longLines :=
    List.length (filter (fun line => 80 <? List.length line) lines) in
  if num_gt avgLineLength (count 100)
     || num_gt (count longLines) (num_scale (count (List.length lines)) (2 # 10)%Q)
  then Low
  else if num_gt avgLineLength (count 80)
          || num_gt (count longLines)
               (num_scale (count (List.length lines)) (1 # 10)%Q)
  then Medium
  else High.

(** [/[a-z][a-zA-Z0-9]*/g] *)
Definition re_name : regex :=
  (Cls is_lower
   >> Star (Cls (fun c => is_lower c || is_upper c || is_digit c)))%re.

Definition calculateReadability (code : jsstring) : level :=
  let lines := split_lines code in
  let indentationConsistency :=
    forallb (fun line => startsWith line (lit "  ")
                         || startsWith line (lit "\t")
                         || negb (nonempty (trim line))) lines in
  let variableNaming := match_all re_name code in
  let descriptiveNames :=
    List.length (filter (fun name => 3 <? List.length name) variableNaming) in
  if negb indentationConsistency
     || num_lt (count descriptiveNames)
          (num_scale (count (List.length variableNaming)) (7 # 10)%Q)
  then Low
  else if num_lt (count descriptiveNames)
            (num_scale (count (List.length variableNaming)) (9 # 10)%Q)
  then Medium
  else High.

(** [/for|while/g] and [/for.*for|while.*while/g] *)
Definition re_loop : regex := (Lit (lit "for") <|> Lit (lit "while"))%re.

Definition re_nested : regex :=
  (Lit (lit "for") >> Star (Cls is_dot) >> Lit (lit "for")
   <|> Lit (lit "while") >> Star (Cls is_dot) >> Lit (lit "while"))%re.

Definition calculateEfficiency (code : jsstring) : level :=
  let lines := split_lines code in
  let loops := List.length (match_all re_loop code) in
  let nestedLoops := List.length (match_all re_nested code) in
  if 0 <? nestedLoops then Low
  else if num_gt (count loops) (num_scale (count (List.length lines)) (2 # 10)%Q)
  then Medium
  else High.

(* ================================================================== *)
(** * Suggestion Generator and Best-Practices Provider *)
(* ================================================================== *)

Record Example : Type := mkExample {
  example_before : jsstring;
  example_after : jsstring
}.

Record Suggestion : Type := mkSuggestion {
  suggestion_message : jsstring;
  example : Example
}.

Definition suggest (message before_text after_text : string) : Suggestion :=
  {| suggestion_message := lit message;
     example := {| example_before := lit before_text;
                   example_after := lit after_text |} |}.

(** [if (cond) { suggestions.push(s) }] *)
Definition add_if (cond : bool) (suggestions : list Suggestion)
  (s : Suggestion) : list Suggestion :=
  if cond then suggestions ++ [s] else suggestions.

Definition generateSuggestions (code language : jsstring) : list Suggestion :=
  let suggestions : list Suggestion := [] in
  (* Check for comments and documentation *)
  let suggestions :=
    add_if (negb (includes code (lit "//")) && negb (includes code (lit "/*")))
      suggestions
      (suggest "Add comments to explain complex logic and important sections"
         "function calculateTotal(items) {\n    return items.reduce((sum, item) => sum + item.price, 0);\n}"
         "// Calculate the total price of all items in the cart\nfunction calculateTotal(items) {\n    // Use reduce to sum up all item prices\n    return items.reduce((sum, item) => sum + item.price, 0);\n}") in
  (* Check for error handling *)
  let suggestions :=
    add_if (negb (includes code (lit "try")) && negb (includes code (lit "catch")))
      suggestions
      (suggest "Implement proper error handling with try-catch blocks"
         "function divide(a, b) {\n    return a / b;\n}"
         "function divide(a, b) {\n    try {\n        if (b === 0) throw new Error(\qDivision by zero\q);\n        return a / b;\n    } catch (error) {\n        console.error(\qError:\q, error.message);\n        return null;\n    }\n}") in
  (* Check for consistent formatting *)
  let suggestions :=
    add_if (includes code (lit "  ") && includes code (lit "\t")) suggestions
      (suggest "Use consistent indentation (either spaces or tabs, not both)"
         "function example() {\n\tconsole.log(\qtab\q);\n  console.log(\qspaces\q);\n}"
         "function example() {\n    console.log(\qconsistent\q);\n    console.log(\qspaces\q);\n}") in
  (* Check for variable naming *)
  let variableNames := match_all re_name code in
  let shortNames := filter (fun name => List.length name <? 3) variableNames in
  let suggestions :=
    add_if (0 <? List.length shortNames) suggestions
      (suggest "Use more descriptive variable names (avoid single or double letter names)"
         "let x = 5;\nlet y = 10;\nlet z = x + y;"
         "let firstNumber = 5;\nlet secondNumber = 10;\nlet sum = firstNumber + secondNumber;") in
  (* Language-specific suggestions *)
  let suggestions :=
    if str_eqb language (lit "javascript") then
      let suggestions :=
        add_if (includes code (lit "var ")) suggestions
          (suggest "Use const or let instead of var for better scoping"
             "var counter = 0;\nvar name = \qJohn\q;"
             "const name = \qJohn\q;\nlet counter = 0;") in
      let suggestions :=
        add_if (includes code (lit "function()")
                || includes code (lit "function ()")) suggestions
          (suggest "Consider using arrow functions for better readability"
             "function multiply(a, b) {\n    return a * b;\n}"
             "const multiply = (a, b) => a * b;") in
      add_if (includes code (lit "==") || includes code (lit "!=")) suggestions
        (suggest "Use strict equality operators (=== and !==) instead of loose equality"
           "if (value == \q5\q) {\n    console.log(\qEqual\q);\n}"
           "if (value === \q5\q) {\n    console.log(\qEqual\q);\n}")
    else if str_eqb language (lit "python") then
      let suggestions :=
        add_if (includes code (lit "print(")) suggestions
          (suggest "Consider using logging instead of print statements"
             "print(\qError occurred\q)"
             "import logging\nlogging.error(\qError occurred\q)") in
      add_if (includes code (lit "global ")) suggestions
        (suggest "Avoid using global variables, consider passing values as parameters"
           "global counter\ndef increment():\n    global counter\n    counter += 1"
           "def increment(counter):\n    return counter + 1")
    else if str_eqb language (lit "java") then
      add_if (negb (includes code (lit "public class"))) suggestions
        (suggest "Add proper access modifiers to classes and methods"
           "class Calculator {\n    int add(int a, int b) {\n        return a + b;\n    }\n}"
           "public class Calculator {\n    public int add(int a, int b) {\n        return a + b;\n    }\n}")
    else if str_eqb language (lit "cpp") then
      add_if (includes code (lit "using namespace std;")) suggestions
        (suggest "Avoid using namespace std, use specific using declarations instead"
           "using namespace std;\ncout << \qHello\q;"
           "using std::cout;\ncout << \qHello\q;")
    else suggestions in
  (* Performance suggestions *)
  let suggestions :=
    add_if (includes code (lit "for") && includes code (lit "for")) suggestions
      (suggest "Consider optimizing nested loops for better performance"
         "for (let i = 0; i < array.length; i++) {\n    for (let j = 0; j < array.length; j++) {\n        console.log(array[i][j]);\n    }\n}"
         "const length = array.length;\nfor (let i = 0; i < length; i++) {\n    for (let j = 0; j < length; j++) {\n        console.log(array[i][j]);\n    }\n}") in
  (* Security suggestions *)
  add_if (includes code (lit "eval(") || includes code (lit "Function("))
    suggestions
    (suggest "Avoid using eval() or Function() constructor as they can lead to security vulnerabilities"
       "eval(userInput);"
       "// Use safer alternatives\nconst result = parseFloat(userInput);\nif (!isNaN(result)) {\n    // Process the number\n}").

Definition arr (items : list string) : jsval := JArray (map lit items).

Definition practices : jsval :=
  obj [ "javascript" |-> arr [
          "Use const for values that won't be reassigned";
          "Use arrow functions for callbacks";
          "Implement proper error handling";
          "Use template literals for string interpolation";
          "Follow the principle of least privilege" ]%string;
        "python" |-> arr [
          "Follow PEP 8 style guide";
          "Use virtual environments";
          "Implement proper exception handling";
          "Use type hints for better code clarity";
          "Write docstrings for functions and classes" ]%string;
        "java" |-> arr [
          "Follow Java naming conventions";
          "Use appropriate access modifiers";
          "Implement proper exception handling";
          "Use interfaces for abstraction";
          "Follow SOLID principles" ]%string;
        "cpp" |-> arr [
          "Use smart pointers instead of raw pointers";
          "Follow RAII principles";
          "Use const where appropriate";
          "Implement proper memory management";
          "Use modern C++ features" ]%string ].

(** [practices[language] || practices.javascript] *)
Definition generateBestPractices (language : jsstring) : result jsval :=
  byLanguage <- get practices language ;;
  if truthy byLanguage then Ok byLanguage
  else get practices (lit "javascript").

(* ================================================================== *)
(** * Report Orchestrator *)
(* ================================================================== *)

Record CodeAnalysis : Type := mkCodeAnalysis {
  language_ : jsstring;
  totalLines : nat;
  commentLines : nat;
  functionCount : nat;
  complexity : level;
  codeToCommentRatio : jsnum
}.

Record Metrics : Type := mkMetrics {
  maintainability : level;
  readability : level;
  efficiency : level
}.

Record BugTypes : Type := mkBugTypes {
  syntax : nat;
  runtime : nat;
  logical : nat;
  security : nat
}.

Record Debugging : Type := mkDebugging {
  bugs : list Finding;
  bugCount : nat;
  bugTypes : BugTypes
}.

Record Report : Type := mkReport {
  codeAnalysis : CodeAnalysis;
  suggestions : list Suggestion;
  bestPractices : jsval;
  metrics : Metrics;
  debugging : Debugging
}.

Definition of_type (t : string) (bug : Finding) : bool :=
  str_eqb (type bug) (lit t).

Definition analyzeCode (code language : jsstring) : result Report :=
  let lines := split_lines code in
  let totalLines := List.length lines in
  (* Count comments *)
  let commentLines :=
    List.length (filter (fun line =>
      startsWith (trim line) (lit "//")
      || startsWith (trim line) (lit "/*")
      || startsWith (trim line) (lit "*")
      || startsWith (trim line) (lit "#")) lines) in
  (* Count functions *)
  let functionCount :=
    List.length (filter (fun line =>
      includes line (lit "function")
      || includes line (lit "def ")
      || includes line (lit "class ")) lines) in
  (* Calculate complexity based on multiple factors *)
  let complexity := calculateComplexity code language in
  (* Generate language-specific suggestions *)
  let suggestions := generateSuggestions code language in
  (* Generate best practices based on language *)
  bestPractices <- generateBestPractices language ;;
  (* Add debugging analysis *)
  potentialBugs <- analyzePotentialBugs code language ;;
  Ok {| codeAnalysis :=
          {| language_ := language;
             totalLines := totalLines;
             commentLines := commentLines;
             functionCount := functionCount;
             complexity := complexity;
             codeToCommentRatio :=
               num_scale (num_div commentLines totalLines) 100%Q |};
        suggestions := suggestions;
        bestPractices := bestPractices;
        metrics :=
          {| maintainability := calculateMaintainability code;
             readability := calculateReadability code;
             efficiency := calculateEfficiency code |};
        debugging :=
          {| bugs := potentialBugs;
             bugCount := List.length potentialBugs;
             bugTypes :=
               {| syntax := List.length (filter (of_type "syntax") potentialBugs);
                  runtime := List.length (filter (of_type "runtime") potentialBugs);
                  logical := List.length (filter (of_type "logical") potentialBugs);
                  security := List.length (filter (of_type "security") potentialBugs)
               |} |} |}.

(* ================================================================== *)
(** * The room for the arguments of a call *)
(* ================================================================== *)

(** [bugs.push(...found)] is one call, and every element of [found] is
    an argument of it.  A runtime has room for so many arguments of one
    call and raises a [RangeError] for a call with more; the room,
    [max_arguments], depends on the runtime and on the stack that is
    left.  [analyzePotentialBugs] and [analyzeCode] above read the call
    as an append: they are the engine with room for every call.  The
    definitions of [Limited] are the engine in a runtime with room for
    [max_arguments]. *)
Definition range_error : string :=
  "RangeError: Maximum call stack size exceeded".

(** [bugs.push(...found)] *)
Definition push_spread (max_arguments : nat) (bugs found : list Finding)
  : result (list Finding) :=
  if Nat.leb (List.length found) max_arguments
  then Ok (bugs ++ found)
  else Throw range_error.

Module Limited.

Definition analyzePotentialBugs (max_arguments : nat) (code language : jsstring)
  : result (list Finding) :=
  let bugs : list Finding := [] in
  syntaxErrors <- checkSyntaxErrors code language ;;
  bugs <- push_spread max_arguments bugs syntaxErrors ;;
  runtimeErrors <- checkRuntimeErrors code language ;;
  bugs <- push_spread max_arguments bugs runtimeErrors ;;
  logicalErrors <- checkLogicalErrors code language ;;
  bugs <- push_spread max_arguments bugs logicalErrors ;;
  securityIssues <- checkSecurityIssues code language ;;
  bugs <- push_spread max_arguments bugs securityIssues ;;
  Ok bugs.

Definition analyzeCode (max_arguments : nat) (code language : jsstring)
  : result Report :=
  let lines := split_lines code in
  let totalLines := List.length lines in
  (* Count comments *)
  let commentLines :=
    List.length (filter (fun line =>
      startsWith (trim line) (lit "//")
      || startsWith (trim line) (lit "/*")
      || startsWith (trim line) (lit "*")
      || startsWith (trim line) (lit "#")) lines) in
  (* Count functions *)
  let functionCount :=
    List.length (filter (fun line =>
      includes line (lit "function")
      || includes line (lit "def ")
      || includes line (lit "class ")) lines) in
  (* Calculate complexity based on multiple factors *)
  let complexity := calculateComplexity code language in
  (* Generate language-specific suggestions *)
  let suggestions := generateSuggestions code language in
  (* Generate best practices based on language *)
  bestPractices <- generateBestPractices language ;;
  (* Add debugging analysis *)
  potentialBugs <- analyzePotentialBugs max_arguments code language ;;
  Ok {| codeAnalysis :=
          {| language_ := language;
             totalLines := totalLines;
             commentLines := commentLines;
             functionCount := functionCount;
             complexity := complexity;
             codeToCommentRatio :=
               num_scale (num_div commentLines totalLines) 100%Q |};
        suggestions := suggestions;
        bestPractices := bestPractices;
        metrics :=
          {| maintainability := calculateMaintainability code;
             readability := calculateReadability code;
             efficiency := calculateEfficiency code |};
        debugging :=
          {| bugs := potentialBugs;
             bugCount := List.length potentialBugs;
             bugTypes :=
               {| syntax := List.length (filter (of_type "syntax") potentialBugs);
                  runtime := List.length (filter (of_type "runtime") potentialBugs);
                  logical := List.length (filter (of_type "logical") potentialBugs);
                  security := List.length (filter (of_type "security") potentialBugs)
               |} |} |}.

End Limited.

(* ================================================================== *)
(** * The review route *)
(* ================================================================== *)

(** The body of a request, as the route destructures it: [code] and
    [language] are strings, or are absent. *)
Record Request : Type := mkRequest {
  body_code : option jsstring;
  body_language : option jsstring
}.

(** What [res.json] is given: an error text or the review. *)
Inductive Payload : Type :=
| ErrorBody (error : jsstring)
| ReviewBody (review : Report).

Record Response : Type := mkResponse {
  status : nat;
  payload : Payload
}.

(** [!field]: an absent field and the empty string are falsy. *)
Definition absent (field : option jsstring) : bool :=
  match field with
  | None | Some [] => true
  | Some (_ :: _) => false
  end.

Definition field_text (field : option jsstring) : jsstring :=
  match field with
  | Some s => s
  | None => []
  end.

(** A raised error is written with its name, a colon and its message;
    [error.message] is the message. *)
Fixpoint message_text (error : string) : string :=
  match error with
  | String ":" (String " " text) => text
  | String _ rest => message_text rest
  | EmptyString => EmptyString
  end.

Definition error_message (error : string) : jsstring :=
  map N_of_ascii (list_ascii_of_string (message_text error)).

(** [app.post('/api/review', ...)]: the two checks, the analysis, and the
    [catch] around them, in a runtime with room for [max_arguments]. *)
Definition review_route (max_arguments : nat) (req : Request) : Response :=
  let code := body_code req in
  let language := body_language req in
  let attempt : result Response :=
    if absent code then
      Ok {| status := 400; payload := ErrorBody (lit "Code is required") |}
    else if absent language then
      Ok {| status := 400;
            payload := ErrorBody (lit "Programming language is required") |}
    else
      review <- Limited.analyzeCode max_arguments
                  (field_text code) (field_text language) ;;
      Ok {| status := 200; payload := ReviewBody review |} in
  match attempt with
  | Ok response => response
  | Throw error =>
      {| status := 500;
         payload :=
           ErrorBody (if nonempty (error_message error)
                      then error_message error
                      else lit "Failed to review code") |}
  end.

(* ================================================================== *)
(** * The colours of the client *)
(* ================================================================== *)

(** The metrics of a Report are the strings ['Low'], ['Medium'] and
    ['High']. *)
Definition level_name (l : level) : jsstring :=
  match l with
  | Low => lit "Low"
  | Medium => lit "Medium"
  | High => lit "High"
  end.

Definition getMetricColor (metric : jsstring) : jsstring :=
  if str_eqb metric (lit "High") then lit "success"
  else if str_eqb metric (lit "Medium") then lit "warning"
  else if str_eqb metric (lit "Low") then lit "error"
  else lit "default".

Definition getBugTypeColor (type : jsstring) : jsstring :=
  if str_eqb type (lit "syntax") then lit "error"
  else if str_eqb type (lit "runtime") then lit "warning"
  else if str_eqb type (lit "logical") then lit "info"
  else if str_eqb type (lit "security") then lit "error"
  else lit "default".

(* ================================================================== *)
(** * Closed forms and predicates of the properties *)
(* ================================================================== *)

Unset Implicit Arguments.

(** ** The checkers in closed form *)

(** The value of [v?.[k]] when the read does not raise. *)
Definition member_opt (v : jsval) (k : jsstring) : jsval :=
  if nullish v then JUndefined else member v k.

(** What [generateFix] returns when no read raises. *)
Definition synthesize (language : jsstring) (bug : Bug) : Finding :=
  let byType := member fixes (bug_type bug) in
  let languageFixes := or_else (member_opt byType language) byType in
  let fix_v :=
    or_else (member_opt languageFixes (bug_message bug))
      (JObject [ (lit "before", JString (lit "Original code"));
                 (lit "after", JString (bug_fix bug));
                 (lit "explanation", JString (bug_fix bug)) ]) in
  {| type := bug_type bug;
     message := bug_message bug;
     line := bug_line bug;
     fix_ := {| before := member fix_v (lit "before");
                after := member fix_v (lit "after");
                explanation := member fix_v (lit "explanation") |} |}.

(** The bugs of a guarded push and of a loop of pushes. *)
Definition when (cond : bool) (bug : Bug) : list Bug :=
  if cond then [bug] else [].

Fixpoint each {A} (xs : list A) (index : nat) (f : A -> nat -> list Bug)
  : list Bug :=
  match xs with
  | [] => []
  | x :: r => f x index ++ each r (S index) f
  end.

(** The width of the leading white space of a line. *)
Definition indentOf (line : jsstring) : nat :=
  match match_first re_indent line with
  | Some m0 => List.length m0
  | None => 0
  end.

Definition unmatched_braces_bug : Bug :=
  {| bug_type := lit "syntax";
     bug_message := lit "Unmatched curly braces";
     bug_line := LineText (lit "Multiple lines");
     bug_fix := lit "Check and match all opening and closing braces" |}.

Definition unclosed_quote_bug (code quote : jsstring) : Bug :=
  {| bug_type := lit "syntax";
     bug_message := lit "Unclosed string literal";
     bug_line := LineNo (lineOf (fun line => includes line quote) code);
     bug_fix := lit "Add closing quote to complete the string" |}.

Definition javascript_syntax_bugs (code : jsstring) : list Bug :=
  each (split_lines code) 0 (fun line index =>
    when (js_missing_semicolon (trim line)) (missing_semicolon_bug index))
  ++ when (negb (Nat.eqb (List.length (match_all re_open code))
                         (List.length (match_all re_close code))))
       unmatched_braces_bug
  ++ each (match_all re_call code) 0 (fun call _ =>
       [unclosed_call_bug code call])
  ++ each (match_all re_quote code) 0 (fun quote _ =>
       [unclosed_quote_bug code quote]).

Definition indentation_bug (index : nat) : Bug :=
  {| bug_type := lit "syntax";
     bug_message := lit "Incorrect indentation";
     bug_line := line_number index;
     bug_fix := lit "Use 4 spaces for indentation" |}.

Definition missing_colon_bug (structure : jsstring) (index : nat) : Bug :=
  {| bug_type := lit "syntax";
     bug_message := lit "Missing colon after " ++ structure ++ lit " statement";
     bug_line := line_number index;
     bug_fix := lit "Add colon after the statement" |}.

Definition python_syntax_bugs (code : jsstring) : list Bug :=
  each (split_lines code) 0 (fun line index =>
    when (negb (Nat.eqb (indentOf line mod 4) 0)) (indentation_bug index))
  ++ each (split_lines code) 0 (fun line index =>
       each controlStructures 0 (fun structure _ =>
         when (startsWith (trim line) structure
               && negb (endsWith (trim line) (lit ":")))
           (missing_colon_bug structure index)))
  ++ each (match_all re_call code) 0 (fun call _ =>
       [unclosed_call_bug code call]).

Definition java_syntax_bugs (code : jsstring) : list Bug :=
  each (split_lines code) 0 (fun line index =>
    when (c_missing_semicolon (trim line)) (missing_semicolon_bug index))
  ++ when (negb (includes code (lit "public class")))
       {| bug_type := lit "syntax";
          bug_message := lit "Missing public class declaration";
          bug_line := LineNo 1;
          bug_fix := lit "Add public class declaration" |}
  ++ when (negb (includes code (lit "public static void main")))
       {| bug_type := lit "syntax";
          bug_message := lit "Missing main method";
          bug_line := LineText (lit "Multiple lines");
          bug_fix := lit "Add public static void main method" |}.

Definition cpp_syntax_bugs (code : jsstring) : list Bug :=
  each (split_lines code) 0 (fun line index =>
    when (c_missing_semicolon (trim line)) (missing_semicolon_bug index))
  ++ when (includes code (lit "cout")
           && negb (includes code (lit "#include <iostream>")))
       {| bug_type := lit "syntax";
          bug_message := lit "Missing iostream include";
          bug_line := LineNo 1;
          bug_fix := lit "Add #include <iostream> at the beginning of the file" |}
  ++ when (includes code (lit "cout")
           && negb (includes code (lit "using namespace std;")))
       {| bug_type := lit "syntax";
          bug_message := lit "Missing namespace declaration";
          bug_line := LineText (lit "Multiple lines");
          bug_fix := lit "Add using namespace std; after includes" |}.

Definition syntax_bugs (code language : jsstring) : list Bug :=
  if str_eqb language (lit "javascript") then javascript_syntax_bugs code
  else if str_eqb language (lit "python") then python_syntax_bugs code
  else if str_eqb language (lit "java") then java_syntax_bugs code
  else if str_eqb language (lit "cpp") then cpp_syntax_bugs code
  else [].

Definition undefined_variable_bug (code varName : jsstring) : Bug :=
  {| bug_type := lit "runtime";
     bug_message := lit "Potential undefined variable";
     bug_line := LineNo (lineOf (fun line => includes line varName) code);
     bug_fix := lit "Declare variable " ++ varName ++ lit " before using it" |}.

Definition runtime_bugs (code language : jsstring) : list Bug :=
  if str_eqb language (lit "javascript") then
    each (match_all re_identifier code) 0 (fun varName _ =>
      when (negb (existsb (fun v => includes v varName)
                    (match_all re_declaration code)))
        (undefined_variable_bug code varName))
  else if str_eqb language (lit "python") then
    when (includes code (lit "/"))
      {| bug_type := lit "runtime";
         bug_message := lit "Potential division by zero";
         bug_line := LineNo (lineOf (fun line => includes line (lit "/")) code);
         bug_fix := lit "Add check for zero before division" |}
  else if str_eqb language (lit "java") then
    when (includes code (lit ".") && negb (includes code (lit "null")))
      {| bug_type := lit "runtime";
         bug_message := lit "Potential null pointer exception";
         bug_line := LineNo (lineOf (fun line => includes line (lit ".")) code);
         bug_fix := lit "Add null check before accessing object methods" |}
  else if str_eqb language (lit "cpp") then
    when (includes code (lit "new ") && negb (includes code (lit "delete ")))
      {| bug_type := lit "runtime";
         bug_message := lit "Potential memory leak";
         bug_line := LineNo (lineOf (fun line => includes line (lit "new ")) code);
         bug_fix := lit "Add delete statement to free allocated memory" |}
  else [].

Definition infinite_loop_bug (code : jsstring) : Bug :=
  {| bug_type := lit "logical";
     bug_message := lit "Potential infinite loop";
     bug_line :=
       LineNo (lineOf (fun line => includes line (lit "while(true)")
                                   || includes line (lit "for(;;)")) code);
     bug_fix := lit "Add proper loop termination condition" |}.

Definition unreachable_bug (code : jsstring) : Bug :=
  {| bug_type := lit "logical";
     bug_message := lit "Unreachable code after return statement";
     bug_line := LineNo (lineOf (fun line => includes line (lit "return")) code);
     bug_fix := lit "Remove code after return statement or restructure logic" |}.

(** The test of the unreachable-code rule. *)
Definition second_return (code : jsstring) : bool :=
  includes code (lit "return")
  && includesFrom code (lit "return") (indexOf code (lit "return") + 7).

Definition logical_bugs (code : jsstring) : list Bug :=
  when (includes code (lit "while(true)") || includes code (lit "for(;;)"))
    (infinite_loop_bug code)
  ++ when (second_return code) (unreachable_bug code).

Definition security_bugs (code : jsstring) : list Bug :=
  when (includes code (lit "SELECT") || includes code (lit "INSERT")
        || includes code (lit "UPDATE"))
    {| bug_type := lit "security";
       bug_message := lit "Potential SQL injection vulnerability";
       bug_line :=
         LineNo (lineOf (fun line => includes line (lit "SELECT")
                                     || includes line (lit "INSERT")
                                     || includes line (lit "UPDATE")) code);
       bug_fix := lit "Use parameterized queries or prepared statements" |}
  ++ when (includes code (lit "innerHTML")
           || includes code (lit "document.write"))
       {| bug_type := lit "security";
          bug_message := lit "Potential XSS vulnerability";
          bug_line :=
            LineNo (lineOf (fun line => includes line (lit "innerHTML")
                                        || includes line (lit "document.write"))
                      code);
          bug_fix := lit "Use textContent instead of innerHTML or sanitize input" |}.

(** All the bugs of one analysis, in the order of the four checkers. *)
Definition all_bugs (code language : jsstring) : list Bug :=
  syntax_bugs code language ++ runtime_bugs code language
  ++ logical_bugs code ++ security_bugs code.

(** What [generateBestPractices] returns, without the error monad. *)
Definition best_practices (language : jsstring) : jsval :=
  or_else (member practices language) (member practices (lit "javascript")).

Definition javascript_practices : jsval :=
  arr [ "Use const for values that won't be reassigned";
        "Use arrow functions for callbacks";
        "Implement proper error handling";
        "Use template literals for string interpolation";
        "Follow the principle of least privilege" ]%string.

(** ** Properties of Findings *)

Definition has_space (s : jsstring) : bool := existsb (N.eqb 32) s.

Definition finding_types : list jsstring :=
  map lit ["syntax"; "runtime"; "logical"; "security"]%string.

(** What every bug that a checker writes has: one of the four types, a
    message of several words and an advice text. *)
Definition engine_bug (bug : Bug) : bool :=
  mem (bug_type bug) finding_types
  && has_space (bug_message bug)
  && nonempty (bug_fix bug).

Definition nonempty_string (v : jsval) : Prop :=
  exists s, v = JString s /\ s <> [].

Definition nonempty_stringb (v : jsval) : bool :=
  match v with
  | JString (_ :: _) => true
  | _ => false
  end.

Definition complete_fix (f : Fix) : Prop :=
  nonempty_string (before f) /\ nonempty_string (after f)
  /\ nonempty_string (explanation f).

(** A value that reads as a complete Fix. *)
Definition good_fix (v : jsval) : bool :=
  nonempty_stringb (member v (lit "before"))
  && nonempty_stringb (member v (lit "after"))
  && nonempty_stringb (member v (lit "explanation")).

(** A table that is safe to read under a message: what it holds under a
    key of several words is a complete Fix. *)
Definition entry_ok (kv : jsstring * jsval) : bool :=
  negb (has_space (fst kv)) || good_fix (snd kv).

Definition table_ok (v : jsval) : bool :=
  match v with
  | JObject props => forallb entry_ok props
  | JBuiltin _ | JUndefined | JNull => true
  | _ => false
  end.

(** The languages that the checkers have rules for. *)
Definition supported_languages : list jsstring :=
  map lit ["javascript"; "python"; "java"; "cpp"]%string.

(** ** Counts and orders *)

(** The number of occurrences of a character in a text. *)
Definition count_char (c : N) (s : jsstring) : nat :=
  List.length (filter (N.eqb c) s).

(** The number of occurrences of a word in a text. *)
Fixpoint occurrences (s p : jsstring) : nat :=
  (if startsWith s p then 1 else 0)
  + match s with
    | [] => 0
    | _ :: s' => occurrences s' p
    end.

(** Low < Medium < High *)
Definition level_rank (l : level) : nat :=
  match l with
  | Low => 0
  | Medium => 1
  | High => 2
  end.

(** The control keywords that [calculateComplexity] counts. *)
Definition control_keywords : list jsstring :=
  map lit ["if"; "else"; "for"; "while"; "switch"; "catch"]%string.

(** ** Selecting Findings *)

Definition has_message (m : string) (f : Finding) : bool :=
  str_eqb (message f) (lit m).

Definition bug_has_message (m : string) (b : Bug) : bool :=
  str_eqb (bug_message b) (lit m).

(** Unmatched braces as the specification has them, for a code and a
    language: when the two counts differ there is one Finding with the
    message, of type syntax and with a text in place of a line number. *)
Definition unmatched_braces_spec (code language : jsstring) : Prop :=
  count_char (chr "{") code <> count_char (chr "}") code ->
  exists report f,
    analyzeCode code language = Ok report
    /\ filter (has_message "Unmatched curly braces") (bugs (debugging report)) = [f]
    /\ type f = lit "syntax"
    /\ exists text, line f = LineText text.

(** ** The missing-semicolon rule in the words of the specification *)

(** A line is flagged when it is not empty after trimming, does not end
    with [;], [{] or [}], contains none of the [keywords], and starts
    neither with a comment marker nor with a declaration keyword. *)
Definition flagged (keywords : list string) (l : jsstring) : bool :=
  let trimmed := trim l in
  nonempty trimmed
  && negb (existsb (endsWith trimmed) (map lit [";"; "{"; "}"]%string))
  && negb (existsb (includes trimmed) (map lit keywords))
  && negb (existsb (startsWith trimmed) (map lit ["//"; "/*"; "*"]%string))
  && negb (existsb (startsWith trimmed) (map lit ["const"; "let"; "var"]%string)).

Fixpoint numbered {A} (index : nat) (xs : list A) : list (nat * A) :=
  match xs with
  | [] => []
  | x :: r => (index, x) :: numbered (S index) r
  end.

(** The 1-based numbers of the flagged lines of a text, in order. *)
Definition flagged_lines (keywords : list string) (code : jsstring)
  : list line_ref :=
  map (fun il => line_number (fst il))
    (filter (fun il => flagged keywords (snd il))
       (numbered 0 (split_lines code))).

(** One 'Missing semicolon' Finding for each flagged line and no other,
    each at the number of its line. *)
Definition missing_semicolon_spec (keywords : list string) (code : jsstring)
  : Prop :=
  exists findings,
    checkSyntaxErrors code (lit "javascript") = Ok findings
    /\ map line (filter (has_message "Missing semicolon") findings)
       = flagged_lines keywords code.

(** The control keywords of the specification and those of the
    javascript branch. *)
Definition specified_keywords : list string :=
  ["if"; "for"; "while"; "function"; "class"]%string.

Definition javascript_keywords : list string :=
  ["if"; "for"; "while"; "function"]%string.

(** ** Inputs of the examples *)

Definition python_example : jsstring := lit "def test():\nprint(\qtest\q)".

(** The same text with the second line indented by one space. *)
Definition python_one_space : jsstring := lit "def test():\n print(\qtest\q)".

(** ** Properties of matchers *)

(** A matcher calls its continuation on texts that are no longer than
    its own: two continuations that agree there give the same result. *)
Definition local (step : matcher) : Prop :=
  forall prev s (k k' : continuation),
    (forall p' s', List.length s' <= List.length s -> k p' s' = k' p' s') ->
    step prev s k = step prev s k'.

(** A matcher succeeds through its continuation only. *)
Definition strict (step : matcher) : Prop :=
  forall prev s, step prev s (fun _ _ => None) = None.

(** What a match leaves is the end of the text it started on. *)
Definition consuming (step : matcher) : Prop :=
  forall prev s (k : continuation) rest,
    step prev s k = Some rest ->
    exists p' m s', s = m ++ s' /\ k p' s' = Some rest.

(** ** Reading the catalog *)

(** The Fix that a value of the catalog reads as. *)
Definition fix_of_value (v : jsval) : Fix :=
  {| before := member v (lit "before");
     after := member v (lit "after");
     explanation := member v (lit "explanation") |}.

(** The generic Fix, built from the advice text of a bug. *)
Definition fallback_fix (advice : jsstring) : Fix :=
  {| before := JString (lit "Original code");
     after := JString advice;
     explanation := JString advice |}.

(** The entry of the tables that hold no language: [fixes[type][message]]. *)
Definition agnostic_entry (f : Finding) : jsval :=
  member (member fixes (type f)) (message f).

(** The keys of the two tables that hold no language. *)
Definition agnostic_keys : list jsstring :=
  map lit ["Potential infinite loop"; "Unreachable code";
           "Potential SQL injection vulnerability";
           "Potential XSS vulnerability"]%string.

(** A name of a function that every object inherits: a member of
    [Object.prototype] other than [__proto__], which is the prototype
    itself. *)
Definition names_function (k : jsstring) : bool :=
  mem k object_prototype_names && negb (str_eqb k (lit "__proto__")).

(** A table that has nothing under the message [m]. *)
Definition misses (m : jsstring) (v : jsval) : bool :=
  match v with
  | JObject props => negb (existsb (fun kv => str_eqb m (fst kv)) props)
  | JBuiltin _ | JUndefined | JNull => true
  | _ => false
  end.

(** ** Locating a Finding *)

(** A text without a line feed. *)
Definition no_newline (s : jsstring) : bool :=
  negb (existsb (N.eqb 10) s).

(** The text that triggers a Finding which is located by a fixed text,
    as a test on a line. *)
Definition trigger (m : jsstring) (l : jsstring) : bool :=
  if str_eqb m (lit "Potential infinite loop")
  then includes l (lit "while(true)") || includes l (lit "for(;;)")
  else if str_eqb m (lit "Unreachable code after return statement")
  then includes l (lit "return")
  else if str_eqb m (lit "Potential SQL injection vulnerability")
  then includes l (lit "SELECT") || includes l (lit "INSERT")
       || includes l (lit "UPDATE")
  else if str_eqb m (lit "Potential XSS vulnerability")
  then includes l (lit "innerHTML") || includes l (lit "document.write")
  else if str_eqb m (lit "Potential division by zero")
  then includes l (lit "/")
  else if str_eqb m (lit "Potential null pointer exception")
  then includes l (lit ".")
  else if str_eqb m (lit "Potential memory leak")
  then includes l (lit "new ")
  else false.

(** The line of a Finding is the first line of the text that the test
    [p] holds of. *)
Definition first_line_with (p : jsstring -> bool) (code : jsstring)
  (l : line_ref) : Prop :=
  exists n text,
    l = LineNo (Z.of_nat n + 1)
    /\ nth_error (split_lines code) n = Some text
    /\ p text = true
    /\ forall j earlier,
         j < n -> nth_error (split_lines code) j = Some earlier ->
         p earlier = false.

(** A line reference that stays within the text: a number between 0
    and the number of lines, or the text 'Multiple lines'. *)
Definition line_within (total : nat) (l : line_ref) : Prop :=
  match l with
  | LineNo n => (0 <= n <= Z.of_nat total)%Z
  | LineText s => s = lit "Multiple lines"
  end.

(** ** Rules on lines *)

(** The 1-based numbers of the lines of a text that a test holds of, in
    order. *)
Definition lines_where (test : jsstring -> bool) (code : jsstring)
  : list line_ref :=
  map (fun il => line_number (fst il))
    (filter (fun il => test (snd il)) (numbered 0 (split_lines code))).

(** The count of the white-space characters that a line starts with. *)
Definition leading_space (l : jsstring) : nat :=
  List.length l - List.length (trimStart l).

(** The test of the missing-semicolon rule of java and cpp, in words: a
    line that is not empty after trimming, does not end with [;], [{] or
    [}], contains none of if, for, while and class, and does not start
    with a comment marker. *)
Definition flagged_c (l : jsstring) : bool :=
  let trimmed := trim l in
  nonempty trimmed
  && negb (existsb (endsWith trimmed) (map lit [";"; "{"; "}"]%string))
  && negb (existsb (includes trimmed) (map lit ["if"; "for"; "while"; "class"]%string))
  && negb (existsb (startsWith trimmed) (map lit ["//"; "/*"; "*"]%string)).

(** ** Suggestions *)

(** A suggestion with a message and with both texts of its example. *)
Definition suggestion_ok (s : Suggestion) : bool :=
  nonempty (suggestion_message s)
  && nonempty (example_before (example s))
  && nonempty (example_after (example s)).

(** ** The python example *)

(** A Finding on indentation whose Fix shows code indented by four
    spaces. *)
Definition indentation_finding (f : Finding) : Prop :=
  type f = lit "syntax"
  /\ message f = lit "Incorrect indentation"
  /\ exists text, after (fix_ f) = JString text
                  /\ includes text (lit "    ") = true.

(** The example as the specification has it: the Report of
    [python_example] holds a Finding on indentation. *)
Definition python_example_spec : Prop :=
  exists report f,
    analyzeCode python_example (lit "python") = Ok report
    /\ In f (bugs (debugging report))
    /\ indentation_finding f.

(** ** The room for the arguments of a call *)

(** A Report whose Findings fit the room: [max_arguments] has room for
    the Findings of each checker. *)
Definition fits (max_arguments : nat) (report : Report) : bool :=
  Nat.leb (syntax (bugTypes (debugging report))) max_arguments
  && Nat.leb (runtime (bugTypes (debugging report))) max_arguments
  && Nat.leb (logical (bugTypes (debugging report))) max_arguments
  && Nat.leb (security (bugTypes (debugging report))) max_arguments.


(** ** The review route *)

Definition rejected (text : string) : Response :=
  {| status := 400; payload := ErrorBody (lit text) |}.

Definition failed (text : string) : Response :=
  {| status := 500; payload := ErrorBody (lit text) |}.

(** ** Readability *)

(** A line with text that starts neither with two spaces nor with a
    tab. *)
Definition unindented (l : jsstring) : bool :=
  nonempty (trim l)
  && negb (startsWith l (lit "  "))
  && negb (startsWith l (lit "\t")).

Definition suggests (m : string) (s : Suggestion) : bool :=
  str_eqb (suggestion_message s) (lit m).

(* ================================================================== *)
(** * Strings: basic facts *)
(* ================================================================== *)

Lemma str_eqb_refl (a : jsstring) : str_eqb a a = true.
Proof.
  induction a as [|x a IH]; simpl; [reflexivity|].
  now rewrite N.eqb_refl, IH.
Qed.

Lemma str_eqb_eq (a b : jsstring) : str_eqb a b = true <-> a = b.
Proof.
  split.
  - revert b. induction a as [|x a IH]; intros [|y b] H; simpl in H;
      try discriminate; [reflexivity|].
    apply andb_true_iff in H as [Hx Hr].
    apply N.eqb_eq in Hx. apply IH in Hr. now subst.
  - intros ->. apply str_eqb_refl.
Qed.

Lemma str_eqb_neq (a b : jsstring) : str_eqb a b = false <-> a <> b.
Proof.
  split.
  - intros H E. apply str_eqb_eq in E. congruence.
  - intros H. destruct (str_eqb a b) eqn:E; [|reflexivity].
    apply str_eqb_eq in E. contradiction.
Qed.

(* ================================================================== *)
(** * Patterns: the fuel is enough *)
(* ================================================================== *)


Lemma star_loop_ext (step : matcher) :
  local step ->
  forall fuel prev s (k k' : continuation),
    (forall p' s', List.length s' <= List.length s -> k p' s' = k' p' s') ->
    star_loop step k fuel prev s = star_loop step k' fuel prev s.
Proof.
  intros Hstep. induction fuel as [|fuel IH]; intros prev s k k' Hk;
    cbn [star_loop].
  - apply Hk. lia.
  - rewrite (Hk prev s) by lia.
    erewrite Hstep; [reflexivity|].
    intros p' s' Hle. cbv beta.
    destruct (Nat.ltb_spec (List.length s') (List.length s)); [|reflexivity].
    apply IH. intros p'' s'' Hle'. apply Hk. lia.
Qed.

Lemma rmatch_local (r : regex) : local (rmatch r).
Proof.
  induction r as [c|p|w|r1 IH1 r2 IH2|r1 IH1 r2 IH2|r1 IH1|r1 IH1| | |];
    intros prev s k k' Hk; cbn [rmatch].
  - destruct s as [|x s]; [reflexivity|].
    destruct (N.eqb x c); [|reflexivity]. apply Hk. simpl. lia.
  - destruct s as [|x s]; [reflexivity|].
    destruct (p x); [|reflexivity]. apply Hk. simpl. lia.
  - destruct (startsWith s w); [|reflexivity].
    apply Hk. rewrite length_skipn. lia.
  - apply IH1. intros p' s' Hle. apply IH2.
    intros p'' s'' Hle'. apply Hk. lia.
  - rewrite (IH1 prev s k k' Hk), (IH2 prev s k k' Hk). reflexivity.
  - now apply star_loop_ext.
  - apply IH1. intros p' s' Hle. apply star_loop_ext; [exact IH1|].
    intros p'' s'' Hle'. apply Hk. lia.
  - destruct (xorb _ _); [|reflexivity]. apply Hk. lia.
  - destruct prev; [reflexivity|]. apply Hk. lia.
  - destruct s; [|reflexivity]. apply Hk. lia.
Qed.


Lemma star_loop_strict (step : matcher) :
  local step -> strict step ->
  forall fuel prev s, star_loop step (fun _ _ => None) fuel prev s = None.
Proof.
  intros Hlocal Hstrict. induction fuel as [|fuel IH]; intros prev s;
    cbn [star_loop]; [reflexivity|].
  erewrite Hlocal; [rewrite Hstrict; reflexivity|].
  intros p' s' _. cbv beta. destruct (Nat.ltb _ _); [apply IH|reflexivity].
Qed.

Lemma rmatch_strict (r : regex) : strict (rmatch r).
Proof.
  induction r as [c|p|w|r1 IH1 r2 IH2|r1 IH1 r2 IH2|r1 IH1|r1 IH1| | |];
    intros prev s; cbn [rmatch].
  - destruct s as [|x s]; [reflexivity|]. now destruct (N.eqb x c).
  - destruct s as [|x s]; [reflexivity|]. now destruct (p x).
  - now destruct (startsWith s w).
  - erewrite rmatch_local; [apply IH1|]. intros p' s' _. apply IH2.
  - now rewrite IH1, IH2.
  - apply star_loop_strict; [apply rmatch_local|exact IH1].
  - erewrite rmatch_local; [apply IH1|]. intros p' s' _.
    apply star_loop_strict; [apply rmatch_local|exact IH1].
  - now destruct (xorb _ _).
  - now destruct prev.
  - now destruct s.
Qed.

(** More fuel than the length of the text changes nothing. *)
Lemma star_loop_fuel (r : regex) (k : continuation) :
  forall fuel fuel' prev s,
    List.length s <= fuel -> List.length s <= fuel' ->
    star_loop (rmatch r) k fuel prev s = star_loop (rmatch r) k fuel' prev s.
Proof.
  assert (Hempty : forall fuel prev,
             star_loop (rmatch r) k fuel prev [] = k prev []).
  { intros [|fuel] prev; cbn [star_loop]; [reflexivity|].
    erewrite rmatch_local; [rewrite rmatch_strict; reflexivity|].
    intros p' s' _. reflexivity. }
  induction fuel as [|fuel IH]; intros fuel' prev s Hle Hle'.
  - destruct s; [|simpl in Hle; lia]. now rewrite !Hempty.
  - destruct fuel' as [|fuel'].
    + destruct s; [|simpl in Hle'; lia]. now rewrite !Hempty.
    + cbn [star_loop]. erewrite rmatch_local; [reflexivity|].
      intros p' s' _. cbv beta.
      destruct (Nat.ltb_spec (List.length s') (List.length s)); [|reflexivity].
      apply IH; lia.
Qed.

(** The equation of the greedy star: one more round of [r] and the star
    again, or else the rest of the pattern. *)
Lemma rmatch_star_unfold (r : regex) prev s (k : continuation) :
  rmatch (Star r) prev s k
  = match rmatch r prev s
            (fun prev' s' =>
               if Nat.ltb (List.length s') (List.length s)
               then rmatch (Star r) prev' s' k else None) with
    | Some rest => Some rest
    | None => k prev s
    end.
Proof.
  cbn [rmatch]. destruct s as [|c s].
  - cbn [List.length star_loop].
    erewrite rmatch_local; [rewrite rmatch_strict; reflexivity|].
    intros p' s' _. reflexivity.
  - cbn [List.length star_loop].
    erewrite rmatch_local; [reflexivity|].
    intros p' s' _. cbv beta.
    destruct (Nat.ltb_spec (List.length s') (S (List.length s))); [|reflexivity].
    apply star_loop_fuel; lia.
Qed.


Lemma star_loop_consuming (step : matcher) :
  consuming step ->
  forall fuel prev s (k : continuation) rest,
    star_loop step k fuel prev s = Some rest ->
    exists p' m s', s = m ++ s' /\ k p' s' = Some rest.
Proof.
  intros Hstep. induction fuel as [|fuel IH]; intros prev s k rest;
    cbn [star_loop]; intros H.
  - exists prev, [], s. auto.
  - destruct (step prev s _) as [rest'|] eqn:E.
    + injection H as <-. apply Hstep in E as (p' & m & s' & -> & E).
      destruct (Nat.ltb _ _); [|discriminate].
      apply IH in E as (p'' & m' & s'' & -> & E).
      exists p'', (m ++ m'), s''. now rewrite app_assoc.
    + exists prev, [], s. auto.
Qed.

Lemma rmatch_consuming (r : regex) : consuming (rmatch r).
Proof.
  induction r as [c|p|w|r1 IH1 r2 IH2|r1 IH1 r2 IH2|r1 IH1|r1 IH1| | |];
    intros prev s k rest; cbn [rmatch]; intros H.
  - destruct s as [|x s]; [discriminate|].
    destruct (N.eqb x c); [|discriminate]. exists (Some x), [x], s. auto.
  - destruct s as [|x s]; [discriminate|].
    destruct (p x); [|discriminate]. exists (Some x), [x], s. auto.
  - destruct (startsWith s w); [|discriminate].
    exists (last_of prev w), (firstn (List.length w) s), (skipn (List.length w) s).
    now rewrite firstn_skipn.
  - apply IH1 in H as (p' & m & s' & -> & H).
    apply IH2 in H as (p'' & m' & s'' & -> & H).
    exists p'', (m ++ m'), s''. now rewrite app_assoc.
  - destruct (rmatch r1 prev s k) as [rest'|] eqn:E.
    + injection H as <-. now apply IH1 in E.
    + now apply IH2 in H.
  - now apply (star_loop_consuming _ IH1) in H.
  - apply IH1 in H as (p' & m & s' & -> & H).
    apply (star_loop_consuming _ IH1) in H as (p'' & m' & s'' & -> & H).
    exists p'', (m ++ m'), s''. now rewrite app_assoc.
  - destruct (xorb _ _); [|discriminate]. exists prev, [], s. auto.
  - destruct prev; [discriminate|]. exists None, [], s. auto.
  - destruct s; [|discriminate]. exists prev, [], []. auto.
Qed.

Lemma match_here_text (r : regex) prev s rest :
  match_here r prev s = Some rest ->
  exists m, s = m ++ rest /\ matched_text s rest = m.
Proof.
  unfold match_here. intros H.
  apply rmatch_consuming in H as (p' & m & s' & -> & [= ->]).
  exists m. split; [reflexivity|].
  unfold matched_text. rewrite length_app.
  replace (List.length m + List.length rest - List.length rest)
    with (List.length m) by lia.
  now rewrite firstn_app, Nat.sub_diag, firstn_all, app_nil_r.
Qed.

Lemma exec_text (r : regex) (s : jsstring) :
  forall prev prev0 from rest,
    exec r prev s = Some (prev0, from, rest) ->
    exists skipped m,
      s = skipped ++ from /\ from = m ++ rest /\ matched_text from rest = m.
Proof.
  induction s as [|c s IH]; intros prev prev0 from rest; cbn [exec].
  - destruct (match_here r prev []) as [rest'|] eqn:E; [|discriminate].
    intros [= <- <- <-]. apply match_here_text in E as (m & E & Hm).
    exists [], m. auto.
  - destruct (match_here r prev (c :: s)) as [rest'|] eqn:E.
    + intros [= <- <- <-]. apply match_here_text in E as (m & E & Hm).
      exists [], m. auto.
    + intros H. apply IH in H as (skipped & m & -> & Hfrom & Hm).
      exists (c :: skipped), m. auto.
Qed.

(** The rounds of a global match: with more fuel than [S (length s)] the
    matches are the same. *)
Lemma match_all_fuel (r : regex) :
  forall fuel fuel' prev s,
    List.length s < fuel -> List.length s < fuel' ->
    match_all_from fuel r prev s = match_all_from fuel' r prev s.
Proof.
  induction fuel as [|fuel IH]; intros fuel' prev s Hlt Hlt'; [lia|].
  destruct fuel' as [|fuel']; [lia|].
  cbn [match_all_from].
  destruct (exec r prev s) as [[[prev0 from] rest]|] eqn:E; [|reflexivity].
  apply exec_text in E as (skipped & m & -> & -> & ->).
  rewrite !length_app in *.
  f_equal. destruct m as [|x m].
  - destruct rest as [|c rest]; [reflexivity|].
    apply IH; simpl in *; lia.
  - apply IH; simpl in *; lia.
Qed.

Lemma match_all_enough (r : regex) (s : jsstring) (fuel : nat) :
  List.length s < fuel -> match_all_from fuel r None s = match_all r s.
Proof. intros H. unfold match_all. apply match_all_fuel; lia. Qed.

(* ================================================================== *)
(** * The checkers in closed form *)
(* ================================================================== *)

(** Reading a property of [undefined] raises; [generateFix] reads the
    three fields of a value that is never [undefined]. *)
Example reading_undefined_raises :
  get JUndefined (lit "before")
  = Throw "TypeError: Cannot read properties of undefined".
Proof. reflexivity. Qed.

Lemma truthy_not_nullish (v : jsval) : truthy v = true -> nullish v = false.
Proof. destruct v; simpl; congruence. Qed.

Lemma or_else_object_not_nullish (a : jsval) props :
  nullish (or_else a (JObject props)) = false.
Proof.
  unfold or_else. destruct (truthy a) eqn:E; [|reflexivity].
  now apply truthy_not_nullish.
Qed.

Lemma mem_spaced (k : jsstring) (names : list jsstring) :
  has_space k = true ->
  forallb (fun n => negb (has_space n)) names = true ->
  mem k names = false.
Proof.
  intros Hk Hnames. unfold mem.
  induction names as [|n names IH]; simpl in *; [reflexivity|].
  apply andb_true_iff in Hnames as [Hn Hrest].
  rewrite (IH Hrest), orb_false_r.
  apply str_eqb_neq. intros ->. rewrite Hk in Hn. discriminate.
Qed.

Lemma str_eqb_spaced (k : jsstring) (name : string) :
  has_space k = true -> has_space (lit name) = false ->
  str_eqb k (lit name) = false.
Proof.
  intros Hk Hn. apply str_eqb_neq. intros ->. congruence.
Qed.

(** A key of several words is no restricted accessor. *)
Lemma restricted_spaced (v : jsval) (k : jsstring) :
  has_space k = true -> restricted v k = false.
Proof.
  intros Hk. destruct v; try reflexivity. unfold restricted.
  rewrite (mem_spaced _ _ Hk) by reflexivity. apply andb_false_r.
Qed.

(** Each of the four types has a table of its own in the catalog. *)
Lemma typed_table (t : jsstring) :
  mem t finding_types = true -> exists props, member fixes t = JObject props.
Proof.
  intros Ht. unfold mem, finding_types in Ht. simpl in Ht.
  repeat (apply orb_true_iff in Ht as [Ht|Ht];
          [apply str_eqb_eq in Ht; subst; eexists; vm_compute; reflexivity|]).
  discriminate.
Qed.

(** [generateFix] returns when neither the read under the language nor
    the read under the message is restricted. *)
Lemma generateFix_reads (bug : Bug) (language : jsstring) :
  restricted (member fixes (bug_type bug)) language = false ->
  restricted
    (or_else (member_opt (member fixes (bug_type bug)) language)
       (member fixes (bug_type bug))) (bug_message bug) = false ->
  generateFix bug language = Ok (synthesize language bug).
Proof.
  intros Hlanguage Hmessage. unfold generateFix, synthesize.
  change (get fixes (bug_type bug)) with (Ok (member fixes (bug_type bug))).
  cbv beta iota delta [bind].
  assert (Hfirst : get_opt (member fixes (bug_type bug)) language
                   = Ok (member_opt (member fixes (bug_type bug)) language)).
  { unfold get_opt, member_opt, get.
    destruct (nullish _); [reflexivity|]. now rewrite Hlanguage. }
  rewrite Hfirst. cbv beta iota.
  set (languageFixes := or_else _ (member fixes (bug_type bug))) in *.
  assert (Hsecond : get_opt languageFixes (bug_message bug)
                    = Ok (member_opt languageFixes (bug_message bug))).
  { unfold get_opt, member_opt, get.
    destruct (nullish _); [reflexivity|]. now rewrite Hmessage. }
  rewrite Hsecond. cbv beta iota.
  set (fix_v := or_else _ (JObject _)).
  assert (Hget : forall k, mem k restricted_names = false ->
                           get fix_v k = Ok (member fix_v k)).
  { intros k Hk. unfold get.
    unfold fix_v at 1. rewrite or_else_object_not_nullish.
    unfold restricted. destruct fix_v; try reflexivity.
    now rewrite Hk, andb_false_r. }
  rewrite !Hget by reflexivity. reflexivity.
Qed.

Lemma generateFix_eq (bug : Bug) (language : jsstring) :
  engine_bug bug = true ->
  generateFix bug language = Ok (synthesize language bug).
Proof.
  unfold engine_bug. intros H.
  apply andb_true_iff in H as [H _]. apply andb_true_iff in H as [Htype Hmsg].
  apply generateFix_reads.
  - destruct (typed_table _ Htype) as [props ->]. reflexivity.
  - now apply restricted_spaced.
Qed.

Lemma push_eq errors bug language :
  engine_bug bug = true ->
  push errors bug language = Ok (errors ++ map (synthesize language) [bug]).
Proof. intros Hbug. unfold push. now rewrite generateFix_eq. Qed.

Lemma push_if_eq cond errors bug language :
  engine_bug bug = true ->
  push_if cond errors bug language
  = Ok (errors ++ map (synthesize language) (when cond bug)).
Proof.
  intros Hbug. unfold push_if, when. destruct cond.
  - now apply push_eq.
  - simpl. now rewrite app_nil_r.
Qed.

Lemma forEach_eq {A} language (g : A -> nat -> list Bug)
  (body : A -> nat -> list Finding -> result (list Finding)) :
  (forall x i st, body x i st = Ok (st ++ map (synthesize language) (g x i))) ->
  forall xs i st,
    forEach xs i body st = Ok (st ++ map (synthesize language) (each xs i g)).
Proof.
  intros Hbody. induction xs as [|x xs IH]; intros i st; simpl.
  - now rewrite app_nil_r.
  - rewrite Hbody. simpl. rewrite IH, map_app, app_assoc. reflexivity.
Qed.

Lemma rmatch_star_total (r : regex) k :
  (forall p s, k p s <> None) ->
  forall prev s, rmatch (Star r) prev s k <> None.
Proof.
  intros Hk prev s. cbn [rmatch].
  generalize (List.length s) as fuel. intros fuel. revert prev s.
  induction fuel as [|fuel IH]; intros prev s; cbn [star_loop].
  - apply Hk.
  - destruct (rmatch r prev s _); [discriminate|apply Hk].
Qed.

Lemma match_first_indent (line : jsstring) :
  exists m0, match_first re_indent line = Some m0.
Proof.
  unfold match_first.
  assert (H : match_here re_indent None line <> None).
  { unfold match_here, re_indent.
    change (rmatch (Star (Cls is_space)) None line (fun _ rest => Some rest) <> None).
    apply rmatch_star_total. discriminate. }
  destruct line as [|c line]; simpl exec;
    destruct (match_here re_indent None _); try contradiction; eauto.
Qed.

Ltac closed_loop :=
  erewrite forEach_eq;
  [ cbv beta iota delta [bind]
  | intros; first [ apply push_if_eq | apply push_eq ]; reflexivity ].

Ltac closed_push :=
  rewrite push_if_eq by reflexivity; cbv beta iota delta [bind].

Lemma checkSyntaxErrors_eq (code language : jsstring) :
  checkSyntaxErrors code language
  = Ok (map (synthesize language) (syntax_bugs code language)).
Proof.
  unfold checkSyntaxErrors, syntax_bugs.
  destruct (str_eqb language (lit "javascript")).
  { closed_loop. closed_push. closed_loop. closed_loop.
    unfold javascript_syntax_bugs. rewrite !map_app, !app_assoc. reflexivity. }
  destruct (str_eqb language (lit "python")).
  { erewrite forEach_eq with
      (g := fun line index =>
              when (negb (Nat.eqb (indentOf line mod 4) 0)) (indentation_bug index)).
    2:{ intros line i st. unfold indentOf.
        destruct (match_first_indent line) as [m0 ->].
        now apply push_if_eq. }
    cbv beta iota delta [bind].
    erewrite forEach_eq with
      (g := fun line index =>
              each controlStructures 0 (fun structure _ =>
                when (startsWith (trim line) structure
                      && negb (endsWith (trim line) (lit ":")))
                  (missing_colon_bug structure index))).
    2:{ intros line i st. erewrite forEach_eq; [reflexivity|].
        intros. now apply push_if_eq. }
    cbv beta iota delta [bind].
    closed_loop.
    unfold python_syntax_bugs. rewrite !map_app, !app_assoc. reflexivity. }
  destruct (str_eqb language (lit "java")).
  { closed_loop. closed_push. closed_push.
    unfold java_syntax_bugs. rewrite !map_app, !app_assoc. reflexivity. }
  destruct (str_eqb language (lit "cpp")).
  { closed_loop. closed_push. closed_push.
    unfold cpp_syntax_bugs. rewrite !map_app, !app_assoc. reflexivity. }
  reflexivity.
Qed.

Lemma checkRuntimeErrors_eq (code language : jsstring) :
  checkRuntimeErrors code language
  = Ok (map (synthesize language) (runtime_bugs code language)).
Proof.
  unfold checkRuntimeErrors, runtime_bugs.
  destruct (str_eqb language (lit "javascript")).
  { closed_loop. reflexivity. }
  destruct (str_eqb language (lit "python")). { closed_push. reflexivity. }
  destruct (str_eqb language (lit "java")). { closed_push. reflexivity. }
  destruct (str_eqb language (lit "cpp")). { closed_push. reflexivity. }
  reflexivity.
Qed.

Lemma checkLogicalErrors_eq (code language : jsstring) :
  checkLogicalErrors code language
  = Ok (map (synthesize language) (logical_bugs code)).
Proof.
  unfold checkLogicalErrors, logical_bugs.
  closed_push. closed_push. now rewrite map_app.
Qed.

Lemma checkSecurityIssues_eq (code language : jsstring) :
  checkSecurityIssues code language
  = Ok (map (synthesize language) (security_bugs code)).
Proof.
  unfold checkSecurityIssues, security_bugs.
  closed_push. closed_push. now rewrite map_app.
Qed.

Lemma analyzePotentialBugs_eq (code language : jsstring) :
  analyzePotentialBugs code language
  = Ok (map (synthesize language) (all_bugs code language)).
Proof.
  unfold analyzePotentialBugs, all_bugs.
  rewrite checkSyntaxErrors_eq, checkRuntimeErrors_eq,
    checkLogicalErrors_eq, checkSecurityIssues_eq.
  cbv beta iota delta [bind]. now rewrite !map_app, !app_assoc.
Qed.

Lemma generateBestPractices_eq (language : jsstring) :
  generateBestPractices language = Ok (best_practices language).
Proof.
  unfold generateBestPractices, best_practices, or_else.
  change (get practices language) with (Ok (member practices language)).
  cbv beta iota delta [bind].
  destruct (truthy (member practices language)); reflexivity.
Qed.

Lemma split_lines_length (s : jsstring) : 1 <= List.length (split_lines s).
Proof.
  induction s as [|c s IH]; simpl; [lia|].
  destruct (N.eqb c 10); simpl; [lia|].
  destruct (split_lines s); simpl in *; lia.
Qed.

(** The report of [analyzeCode], field by field. *)
Lemma analyzeCode_ok (code language : jsstring) :
  exists report,
    analyzeCode code language = Ok report
    /\ bugs (debugging report) = map (synthesize language) (all_bugs code language)
    /\ bugCount (debugging report) = List.length (bugs (debugging report))
    /\ bugTypes (debugging report)
       = {| syntax := List.length (filter (of_type "syntax") (bugs (debugging report)));
            runtime := List.length (filter (of_type "runtime") (bugs (debugging report)));
            logical := List.length (filter (of_type "logical") (bugs (debugging report)));
            security := List.length (filter (of_type "security") (bugs (debugging report))) |}
    /\ bestPractices report = best_practices language
    /\ totalLines (codeAnalysis report) = List.length (split_lines code)
    /\ complexity (codeAnalysis report) = calculateComplexity code language
    /\ codeToCommentRatio (codeAnalysis report)
       = num_scale (num_div (commentLines (codeAnalysis report))
                            (totalLines (codeAnalysis report))) 100%Q.
Proof.
  unfold analyzeCode.
  rewrite generateBestPractices_eq, analyzePotentialBugs_eq.
  cbv beta iota delta [bind].
  eexists. split; [reflexivity|]. simpl. repeat split; reflexivity.
Qed.

(** With room for every call, the entry point returns a Report for every
    code and language, and the comment ratio of the Report is a finite
    number; for the empty source the text is one empty line and the
    ratio is zero. *)
Lemma analyzeCode_returns :
  (forall code language,
      exists report,
        analyzeCode code language = Ok report
        /\ exists q, codeToCommentRatio (codeAnalysis report) = Finite q)
  /\ (forall language,
         exists report,
           analyzeCode [] language = Ok report
           /\ totalLines (codeAnalysis report) = 1
           /\ codeToCommentRatio (codeAnalysis report) = Finite 0%Q).
Proof.
  split.
  - intros code language.
    destruct (analyzeCode_ok code language)
      as (report & Hok & _ & _ & _ & _ & Hlines & _ & Hratio).
    exists report. split; [exact Hok|].
    rewrite Hratio, Hlines.
    pose proof (split_lines_length code) as Hlen.
    destruct (List.length (split_lines code)) as [|n]; [lia|].
    simpl. eauto.
  - intros language. unfold analyzeCode.
    rewrite generateBestPractices_eq, analyzePotentialBugs_eq.
    cbv beta iota delta [bind].
    eexists. split; [reflexivity|]. split; reflexivity.
Qed.

(* ================================================================== *)
(** * The bugs that the checkers write *)
(* ================================================================== *)

Lemma Forall_when (P : Bug -> Prop) cond bug :
  P bug -> Forall P (when cond bug).
Proof. intros H. unfold when. destruct cond; auto. Qed.

Lemma Forall_each {A} (P : Bug -> Prop) (g : A -> nat -> list Bug) :
  (forall x i, Forall P (g x i)) ->
  forall xs i, Forall P (each xs i g).
Proof.
  intros Hg. induction xs as [|x xs IH]; intros i; simpl; [constructor|].
  apply Forall_app. split; [apply Hg|apply IH].
Qed.

Ltac bug_pieces :=
  repeat (apply Forall_app; split);
  repeat first
    [ apply Forall_each; intros
    | apply Forall_when
    | apply Forall_cons
    | apply Forall_nil ];
  try reflexivity.

Lemma syntax_bugs_engine code language :
  Forall (fun b => engine_bug b = true) (syntax_bugs code language).
Proof.
  unfold syntax_bugs.
  destruct (str_eqb language (lit "javascript")).
  { unfold javascript_syntax_bugs. bug_pieces. }
  destruct (str_eqb language (lit "python")).
  { unfold python_syntax_bugs. bug_pieces. }
  destruct (str_eqb language (lit "java")).
  { unfold java_syntax_bugs. bug_pieces. }
  destruct (str_eqb language (lit "cpp")).
  { unfold cpp_syntax_bugs. bug_pieces. }
  constructor.
Qed.

Lemma runtime_bugs_engine code language :
  Forall (fun b => engine_bug b = true) (runtime_bugs code language).
Proof.
  unfold runtime_bugs.
  repeat (destruct (str_eqb language _); [bug_pieces|]).
  constructor.
Qed.

Lemma all_bugs_engine code language :
  Forall (fun b => engine_bug b = true) (all_bugs code language).
Proof.
  unfold all_bugs.
  apply Forall_app; split; [apply syntax_bugs_engine|].
  apply Forall_app; split; [apply runtime_bugs_engine|].
  apply Forall_app; split.
  - unfold logical_bugs. bug_pieces.
  - unfold security_bugs. bug_pieces.
Qed.

(* ================================================================== *)
(** * The Fix Synthesizer *)
(* ================================================================== *)

Lemma inherited_spaced (k : jsstring) :
  has_space k = true -> inherited k = JUndefined.
Proof.
  intros Hk. unfold inherited.
  rewrite !(str_eqb_spaced _ _ Hk) by reflexivity.
  rewrite (mem_spaced _ _ Hk) by reflexivity. reflexivity.
Qed.

Lemma builtin_member_spaced (name k : jsstring) :
  has_space k = true -> builtin_member name k = JUndefined.
Proof.
  intros Hk. unfold builtin_member.
  rewrite (inherited_spaced _ Hk).
  rewrite !(str_eqb_spaced _ _ Hk) by reflexivity.
  rewrite !(mem_spaced _ _ Hk) by reflexivity.
  rewrite andb_false_r. simpl.
  destruct (str_eqb name _); reflexivity.
Qed.

Lemma inherited_cases (k : jsstring) :
  inherited k = JUndefined \/ exists name, inherited k = JBuiltin name.
Proof.
  unfold inherited.
  repeat match goal with |- context [if ?c then _ else _] => destruct c end;
    eauto.
Qed.

Lemma assoc_in {A} (k : jsstring) (props : list (jsstring * A)) (x : A) :
  assoc k props = Some x -> In (k, x) props.
Proof.
  induction props as [|[k' v] props IH]; simpl; [discriminate|].
  destruct (str_eqb k k') eqn:E.
  - intros [= ->]. apply str_eqb_eq in E. subst. now left.
  - intros H. right. now apply IH.
Qed.

(** Reading a safe table under a message gives nothing or a complete
    Fix. *)
Lemma table_ok_lookup (v : jsval) (m : jsstring) :
  table_ok v = true -> has_space m = true ->
  member_opt v m = JUndefined \/ good_fix (member_opt v m) = true.
Proof.
  intros Hv Hm. destruct v as [| |s|n|items|props|name]; simpl in Hv;
    try discriminate; try (left; reflexivity).
  - unfold member_opt. simpl nullish. cbv iota. unfold member.
    destruct (assoc m props) as [x|] eqn:E.
    + right. apply assoc_in in E.
      rewrite forallb_forall in Hv. specialize (Hv _ E).
      unfold entry_ok in Hv. simpl in Hv. rewrite Hm in Hv. exact Hv.
    + left. now apply inherited_spaced.
  - left. unfold member_opt. simpl. now apply builtin_member_spaced.
Qed.

(** The table that a language selects is safe, when each table that the
    type holds is. *)
Lemma language_lookup props (language : jsstring) :
  forallb (fun kv => table_ok (or_else (snd kv) (JObject props))) props = true ->
  table_ok (JObject props) = true ->
  table_ok (or_else (member_opt (JObject props) language) (JObject props)) = true.
Proof.
  intros Hall Hself. unfold member_opt. simpl nullish. cbv iota. unfold member.
  destruct (assoc language props) as [x|] eqn:E.
  - apply assoc_in in E. rewrite forallb_forall in Hall.
    exact (Hall _ E).
  - destruct (inherited_cases language) as [-> | [name ->]].
    + exact Hself.
    + reflexivity.
Qed.

Lemma nonempty_stringb_spec (v : jsval) :
  nonempty_stringb v = true -> nonempty_string v.
Proof.
  destruct v as [| |[|c s]|n|items|props|name]; simpl; try discriminate.
  intros _. exists (c :: s). split; [reflexivity|discriminate].
Qed.

Lemma good_fix_complete (v : jsval) :
  good_fix v = true ->
  complete_fix {| before := member v (lit "before");
                  after := member v (lit "after");
                  explanation := member v (lit "explanation") |}.
Proof.
  unfold good_fix, complete_fix. intros H.
  apply andb_true_iff in H as [H He]. apply andb_true_iff in H as [Hb Ha].
  simpl. auto using nonempty_stringb_spec.
Qed.

Lemma by_type_safe (t language : jsstring) :
  mem t finding_types = true ->
  table_ok (or_else (member_opt (member fixes t) language) (member fixes t)) = true.
Proof.
  intros Ht.
  assert (Hcases : t = lit "syntax" \/ t = lit "runtime"
                   \/ t = lit "logical" \/ t = lit "security").
  { unfold mem, finding_types in Ht. simpl in Ht.
    repeat (apply orb_true_iff in Ht as [Ht|Ht];
            [apply str_eqb_eq in Ht; auto|]).
    discriminate. }
  destruct Hcases as [-> | [-> | [-> | ->]]].
  all: match goal with
       | |- context [member fixes ?t] =>
           let props := eval vm_compute in
               (match member fixes t with JObject p => p | _ => [] end) in
           change (member fixes t) with (JObject props)
       end.
  all: apply language_lookup; vm_compute; reflexivity.
Qed.

(** The fallback guarantee: every bug that a checker writes gets a
    complete Fix, from the catalog or from its own advice text. *)
Lemma synthesize_complete (language : jsstring) (bug : Bug) :
  engine_bug bug = true -> complete_fix (fix_ (synthesize language bug)).
Proof.
  unfold engine_bug. intros H.
  apply andb_true_iff in H as [H Hfix]. apply andb_true_iff in H as [Htype Hmsg].
  unfold synthesize. cbv beta iota zeta delta [fix_].
  pose proof (by_type_safe (bug_type bug) language Htype) as Hsafe.
  set (languageFixes := or_else _ (member fixes (bug_type bug))) in *.
  assert (Hfallback :
    good_fix (JObject [ (lit "before", JString (lit "Original code"));
                        (lit "after", JString (bug_fix bug));
                        (lit "explanation", JString (bug_fix bug)) ]) = true).
  { destruct (bug_fix bug); [discriminate|reflexivity]. }
  apply good_fix_complete.
  destruct (table_ok_lookup languageFixes (bug_message bug) Hsafe Hmsg)
    as [-> | Hgood].
  - exact Hfallback.
  - unfold or_else. destruct (truthy _); assumption.
Qed.

Lemma synthesized_complete (language : jsstring) (found : list Bug) :
  Forall (fun b => engine_bug b = true) found ->
  Forall (fun f => complete_fix (fix_ f)) (map (synthesize language) found).
Proof.
  intros H. apply Forall_map. revert H. apply Forall_impl.
  intros bug. apply synthesize_complete.
Qed.

(** C1: every Finding of every Report carries a Fix whose before, after
    and explanation are non-empty strings, with or without an entry of
    the catalog for it. *)
Theorem findings_carry_complete_fix (code language : jsstring) :
  exists report,
    analyzeCode code language = Ok report
    /\ Forall (fun f => complete_fix (fix_ f)) (bugs (debugging report)).
Proof.
  destruct (analyzeCode_ok code language) as (report & Hok & Hbugs & _).
  exists report. split; [exact Hok|].
  rewrite Hbugs. apply synthesized_complete, all_bugs_engine.
Qed.

(** The unreachable-code message is no key of the catalog: its Fix is
    the fallback, built from the advice text of the bug. *)
Example fallback_fix_of_unreachable_code :
  fix_ (synthesize (lit "javascript") (unreachable_bug (lit "return;return")))
  = {| before := JString (lit "Original code");
       after := JString (lit "Remove code after return statement or restructure logic");
       explanation := JString (lit "Remove code after return statement or restructure logic") |}.
Proof. vm_compute. reflexivity. Qed.

(* ================================================================== *)
(** * Counting the Findings by type *)
(* ================================================================== *)

Lemma type_cases (t : jsstring) :
  mem t finding_types = true ->
  t = lit "syntax" \/ t = lit "runtime" \/ t = lit "logical" \/ t = lit "security".
Proof.
  unfold mem, finding_types. simpl. intros Ht.
  repeat (apply orb_true_iff in Ht as [Ht|Ht];
          [apply str_eqb_eq in Ht; auto|]).
  discriminate.
Qed.

Lemma count_by_type (found : list Finding) :
  Forall (fun f => mem (type f) finding_types = true) found ->
  List.length (filter (of_type "syntax") found)
  + List.length (filter (of_type "runtime") found)
  + List.length (filter (of_type "logical") found)
  + List.length (filter (of_type "security") found)
  = List.length found.
Proof.
  induction 1 as [|f found Hf _ IH]; [reflexivity|].
  cbn [filter]. unfold of_type in *.
  destruct (type_cases _ Hf) as [E | [E | [E | E]]];
    rewrite E; simpl in *; lia.
Qed.

Lemma synthesized_types (language : jsstring) (found : list Bug) :
  Forall (fun b => engine_bug b = true) found ->
  Forall (fun f => mem (type f) finding_types = true)
    (map (synthesize language) found).
Proof.
  intros H. apply Forall_map. revert H. apply Forall_impl.
  intros bug Hbug. unfold engine_bug in Hbug.
  apply andb_true_iff in Hbug as [Hbug _].
  apply andb_true_iff in Hbug as [Hbug _]. exact Hbug.
Qed.

(** C10: in every Report the bug count is the length of the list of
    bugs, every Finding has one of the four types, and the four counters
    add up to the bug count. *)
Theorem bug_counts_add_up (code language : jsstring) :
  exists report,
    analyzeCode code language = Ok report
    /\ bugCount (debugging report) = List.length (bugs (debugging report))
    /\ Forall (fun f => In (type f) finding_types) (bugs (debugging report))
    /\ syntax (bugTypes (debugging report))
       + runtime (bugTypes (debugging report))
       + logical (bugTypes (debugging report))
       + security (bugTypes (debugging report))
       = bugCount (debugging report).
Proof.
  destruct (analyzeCode_ok code language)
    as (report & Hok & Hbugs & Hcount & Htypes & _).
  exists report. split; [exact Hok|]. split; [exact Hcount|].
  assert (Hall : Forall (fun f => mem (type f) finding_types = true)
                   (bugs (debugging report))).
  { rewrite Hbugs. apply synthesized_types, all_bugs_engine. }
  split.
  - revert Hall. apply Forall_impl. intros f Hf.
    destruct (type_cases _ Hf) as [-> | [-> | [-> | ->]]];
      unfold finding_types; simpl; auto.
  - rewrite Htypes, Hcount. simpl. now apply count_by_type.
Qed.

(* ================================================================== *)
(** * Languages without rules *)
(* ================================================================== *)

Lemma unsupported_language (language : jsstring) :
  mem language supported_languages = false ->
  str_eqb language (lit "javascript") = false
  /\ str_eqb language (lit "python") = false
  /\ str_eqb language (lit "java") = false
  /\ str_eqb language (lit "cpp") = false.
Proof.
  unfold mem, supported_languages. simpl. intros H.
  repeat (apply orb_false_iff in H as [? H]). auto.
Qed.

Lemma filter_none {A} (p : A -> bool) (xs : list A) :
  Forall (fun x => p x = false) xs -> List.length (filter p xs) = 0.
Proof.
  induction 1 as [|x xs Hx _ IH]; [reflexivity|].
  cbn [filter]. rewrite Hx. exact IH.
Qed.

Lemma all_bugs_unsupported (code language : jsstring) :
  mem language supported_languages = false ->
  all_bugs code language = logical_bugs code ++ security_bugs code.
Proof.
  intros H. destruct (unsupported_language _ H) as (H1 & H2 & H3 & H4).
  unfold all_bugs, syntax_bugs, runtime_bugs.
  rewrite H1, H2, H3, H4. reflexivity.
Qed.

(** C4: for a language outside javascript, python, java and cpp no rule
    of the syntax and runtime checkers runs: the bugs of the Report are
    those of the logical and security checkers, none has the type syntax
    or runtime, and both counters are zero. *)
Theorem unsupported_language_no_specific_findings (code language : jsstring) :
  mem language supported_languages = false ->
  exists report,
    analyzeCode code language = Ok report
    /\ bugs (debugging report)
       = map (synthesize language) (logical_bugs code ++ security_bugs code)
    /\ Forall (fun f => type f <> lit "syntax" /\ type f <> lit "runtime")
         (bugs (debugging report))
    /\ syntax (bugTypes (debugging report)) = 0
    /\ runtime (bugTypes (debugging report)) = 0.
Proof.
  intros Hlang.
  destruct (analyzeCode_ok code language)
    as (report & Hok & Hbugs & _ & Htypes & _).
  exists report. split; [exact Hok|].
  rewrite (all_bugs_unsupported code language Hlang) in Hbugs.
  split; [exact Hbugs|].
  assert (Hall : Forall (fun f => of_type "syntax" f = false
                                  /\ of_type "runtime" f = false)
                   (bugs (debugging report))).
  { rewrite Hbugs. apply Forall_map.
    apply Forall_app. split.
    - unfold logical_bugs. bug_pieces; split; reflexivity.
    - unfold security_bugs. bug_pieces; split; reflexivity. }
  split.
  - revert Hall. apply Forall_impl. intros f [Hs Hr].
    unfold of_type in *. split; intros E; rewrite E in *; discriminate.
  - rewrite Htypes. simpl.
    split; apply filter_none; revert Hall; apply Forall_impl;
      intros f [Hs Hr]; assumption.
Qed.

Lemma unsupported_language_witness :
  mem (lit "ruby") supported_languages = false
  /\ exists report,
       analyzeCode (lit "while(true) { return SELECT }") (lit "ruby") = Ok report
       /\ bugs (debugging report)
          = map (synthesize (lit "ruby"))
              (logical_bugs (lit "while(true) { return SELECT }")
               ++ security_bugs (lit "while(true) { return SELECT }"))
       /\ Forall (fun f => type f <> lit "syntax" /\ type f <> lit "runtime")
            (bugs (debugging report))
       /\ syntax (bugTypes (debugging report)) = 0
       /\ runtime (bugTypes (debugging report)) = 0.
Proof.
  split; [reflexivity|].
  apply (unsupported_language_no_specific_findings
           (lit "while(true) { return SELECT }") (lit "ruby")).
  reflexivity.
Defined.

(* ================================================================== *)
(** * Patterns: where a match can start *)
(* ================================================================== *)

Lemma exec_none (r : regex) (s : jsstring) :
  (forall pre prev s', s = pre ++ s' -> match_here r prev s' = None) ->
  forall prev, exec r prev s = None.
Proof.
  induction s as [|c s IH]; intros H prev; simpl.
  - now rewrite (H [] prev []).
  - rewrite (H [] prev (c :: s)) by reflexivity.
    apply IH. intros pre prev' s' ->. now apply (H (c :: pre)).
Qed.

Lemma match_all_none (r : regex) (s : jsstring) :
  (forall pre prev s', s = pre ++ s' -> match_here r prev s' = None) ->
  match_all r s = [].
Proof.
  intros H. unfold match_all. cbn [match_all_from].
  now rewrite exec_none.
Qed.

Lemma includes_unfold (s w : jsstring) :
  includes s w
  = startsWith s w || match s with [] => false | _ :: s' => includes s' w end.
Proof. destruct s; reflexivity. Qed.

Lemma includes_app (pre s w : jsstring) :
  startsWith s w = true -> includes (pre ++ s) w = true.
Proof.
  intros H. induction pre as [|c pre IH].
  - rewrite app_nil_l, includes_unfold, H. reflexivity.
  - rewrite <- app_comm_cons, includes_unfold, IH. apply orb_true_r.
Qed.

Lemma count_char_app (c : N) (a b : jsstring) :
  count_char c (a ++ b) = count_char c a + count_char c b.
Proof. unfold count_char. now rewrite filter_app, length_app. Qed.

Lemma match_here_chr (c : N) prev s rest :
  match_here (Chr c) prev s = Some rest -> s = c :: rest.
Proof.
  unfold match_here. simpl. destruct s as [|x s]; [discriminate|].
  destruct (N.eqb x c) eqn:E; [|discriminate].
  apply N.eqb_eq in E. now intros [= ->]; subst.
Qed.

Lemma match_here_seq_chr (c : N) (r : regex) prev s rest :
  match_here (Seq (Chr c) r) prev s = Some rest -> exists t, s = c :: t.
Proof.
  unfold match_here. simpl. destruct s as [|x s]; [discriminate|].
  destruct (N.eqb x c) eqn:E; [|discriminate].
  apply N.eqb_eq in E. subst. eauto.
Qed.

Lemma no_char_no_match (c : N) (r : regex) (s : jsstring) :
  count_char c s = 0 ->
  (forall prev s' rest, match_here r prev s' = Some rest -> exists t, s' = c :: t) ->
  match_all r s = [].
Proof.
  intros Hcount Hstart. apply match_all_none.
  intros pre prev s' -> .
  destruct (match_here r prev s') as [rest|] eqn:E; [|reflexivity].
  destruct (Hstart _ _ _ E) as [t ->].
  rewrite count_char_app in Hcount. unfold count_char in Hcount.
  simpl in Hcount. rewrite N.eqb_refl in Hcount. simpl in Hcount. lia.
Qed.

Lemma match_here_control prev s rest :
  match_here re_control prev s = Some rest ->
  existsb (startsWith s) control_keywords = true.
Proof.
  unfold match_here, re_control, control_keywords.
  cbn [rmatch map existsb].
  repeat match goal with
         | |- context [startsWith s ?w] => destruct (startsWith s w); cbn [orb]
         end; try reflexivity; discriminate.
Qed.

Lemma no_keyword_no_match (code : jsstring) :
  forallb (fun kw => negb (includes code kw)) control_keywords = true ->
  match_all re_control code = [].
Proof.
  intros Hno. apply match_all_none. intros pre prev s' ->.
  destruct (match_here re_control prev s') as [rest|] eqn:E; [|reflexivity].
  apply match_here_control in E. apply existsb_exists in E as (kw & Hin & Hkw).
  rewrite forallb_forall in Hno. specialize (Hno kw Hin).
  now rewrite (includes_app pre s' kw Hkw) in Hno.
Qed.

(* ================================================================== *)
(** * The complexity metric *)
(* ================================================================== *)

Lemma complexity_level_monotone (n m : nat) :
  n <= m -> level_rank (complexity_level n) <= level_rank (complexity_level m).
Proof.
  intros H. unfold complexity_level.
  destruct (Nat.ltb_spec 20 n), (Nat.ltb_spec 10 n),
    (Nat.ltb_spec 20 m), (Nat.ltb_spec 10 m); simpl; lia.
Qed.

(** C8: the complexity level does not go down when the sum of the three
    counts goes up; a text with none of the control keywords, no opening
    brace and no opening parenthesis has the level Low, on one line or
    on several. *)
Theorem complexity_monotone_and_low (code code' language language' : jsstring) :
  (complexity_score code <= complexity_score code' ->
   level_rank (calculateComplexity code language)
   <= level_rank (calculateComplexity code' language'))
  /\ (forallb (fun kw => negb (includes code kw)) control_keywords = true ->
      count_char (chr "{") code = 0 ->
      count_char (chr "(") code = 0 ->
      complexity_score code = 0
      /\ calculateComplexity code language = Low).
Proof.
  split.
  - intros H. unfold calculateComplexity. now apply complexity_level_monotone.
  - intros Hkw Hbrace Hparen.
    assert (Hscore : complexity_score code = 0).
    { unfold complexity_score.
      rewrite (no_keyword_no_match code Hkw).
      rewrite (no_char_no_match (chr "{") re_open code Hbrace).
      2:{ intros prev s' rest E. apply match_here_chr in E. eauto. }
      rewrite (no_char_no_match (chr "(") re_parens code Hparen).
      2:{ intros prev s' rest E. unfold re_parens in E.
          unfold match_here in E. cbn [rmatch] in E.
          destruct s' as [|x s']; [discriminate|].
          destruct (N.eqb x (chr "(")) eqn:Ex; [|discriminate].
          apply N.eqb_eq in Ex. subst. eauto. }
      reflexivity. }
    split; [exact Hscore|].
    unfold calculateComplexity. now rewrite Hscore.
Qed.

Lemma complexity_monotone_and_low_witness :
  (complexity_score (lit "total = price + tax")
   <= complexity_score (lit "if (a) { b() } else { c() }") /\
   level_rank (calculateComplexity (lit "total = price + tax") (lit "javascript"))
   <= level_rank (calculateComplexity (lit "if (a) { b() } else { c() }")
                    (lit "python")))
  /\ (forallb (fun kw => negb (includes (lit "total = price + tax") kw))
        control_keywords = true
      /\ count_char (chr "{") (lit "total = price + tax") = 0
      /\ count_char (chr "(") (lit "total = price + tax") = 0
      /\ complexity_score (lit "total = price + tax") = 0
      /\ calculateComplexity (lit "total = price + tax") (lit "javascript") = Low).
Proof.
  destruct (complexity_monotone_and_low
              (lit "total = price + tax") (lit "if (a) { b() } else { c() }")
              (lit "javascript") (lit "python")) as [Hmono Hlow].
  split.
  - assert (H : complexity_score (lit "total = price + tax")
                <= complexity_score (lit "if (a) { b() } else { c() }")).
    { vm_compute. lia. }
    split; [exact H|exact (Hmono H)].
  - repeat split; try reflexivity; apply Hlow; reflexivity.
Defined.

(* ================================================================== *)
(** * Unmatched braces *)
(* ================================================================== *)

Lemma exec_chr_skip (c x : N) prev s :
  N.eqb x c = false -> exec (Chr c) prev (x :: s) = exec (Chr c) (Some x) s.
Proof.
  intros E. cbn [exec]. unfold match_here at 1. cbn [rmatch]. now rewrite E.
Qed.

Lemma exec_chr_hit (c : N) prev s :
  exec (Chr c) prev (c :: s) = Some (prev, c :: s, s).
Proof.
  cbn [exec]. unfold match_here at 1. cbn [rmatch]. now rewrite N.eqb_refl.
Qed.

Lemma matched_text_one (c : N) (s : jsstring) : matched_text (c :: s) s = [c].
Proof.
  unfold matched_text. cbn [List.length].
  replace (S (List.length s) - List.length s) with 1 by lia. reflexivity.
Qed.

Lemma match_all_chr_from (c : N) (s : jsstring) :
  forall fuel prev,
    List.length s < fuel ->
    List.length (match_all_from fuel (Chr c) prev s) = count_char c s.
Proof.
  induction s as [|x s IH]; intros fuel prev Hfuel.
  - destruct fuel; reflexivity.
  - destruct fuel as [|fuel]; [simpl in Hfuel; lia|].
    simpl in Hfuel. unfold count_char. cbn [filter].
    destruct (N.eqb c x) eqn:E.
    + apply N.eqb_eq in E. subst x.
      cbn [match_all_from]. rewrite exec_chr_hit, matched_text_one.
      cbn [List.length]. f_equal. apply IH. lia.
    + assert (E' : N.eqb x c = false) by (now rewrite N.eqb_sym).
      cbn [match_all_from]. rewrite (exec_chr_skip c x prev s E').
      specialize (IH (S fuel) (Some x)). cbn [match_all_from] in IH.
      apply IH. lia.
Qed.

Lemma match_all_chr (c : N) (s : jsstring) :
  List.length (match_all (Chr c) s) = count_char c s.
Proof. unfold match_all. apply match_all_chr_from. lia. Qed.

Lemma filter_when (p : Bug -> bool) cond bug :
  filter p (when cond bug) = when (cond && p bug) bug.
Proof. unfold when. destruct cond; simpl; [destruct (p bug)|]; reflexivity. Qed.

Lemma filter_each_none {A} (p : Bug -> bool) (g : A -> nat -> list Bug) :
  (forall x i, filter p (g x i) = []) ->
  forall xs i, filter p (each xs i g) = [].
Proof.
  intros Hg. induction xs as [|x xs IH]; intros i; simpl; [reflexivity|].
  now rewrite filter_app, Hg, IH.
Qed.

Lemma filter_synthesized (m : string) language (found : list Bug) :
  filter (has_message m) (map (synthesize language) found)
  = map (synthesize language) (filter (bug_has_message m) found).
Proof.
  induction found as [|b found IH]; [reflexivity|].
  cbn [map filter]. rewrite IH.
  change (has_message m (synthesize language b)) with (bug_has_message m b).
  destruct (bug_has_message m b); reflexivity.
Qed.

Lemma javascript_runtime_bugs (code : jsstring) :
  runtime_bugs code (lit "javascript")
  = each (match_all re_identifier code) 0 (fun varName _ =>
      when (negb (existsb (fun v => includes v varName)
                    (match_all re_declaration code)))
        (undefined_variable_bug code varName)).
Proof. reflexivity. Qed.

Lemma javascript_unmatched (code : jsstring) :
  filter (bug_has_message "Unmatched curly braces") (all_bugs code (lit "javascript"))
  = when (negb (Nat.eqb (count_char (chr "{") code) (count_char (chr "}") code)))
      unmatched_braces_bug.
Proof.
  unfold all_bugs. rewrite javascript_runtime_bugs.
  change (syntax_bugs code (lit "javascript")) with (javascript_syntax_bugs code).
  unfold javascript_syntax_bugs, logical_bugs, security_bugs.
  rewrite <- !match_all_chr. fold re_open re_close.
  rewrite !filter_app.
  rewrite !filter_each_none
    by (intros; first [ reflexivity | rewrite filter_when, andb_false_r; reflexivity ]).
  rewrite !filter_when.
  change (bug_has_message "Unmatched curly braces" unmatched_braces_bug) with true.
  rewrite andb_true_r.
  repeat match goal with
         | |- context [when (?c && false) ?b] =>
             replace (when (c && false) b) with (@nil Bug)
               by (now rewrite andb_false_r)
         | |- context [when (?c && bug_has_message ?m ?b) ?b] =>
             change (bug_has_message m b) with false
         end.
  cbn [app]. rewrite !app_nil_r. reflexivity.
Qed.

Lemma other_language_unmatched (code language : jsstring) :
  str_eqb language (lit "javascript") = false ->
  filter (bug_has_message "Unmatched curly braces") (all_bugs code language) = [].
Proof.
  intros Hjs. unfold all_bugs, syntax_bugs, runtime_bugs. rewrite Hjs.
  unfold python_syntax_bugs, java_syntax_bugs, cpp_syntax_bugs,
    logical_bugs, security_bugs.
  repeat match goal with
         | |- context [if str_eqb language ?l then _ else _] =>
             destruct (str_eqb language l)
         end;
    rewrite ?filter_app;
    rewrite ?filter_each_none
      by (intros;
          first [ reflexivity
                | rewrite filter_when, andb_false_r; reflexivity
                | apply filter_each_none; intros;
                  rewrite filter_when, andb_false_r; reflexivity ]);
    rewrite ?filter_when, ?andb_false_r; reflexivity.
Qed.

(** C2, as the code has it: the brace rule belongs to the javascript
    branch of the syntax checker.  For javascript, counts of opening and
    closing braces that differ give one Finding with the message, of
    type syntax, whose line is the text 'Multiple lines'; for every
    other language no Finding has the message. *)
Theorem javascript_unmatched_braces (code : jsstring) :
  count_char (chr "{") code <> count_char (chr "}") code ->
  (exists report f,
      analyzeCode code (lit "javascript") = Ok report
      /\ filter (has_message "Unmatched curly braces") (bugs (debugging report)) = [f]
      /\ type f = lit "syntax"
      /\ line f = LineText (lit "Multiple lines"))
  /\ (forall language,
         language <> lit "javascript" ->
         exists report,
           analyzeCode code language = Ok report
           /\ filter (has_message "Unmatched curly braces")
                (bugs (debugging report)) = []).
Proof.
  intros Hcount. split.
  - destruct (analyzeCode_ok code (lit "javascript"))
      as (report & Hok & Hbugs & _).
    exists report, (synthesize (lit "javascript") unmatched_braces_bug).
    split; [exact Hok|]. split; [|split; reflexivity].
    rewrite Hbugs, filter_synthesized, javascript_unmatched.
    apply Nat.eqb_neq in Hcount. rewrite Hcount. reflexivity.
  - intros language Hlang.
    destruct (analyzeCode_ok code language) as (report & Hok & Hbugs & _).
    exists report. split; [exact Hok|].
    rewrite Hbugs, filter_synthesized, other_language_unmatched; [reflexivity|].
    now apply str_eqb_neq.
Qed.

Lemma javascript_unmatched_braces_witness :
  count_char (chr "{") (lit "if (a) {{ b; }") <> count_char (chr "}") (lit "if (a) {{ b; }")
  /\ exists report f,
       analyzeCode (lit "if (a) {{ b; }") (lit "javascript") = Ok report
       /\ filter (has_message "Unmatched curly braces") (bugs (debugging report)) = [f]
       /\ type f = lit "syntax"
       /\ line f = LineText (lit "Multiple lines").
Proof.
  assert (H : count_char (chr "{") (lit "if (a) {{ b; }")
              <> count_char (chr "}") (lit "if (a) {{ b; }")).
  { vm_compute. lia. }
  split; [exact H|].
  exact (proj1 (javascript_unmatched_braces (lit "if (a) {{ b; }") H)).
Defined.

(** Outside javascript the statement fails: a python text with one
    opening brace has no Finding on braces. *)
Lemma unmatched_braces_python_counterexample :
  ~ unmatched_braces_spec (lit "{") (lit "python").
Proof.
  intros Hspec.
  destruct Hspec as (report & f & Hok & Hfilter & _).
  { vm_compute. lia. }
  destruct (analyzeCode_ok (lit "{") (lit "python"))
    as (report' & Hok' & Hbugs & _).
  rewrite Hok' in Hok. injection Hok as <-.
  rewrite Hbugs, filter_synthesized, other_language_unmatched in Hfilter
    by reflexivity.
  discriminate.
Qed.

(* ================================================================== *)
(** * The missing-semicolon rule of javascript *)
(* ================================================================== *)

Lemma js_missing_semicolon_flagged (l : jsstring) :
  js_missing_semicolon (trim l) = flagged javascript_keywords l.
Proof.
  unfold js_missing_semicolon, flagged, javascript_keywords.
  cbv zeta. cbn [map existsb].
  rewrite !orb_false_r, !negb_orb, !andb_assoc. reflexivity.
Qed.

Lemma missing_semicolon_lines (lines : list jsstring) :
  forall index,
    map bug_line
      (filter (bug_has_message "Missing semicolon")
         (each lines index (fun l i =>
            when (js_missing_semicolon (trim l)) (missing_semicolon_bug i))))
    = map (fun il => line_number (fst il))
        (filter (fun il => flagged javascript_keywords (snd il))
           (numbered index lines)).
Proof.
  induction lines as [|l lines IH]; intros index; [reflexivity|].
  cbn [each numbered filter]. rewrite filter_app, map_app, IH.
  cbn [snd]. rewrite <- js_missing_semicolon_flagged.
  destruct (js_missing_semicolon (trim l)); reflexivity.
Qed.

Lemma map_line_synthesized language (found : list Bug) :
  map line (map (synthesize language) found) = map bug_line found.
Proof. rewrite map_map. reflexivity. Qed.

Lemma javascript_missing_semicolons (code : jsstring) :
  map bug_line
    (filter (bug_has_message "Missing semicolon") (javascript_syntax_bugs code))
  = flagged_lines javascript_keywords code.
Proof.
  unfold javascript_syntax_bugs, flagged_lines.
  rewrite !filter_app, !map_app, missing_semicolon_lines.
  rewrite !filter_each_none by (intros; reflexivity).
  rewrite filter_when.
  change (bug_has_message "Missing semicolon" unmatched_braces_bug) with false.
  rewrite andb_false_r. cbn [when map app]. now rewrite app_nil_r.
Qed.

Lemma missing_semicolon_findings (code : jsstring) :
  missing_semicolon_spec javascript_keywords code.
Proof.
  unfold missing_semicolon_spec.
  rewrite checkSyntaxErrors_eq. eexists. split; [reflexivity|].
  rewrite filter_synthesized, map_line_synthesized.
  apply javascript_missing_semicolons.
Qed.

(** C6, as the code has it: for javascript the rule flags a line if and
    only if the line is not empty after trimming, does not end with [;],
    [{] or [}], contains none of if, for, while and function, and starts
    neither with //, /* or * nor with const, let or var; each flagged
    line gets one Finding, at its 1-based number.  The keyword class is
    not among those of javascript. *)
Theorem javascript_missing_semicolon_rule (code : jsstring) :
  exists findings,
    checkSyntaxErrors code (lit "javascript") = Ok findings
    /\ map line (filter (has_message "Missing semicolon") findings)
       = flagged_lines javascript_keywords code.
Proof. apply missing_semicolon_findings. Qed.

(** With class among the keywords the statement fails: the line
    [class A] is flagged. *)
Lemma missing_semicolon_class_counterexample :
  ~ missing_semicolon_spec specified_keywords (lit "class A").
Proof.
  intros (findings & Hok & Hlines).
  pose proof (missing_semicolon_findings (lit "class A"))
    as (findings' & Hok' & Hlines').
  rewrite Hok' in Hok. injection Hok as <-.
  rewrite Hlines' in Hlines. vm_compute in Hlines. discriminate.
Qed.

(* ================================================================== *)
(** * Unreachable code *)
(* ================================================================== *)

(** What the logical checker does: the unreachable-code Finding is
    written exactly when [return] occurs again from the seventh
    character after the start of its first occurrence. *)
Lemma unreachable_code_rule (code language : jsstring) :
  exists findings,
    checkLogicalErrors code language = Ok findings
    /\ filter (has_message "Unreachable code after return statement") findings
       = map (synthesize language) (when (second_return code) (unreachable_bug code)).
Proof.
  rewrite checkLogicalErrors_eq. eexists. split; [reflexivity|].
  rewrite filter_synthesized. unfold logical_bugs.
  rewrite filter_app, !filter_when.
  change (bug_has_message "Unreachable code after return statement"
            (infinite_loop_bug code)) with false.
  change (bug_has_message "Unreachable code after return statement"
            (unreachable_bug code)) with true.
  now rewrite andb_false_r, andb_true_r.
Qed.

(** C7 at two adjacent occurrences: [return] occurs twice in
    [returnreturn] and the logical checker writes no Finding, for any
    language; with one character between the two it writes the
    Finding. *)
Theorem adjacent_returns_not_reported (language : jsstring) :
  occurrences (lit "returnreturn") (lit "return") = 2
  /\ checkLogicalErrors (lit "returnreturn") language = Ok []
  /\ occurrences (lit "return;return") (lit "return") = 2
  /\ checkLogicalErrors (lit "return;return") language
     = Ok [synthesize language (unreachable_bug (lit "return;return"))].
Proof.
  rewrite !checkLogicalErrors_eq. repeat split.
Qed.

(* ================================================================== *)
(** * Best practices *)
(* ================================================================== *)

(** A language that is neither a key of the table nor a name that the
    table inherits gets the javascript list. *)
Lemma best_practices_fallback (language : jsstring) :
  mem language supported_languages = false ->
  mem language object_prototype_names = false ->
  generateBestPractices language = Ok javascript_practices.
Proof.
  intros Hlang Hproto. rewrite generateBestPractices_eq. f_equal.
  destruct (unsupported_language _ Hlang) as (H1 & H2 & H3 & H4).
  unfold best_practices, practices, obj, member. cbn [assoc].
  rewrite H1, H2, H3, H4.
  assert (Hinh : inherited language = JUndefined).
  { unfold inherited. rewrite Hproto.
    unfold mem, object_prototype_names in Hproto. cbn [map existsb] in Hproto.
    repeat (apply orb_false_iff in Hproto as [? Hproto]).
    repeat match goal with
           | H : str_eqb language ?k = false |- context [str_eqb language ?k'] =>
               change k' with k; rewrite H
           end.
    reflexivity. }
  rewrite Hinh. reflexivity.
Qed.

(** A language that names a member inherited from [Object.prototype]
    gets that member. *)
Lemma best_practices_inherited (language : jsstring) :
  mem language object_prototype_names = true ->
  exists name, generateBestPractices language = Ok (JBuiltin name).
Proof.
  intros Hproto. rewrite generateBestPractices_eq.
  unfold mem, object_prototype_names in Hproto. cbn [map existsb] in Hproto.
  repeat (apply orb_true_iff in Hproto as [Hproto|Hproto];
          [apply str_eqb_eq in Hproto; subst language; eexists; reflexivity|]).
  discriminate.
Qed.

(** C9 at a language that the table inherits: [constructor] is none of
    the four languages, and the best practices of the Report are the
    [Object] function of the runtime, not the javascript list. *)
Theorem best_practices_of_constructor (code : jsstring) :
  mem (lit "constructor") supported_languages = false
  /\ generateBestPractices (lit "constructor") = Ok (JBuiltin (lit "Object"))
  /\ exists report,
       analyzeCode code (lit "constructor") = Ok report
       /\ bestPractices report = JBuiltin (lit "Object")
       /\ bestPractices report <> javascript_practices.
Proof.
  split; [reflexivity|]. split; [reflexivity|].
  destruct (analyzeCode_ok code (lit "constructor"))
    as (report & Hok & _ & _ & _ & Hbest & _).
  exists report. split; [exact Hok|].
  rewrite Hbest. split; [reflexivity|discriminate].
Qed.

(* ================================================================== *)
(** * The python example *)
(* ================================================================== *)

(** A second line that starts with one space is flagged, and the Fix
    shows the body indented by four spaces. *)
Example python_one_space_flagged :
  exists finding,
    analyzePotentialBugs python_one_space (lit "python") = Ok [finding]
    /\ type finding = lit "syntax"
    /\ message finding = lit "Incorrect indentation"
    /\ line finding = LineNo 2
    /\ after (fix_ finding) = JString (lit "def test():\n    print(\qtest\q)").
Proof. eexists. split; [vm_compute; reflexivity|]. repeat split. Qed.

(** Both lines of the example start without white space, the
    indentation rule flags neither, and the Report has no Finding; the
    catalog shows this very text as the code before the fix of
    'Incorrect indentation'. *)
Lemma python_example_not_flagged :
  map indentOf (split_lines python_example) = [0; 0]
  /\ analyzePotentialBugs python_example (lit "python") = Ok []
  /\ (exists report,
         analyzeCode python_example (lit "python") = Ok report
         /\ bugs (debugging report) = []
         /\ syntax (bugTypes (debugging report)) = 0)
  /\ member (member (member (member fixes (lit "syntax")) (lit "python"))
               (lit "Incorrect indentation")) (lit "before")
     = JString python_example.
Proof.
  split; [reflexivity|]. split; [reflexivity|]. split; [|reflexivity].
  destruct (analyzeCode_ok python_example (lit "python"))
    as (report & Hok & Hbugs & _ & Htypes & _).
  exists report. split; [exact Hok|].
  rewrite Htypes, Hbugs. split; reflexivity.
Qed.

(* ================================================================== *)
(** * Lists: filters *)
(* ================================================================== *)

Lemma filter_all {A} (p : A -> bool) (xs : list A) :
  Forall (fun x => p x = true) xs -> filter p xs = xs.
Proof.
  induction 1 as [|x xs Hx _ IH]; [reflexivity|].
  cbn [filter]. now rewrite Hx, IH.
Qed.

Lemma filter_nothing {A} (p : A -> bool) (xs : list A) :
  Forall (fun x => p x = false) xs -> filter p xs = [].
Proof.
  induction 1 as [|x xs Hx _ IH]; [reflexivity|].
  cbn [filter]. now rewrite Hx.
Qed.

(* ================================================================== *)
(** * More on the Fix Synthesizer *)
(* ================================================================== *)

Lemma inherited_unnamed (k : jsstring) :
  mem k object_prototype_names = false -> inherited k = JUndefined.
Proof.
  intros Hproto. unfold inherited. rewrite Hproto.
  unfold mem, object_prototype_names in Hproto. cbn [map existsb] in Hproto.
  repeat (apply orb_false_iff in Hproto as [? Hproto]).
  repeat match goal with
         | H : str_eqb k ?a = false |- context [str_eqb k ?b] =>
             change b with a; rewrite H
         end.
  reflexivity.
Qed.

Lemma inherited_named (k : jsstring) :
  mem k object_prototype_names = true -> exists name, inherited k = JBuiltin name.
Proof.
  intros Hproto.
  unfold mem, object_prototype_names in Hproto. cbn [map existsb] in Hproto.
  repeat (apply orb_true_iff in Hproto as [Hproto|Hproto];
          [apply str_eqb_eq in Hproto; subst k; eexists; reflexivity|]).
  discriminate.
Qed.

(** The functions that every object inherits, one by one. *)
Lemma names_function_cases (k : jsstring) :
  names_function k = true ->
  In k (map lit ["constructor"; "__defineGetter__"; "__defineSetter__";
                 "hasOwnProperty"; "__lookupGetter__"; "__lookupSetter__";
                 "isPrototypeOf"; "propertyIsEnumerable"; "toString";
                 "valueOf"; "toLocaleString"]%string).
Proof.
  unfold names_function. intros H. apply andb_true_iff in H as [Hmem Hproto].
  unfold mem, object_prototype_names in Hmem. cbn [map existsb] in Hmem.
  repeat (apply orb_true_iff in Hmem as [Hmem|Hmem];
          [apply str_eqb_eq in Hmem; subst k;
           first [ discriminate Hproto | cbn [map In]; tauto ]|]).
  discriminate.
Qed.

Lemma inherited_function (k : jsstring) :
  names_function k = true ->
  exists name, inherited k = JBuiltin name
               /\ str_eqb name (lit "Object.prototype") = false.
Proof.
  intros H. apply names_function_cases in H. cbn [map In] in H.
  repeat (destruct H as [<-|H]; [eexists; split; reflexivity|]).
  contradiction.
Qed.

Lemma member_object_cases props (k : jsstring) :
  member (JObject props) k = inherited k
  \/ In (member (JObject props) k) (map snd props).
Proof.
  cbn [member]. destruct (assoc k props) as [x|] eqn:E; [|now left].
  right. apply assoc_in in E. now apply (in_map snd) in E.
Qed.

(** What the catalog holds under a type that names no inherited member:
    the table of one of the four types, or nothing. *)
Lemma member_fixes_cases (t : jsstring) :
  mem t object_prototype_names = false ->
  (mem t finding_types = true /\ exists props, member fixes t = JObject props)
  \/ (mem t finding_types = false /\ member fixes t = JUndefined).
Proof.
  intros Hproto. destruct (mem t finding_types) eqn:Ht.
  - left. split; [reflexivity|]. now apply typed_table.
  - right. split; [reflexivity|].
    unfold mem, finding_types in Ht. cbn [map existsb] in Ht.
    repeat (apply orb_false_iff in Ht as [? Ht]).
    unfold fixes, obj. cbn [member assoc].
    repeat match goal with
           | H : str_eqb t ?a = false |- context [str_eqb t ?b] =>
               change b with a; rewrite H
           end.
    now apply inherited_unnamed.
Qed.

(** The table that a type and a language select is safe to read under a
    message, for a type that names no inherited member. *)
Lemma selected_table_safe (t language : jsstring) :
  mem t object_prototype_names = false ->
  table_ok (or_else (member_opt (member fixes t) language) (member fixes t)) = true.
Proof.
  intros Hproto.
  destruct (member_fixes_cases t Hproto) as [[Ht _] | [_ ->]].
  - now apply by_type_safe.
  - reflexivity.
Qed.

Lemma synthesize_fix (language : jsstring) (bug : Bug) :
  fix_ (synthesize language bug)
  = fix_of_value
      (or_else
         (member_opt (or_else (member_opt (member fixes (bug_type bug)) language)
                     (member fixes (bug_type bug)))
            (bug_message bug))
         (JObject [ (lit "before", JString (lit "Original code"));
                    (lit "after", JString (bug_fix bug));
                    (lit "explanation", JString (bug_fix bug)) ])).
Proof. reflexivity. Qed.

Lemma fallback_value (advice : jsstring) :
  fix_of_value (JObject [ (lit "before", JString (lit "Original code"));
                          (lit "after", JString advice);
                          (lit "explanation", JString advice) ])
  = fallback_fix advice.
Proof. reflexivity. Qed.

(** ** Reads that raise *)

Lemma restricted_unnamed (v : jsval) (k : jsstring) :
  mem k restricted_names = false -> restricted v k = false.
Proof.
  intros Hk. destruct v; try reflexivity. unfold restricted.
  rewrite Hk. apply andb_false_r.
Qed.

Lemma restricted_function (name k : jsstring) :
  str_eqb name (lit "Object.prototype") = false ->
  restricted (JBuiltin name) k = mem k restricted_names.
Proof. intros Hname. unfold restricted. now rewrite Hname. Qed.

(** [generateFix] raises when the read under the language is
    restricted. *)
Lemma generateFix_language_raises (bug : Bug) (language : jsstring) :
  restricted (member fixes (bug_type bug)) language = true ->
  generateFix bug language = Throw restricted_accessor_error.
Proof.
  intros Hlanguage. unfold generateFix.
  change (get fixes (bug_type bug)) with (Ok (member fixes (bug_type bug))).
  cbv beta iota delta [bind].
  unfold get_opt, get. rewrite Hlanguage.
  destruct (member fixes (bug_type bug)); try discriminate. reflexivity.
Qed.

(** [generateFix] raises when the read under the message is
    restricted. *)
Lemma generateFix_message_raises (bug : Bug) (language : jsstring) :
  restricted (member fixes (bug_type bug)) language = false ->
  restricted
    (or_else (member_opt (member fixes (bug_type bug)) language)
       (member fixes (bug_type bug))) (bug_message bug) = true ->
  generateFix bug language = Throw restricted_accessor_error.
Proof.
  intros Hlanguage Hmessage. unfold generateFix.
  change (get fixes (bug_type bug)) with (Ok (member fixes (bug_type bug))).
  cbv beta iota delta [bind].
  assert (Hfirst : get_opt (member fixes (bug_type bug)) language
                   = Ok (member_opt (member fixes (bug_type bug)) language)).
  { unfold get_opt, member_opt, get.
    destruct (nullish _); [reflexivity|]. now rewrite Hlanguage. }
  rewrite Hfirst. cbv beta iota.
  unfold get_opt, get. rewrite Hmessage.
  destruct (or_else _ _); try discriminate. reflexivity.
Qed.

(** What a language selects in the table of one of the four types: a
    function of the runtime when it names one, and otherwise nothing
    that is a function. *)
Lemma typed_table_selects (t language : jsstring) :
  mem t finding_types = true ->
  if names_function language
  then exists name,
         or_else (member_opt (member fixes t) language) (member fixes t)
         = JBuiltin name
         /\ str_eqb name (lit "Object.prototype") = false
  else forall k,
         restricted
           (or_else (member_opt (member fixes t) language) (member fixes t)) k
         = false.
Proof.
  intros Ht.
  assert (Hcases : t = lit "syntax" \/ t = lit "runtime"
                   \/ t = lit "logical" \/ t = lit "security").
  { unfold mem, finding_types in Ht. simpl in Ht.
    repeat (apply orb_true_iff in Ht as [Ht|Ht];
            [apply str_eqb_eq in Ht; auto|]).
    discriminate. }
  destruct (names_function language) eqn:Hl.
  - apply names_function_cases in Hl. cbn [map In] in Hl.
    destruct Hcases as [-> | [-> | [-> | ->]]];
      repeat (destruct Hl as [<-|Hl]; [eexists; split; reflexivity|]);
      contradiction.
  - intros k.
    assert (Hinherited : inherited language = JUndefined
                         \/ inherited language = JBuiltin (lit "Object.prototype")).
    { unfold names_function in Hl. apply andb_false_iff in Hl as [Hl|Hl].
      - left. now apply inherited_unnamed.
      - right. apply negb_false_iff, str_eqb_eq in Hl. subst. reflexivity. }
    destruct Hcases as [-> | [-> | [-> | ->]]].
    all: match goal with
         | |- context [member fixes ?t] =>
             let props := eval vm_compute in
                 (match member fixes t with JObject p => p | _ => [] end) in
             change (member fixes t) with (JObject props);
             destruct (member_object_cases props language) as [E|E]
         end.
    all: unfold member_opt; cbn [nullish]; cbv iota.
    all: try (rewrite E; destruct Hinherited as [-> | ->]; reflexivity).
    all: cbn [map snd In] in E.
    all: repeat (destruct E as [E|E]; [rewrite <- E; reflexivity|]).
    all: contradiction.
Qed.

(** [generateFix] and the accessors [caller] and [arguments].  Under a
    type that names an inherited function, the language is read of that
    function: [generateFix] raises when the language is [caller] or
    [arguments].  Under a type that names no inherited member, the
    message is read of what the language selects: [generateFix] raises
    when the type is one of the four, the language names an inherited
    function and the message is [caller] or [arguments]; in every other
    case it returns a Finding with the type, the message and the line of
    the bug. *)
Theorem generateFix_restricted_reads (bug : Bug) (language : jsstring) :
  (names_function (bug_type bug) = true ->
   mem language restricted_names = true ->
   generateFix bug language = Throw restricted_accessor_error)
  /\ (mem (bug_type bug) object_prototype_names = false ->
      if mem (bug_type bug) finding_types && names_function language
         && mem (bug_message bug) restricted_names
      then generateFix bug language = Throw restricted_accessor_error
      else exists finding,
             generateFix bug language = Ok finding
             /\ type finding = bug_type bug
             /\ message finding = bug_message bug
             /\ line finding = bug_line bug).
Proof.
  split.
  - intros Htype Hlanguage. apply generateFix_language_raises.
    assert (Hmember : member fixes (bug_type bug) = inherited (bug_type bug)).
    { apply names_function_cases in Htype. cbn [map In] in Htype.
      repeat (destruct Htype as [<-|Htype]; [reflexivity|]). contradiction. }
    rewrite Hmember.
    destruct (inherited_function _ Htype) as (name & -> & Hname).
    now rewrite restricted_function.
  - intros Hproto.
    assert (Hfirst : restricted (member fixes (bug_type bug)) language = false).
    { destruct (member_fixes_cases _ Hproto) as [[_ [props ->]] | [_ ->]];
        reflexivity. }
    assert (Hkept : forall finding,
              finding = synthesize language bug ->
              type finding = bug_type bug /\ message finding = bug_message bug
              /\ line finding = bug_line bug).
    { intros finding ->. repeat split. }
    destruct (member_fixes_cases _ Hproto) as [[Ht _] | [Ht Hnone]].
    + rewrite Ht. cbn [andb].
      pose proof (typed_table_selects _ language Ht) as Hselected.
      destruct (names_function language).
      * destruct Hselected as (name & Hselected & Hname). cbn [andb].
        destruct (mem (bug_message bug) restricted_names) eqn:Hm.
        -- apply generateFix_message_raises; [exact Hfirst|].
           rewrite Hselected. now rewrite restricted_function.
        -- eexists. split; [|now apply Hkept].
           apply generateFix_reads; [exact Hfirst|].
           now apply restricted_unnamed.
      * cbn [andb]. eexists. split; [|now apply Hkept].
        apply generateFix_reads; [exact Hfirst|apply Hselected].
    + rewrite Ht. cbn [andb]. eexists. split; [|now apply Hkept].
      apply generateFix_reads; [exact Hfirst|]. rewrite Hnone. reflexivity.
Qed.

Lemma generateFix_restricted_reads_witness :
  generateFix {| bug_type := lit "constructor";
                 bug_message := lit "Shadowed loop variable";
                 bug_line := LineNo 3;
                 bug_fix := lit "Rename the inner variable" |}
    (lit "caller") = Throw restricted_accessor_error
  /\ generateFix {| bug_type := lit "syntax";
                    bug_message := lit "arguments";
                    bug_line := LineNo 3;
                    bug_fix := lit "Rename the inner variable" |}
       (lit "toString") = Throw restricted_accessor_error
  /\ exists finding,
       generateFix {| bug_type := lit "syntax";
                      bug_message := lit "Missing semicolon";
                      bug_line := LineNo 3;
                      bug_fix := lit "Add a semicolon" |}
         (lit "toString") = Ok finding
       /\ type finding = lit "syntax"
       /\ message finding = lit "Missing semicolon"
       /\ line finding = LineNo 3.
Proof.
  split; [|split].
  - apply (proj1 (generateFix_restricted_reads
                    {| bug_type := lit "constructor";
                       bug_message := lit "Shadowed loop variable";
                       bug_line := LineNo 3;
                       bug_fix := lit "Rename the inner variable" |}
                    (lit "caller"))); reflexivity.
  - exact (proj2 (generateFix_restricted_reads
                    {| bug_type := lit "syntax";
                       bug_message := lit "arguments";
                       bug_line := LineNo 3;
                       bug_fix := lit "Rename the inner variable" |}
                    (lit "toString")) eq_refl).
  - exact (proj2 (generateFix_restricted_reads
                    {| bug_type := lit "syntax";
                       bug_message := lit "Missing semicolon";
                       bug_line := LineNo 3;
                       bug_fix := lit "Add a semicolon" |}
                    (lit "toString")) eq_refl).
Defined.

(** ** The fallback guarantee *)

(** A key of several words is no canonical index. *)
Lemma digits_spaced (k : jsstring) (acc : nat) :
  has_space k = true -> digits k acc = None.
Proof.
  revert acc. induction k as [|c k IH]; intros acc H; [discriminate|].
  cbn [has_space existsb] in H. cbn [digits].
  destruct (is_digit c) eqn:Hc; [|reflexivity].
  apply IH. apply orb_true_iff in H as [H|H]; [|exact H].
  apply N.eqb_eq in H. subst c. discriminate.
Qed.

Lemma index_of_key_spaced (k : jsstring) :
  has_space k = true -> index_of_key k = None.
Proof.
  intros H. unfold index_of_key.
  destruct k as [|c [|d k]]; [reflexivity| |].
  - now apply digits_spaced.
  - destruct (N.eqb c 48); [reflexivity|]. now apply digits_spaced.
Qed.

(** Only an object literal has a member under a key of several words. *)
Lemma member_opt_spaced (v : jsval) (m : jsstring) :
  (forall props, v <> JObject props) -> has_space m = true ->
  member_opt v m = JUndefined.
Proof.
  intros Hv Hm. unfold member_opt.
  destruct v as [| |s|n|items|props|name]; cbn [nullish member]; cbv iota;
    try reflexivity.
  - rewrite (str_eqb_spaced _ _ Hm) by reflexivity.
    rewrite (index_of_key_spaced _ Hm). now apply inherited_spaced.
  - now apply inherited_spaced.
  - rewrite (str_eqb_spaced _ _ Hm) by reflexivity.
    rewrite (index_of_key_spaced _ Hm). now apply inherited_spaced.
  - now destruct (Hv props).
  - now apply builtin_member_spaced.
Qed.

(** No member of a function or object of the runtime is an object
    literal. *)
Lemma builtin_member_no_literal (name k : jsstring) props :
  builtin_member name k <> JObject props.
Proof.
  unfold builtin_member.
  repeat match goal with
         | |- context [if ?c then _ else _] => destruct c
         | |- context [match ?c with Some _ => _ | None => _ end] => destruct c
         end; try discriminate;
    destruct (inherited_cases k) as [-> | [n ->]]; discriminate.
Qed.

(** The fallback guarantee for a bug of any type and any language, also
    one that no checker writes: a message of several words and an advice
    text that is not empty give a Fix of three non-empty strings.  The
    one exception is the read that raises before the message is looked
    up: a type that names an inherited function, with the language
    [caller] or [arguments]. *)
Theorem fallback_guarantee (bug : Bug) (language : jsstring) :
  names_function (bug_type bug) && mem language restricted_names = false ->
  has_space (bug_message bug) = true ->
  bug_fix bug <> [] ->
  exists finding,
    generateFix bug language = Ok finding
    /\ complete_fix (fix_ finding).
Proof.
  intros Hread Hmsg Hfix.
  assert (Hfallback :
    good_fix (JObject [ (lit "before", JString (lit "Original code"));
                        (lit "after", JString (bug_fix bug));
                        (lit "explanation", JString (bug_fix bug)) ]) = true).
  { destruct (bug_fix bug); [contradiction|reflexivity]. }
  destruct (mem (bug_type bug) object_prototype_names) eqn:Hproto.
  - (* the type names an inherited member: the catalog is not read *)
    destruct (inherited_named _ Hproto) as [name Hname].
    assert (Hmember : member fixes (bug_type bug) = JBuiltin name).
    { rewrite <- Hname.
      unfold mem, object_prototype_names in Hproto. cbn [map existsb] in Hproto.
      repeat (apply orb_true_iff in Hproto as [Hproto|Hproto];
              [apply str_eqb_eq in Hproto; rewrite Hproto; reflexivity|]).
      discriminate. }
    assert (Hfirst : restricted (JBuiltin name) language = false).
    { unfold names_function in Hread. rewrite Hproto in Hread.
      cbn [andb] in Hread. apply andb_false_iff in Hread as [Hread|Hread].
      - apply negb_false_iff, str_eqb_eq in Hread. rewrite Hread in Hname.
        injection Hname as <-. reflexivity.
      - now apply restricted_unnamed. }
    exists (synthesize language bug). split.
    + apply generateFix_reads; rewrite Hmember; [exact Hfirst|].
      now apply restricted_spaced.
    + rewrite synthesize_fix, Hmember.
      rewrite member_opt_spaced; [now apply good_fix_complete| |exact Hmsg].
      intros props. unfold member_opt. cbn [nullish member]. cbv iota.
      unfold or_else.
      destruct (truthy (builtin_member name language));
        [apply builtin_member_no_literal|discriminate].
  - exists (synthesize language bug). split.
    + apply generateFix_reads; [|now apply restricted_spaced].
      destruct (member_fixes_cases _ Hproto) as [[_ [props ->]] | [_ ->]];
        reflexivity.
    + rewrite synthesize_fix.
      pose proof (selected_table_safe (bug_type bug) language Hproto) as Hsafe.
      set (languageFixes := or_else _ (member fixes (bug_type bug))) in *.
      apply good_fix_complete.
      destruct (table_ok_lookup languageFixes (bug_message bug) Hsafe Hmsg)
        as [-> | Hgood].
      * exact Hfallback.
      * unfold or_else. destruct (truthy _); assumption.
Qed.

Lemma fallback_guarantee_witness :
  names_function (lit "toString") && mem (lit "length") restricted_names = false
  /\ has_space (lit "Shadowed loop variable") = true
  /\ lit "Rename the inner variable" <> []
  /\ exists finding,
       generateFix {| bug_type := lit "toString";
                      bug_message := lit "Shadowed loop variable";
                      bug_line := LineNo 3;
                      bug_fix := lit "Rename the inner variable" |}
         (lit "length") = Ok finding
       /\ complete_fix (fix_ finding).
Proof.
  split; [reflexivity|]. split; [reflexivity|]. split; [discriminate|].
  apply (fallback_guarantee
           {| bug_type := lit "toString";
              bug_message := lit "Shadowed loop variable";
              bug_line := LineNo 3;
              bug_fix := lit "Rename the inner variable" |} (lit "length"));
    [reflexivity|reflexivity|discriminate].
Defined.

Lemma language_lookup_gen (Q : jsval -> bool) props (language : jsstring) :
  (forall name, Q (JBuiltin name) = true) ->
  forallb (fun kv => Q (or_else (snd kv) (JObject props))) props = true ->
  Q (JObject props) = true ->
  Q (or_else (member_opt (JObject props) language) (JObject props)) = true.
Proof.
  intros Hbuiltin Hall Hself. unfold member_opt. simpl nullish. cbv iota.
  unfold member. destruct (assoc language props) as [x|] eqn:E.
  - apply assoc_in in E. rewrite forallb_forall in Hall. exact (Hall _ E).
  - destruct (inherited_cases language) as [-> | [name ->]].
    + exact Hself.
    + apply Hbuiltin.
Qed.

Lemma assoc_none {A} (k : jsstring) (props : list (jsstring * A)) :
  existsb (fun kv => str_eqb k (fst kv)) props = false -> assoc k props = None.
Proof.
  induction props as [|[k' v] props IH]; [reflexivity|].
  cbn [existsb assoc fst]. intros H. apply orb_false_iff in H as [-> H]. auto.
Qed.

Lemma misses_lookup (m : jsstring) (v : jsval) :
  misses m v = true -> has_space m = true -> member_opt v m = JUndefined.
Proof.
  intros Hv Hm. destruct v as [| |s|n|items|props|name]; simpl in Hv;
    try discriminate; try reflexivity.
  - unfold member_opt. cbn [nullish member]. cbv iota.
    apply negb_true_iff in Hv. rewrite (assoc_none _ _ Hv).
    now apply inherited_spaced.
  - unfold member_opt. cbn [nullish member]. cbv iota.
    now apply builtin_member_spaced.
Qed.

(** The table that holds no language is the one that is read, for a
    language that names neither an inherited member nor an entry of the
    table. *)
Lemma agnostic_table_selected (t : string) (language : jsstring) :
  t = "logical"%string \/ t = "security"%string ->
  mem language object_prototype_names = false ->
  mem language agnostic_keys = false ->
  or_else (member_opt (member fixes (lit t)) language) (member fixes (lit t))
  = member fixes (lit t).
Proof.
  intros Ht Hproto Hkeys.
  assert (Hget : member_opt (member fixes (lit t)) language = JUndefined);
    [|rewrite Hget; reflexivity].
  unfold mem, agnostic_keys in Hkeys. cbn [map existsb] in Hkeys.
  repeat (apply orb_false_iff in Hkeys as [? Hkeys]).
  destruct Ht as [-> | ->].
  all: match goal with
       | |- member_opt ?table _ = _ =>
           let v := eval vm_compute in table in change table with v
       end.
  all: unfold member_opt; cbn [nullish member assoc]; cbv iota.
  all: repeat match goal with
         | H : str_eqb ?l ?a = false |- context [str_eqb ?l ?b] =>
             change b with a; rewrite H
         end.
  all: now apply inherited_unnamed.
Qed.

Ltac agnostic_pieces :=
  repeat (apply Forall_app; split);
  repeat first [ apply Forall_when | apply Forall_nil ].

(** For a language that names neither an inherited member nor a key of
    the two tables without languages, the Fix of a logical or security
    Finding is the entry of the catalog under its message; the
    unreachable-code message has no entry and gets the generic Fix. *)
Theorem agnostic_findings_from_catalog (code language : jsstring) :
  mem language object_prototype_names = false ->
  mem language agnostic_keys = false ->
  exists logicalErrors securityIssues,
    checkLogicalErrors code language = Ok logicalErrors
    /\ checkSecurityIssues code language = Ok securityIssues
    /\ Forall (fun f =>
                 if has_message "Unreachable code after return statement" f
                 then fix_ f = fallback_fix
                        (lit "Remove code after return statement or restructure logic")
                 else fix_ f = fix_of_value (agnostic_entry f)
                      /\ complete_fix (fix_ f))
         (logicalErrors ++ securityIssues).
Proof.
  intros Hproto Hkeys.
  rewrite checkLogicalErrors_eq, checkSecurityIssues_eq.
  eexists. eexists. split; [reflexivity|]. split; [reflexivity|].
  rewrite <- map_app. apply Forall_map.
  pose proof (agnostic_table_selected "logical" language
                (or_introl eq_refl) Hproto Hkeys) as Hlogical.
  pose proof (agnostic_table_selected "security" language
                (or_intror eq_refl) Hproto Hkeys) as Hsecurity.
  unfold logical_bugs, security_bugs. agnostic_pieces.
  all: change (has_message ?m (synthesize ?l ?b)) with (bug_has_message m b).
  all: cbv beta; rewrite synthesize_fix.
  all: match goal with
       | |- context [bug_type ?b] =>
           let t := eval cbv in (bug_type b) in
           change (bug_type b) with t
       end.
  1,2: change [108; 111; 103; 105; 99; 97; 108]%N with (lit "logical");
       rewrite Hlogical.
  3,4: change [115; 101; 99; 117; 114; 105; 116; 121]%N with (lit "security");
       rewrite Hsecurity.
  all: vm_compute; repeat split; eexists; (split; [reflexivity|discriminate]).
Qed.

Lemma agnostic_findings_from_catalog_witness :
  mem (lit "go") object_prototype_names = false
  /\ mem (lit "go") agnostic_keys = false
  /\ exists logicalErrors securityIssues,
       checkLogicalErrors (lit "for(;;) { x.innerHTML = q }") (lit "go")
       = Ok logicalErrors
       /\ checkSecurityIssues (lit "for(;;) { x.innerHTML = q }") (lit "go")
          = Ok securityIssues
       /\ Forall (fun f =>
                    if has_message "Unreachable code after return statement" f
                    then fix_ f = fallback_fix
                           (lit "Remove code after return statement or restructure logic")
                    else fix_ f = fix_of_value (agnostic_entry f)
                         /\ complete_fix (fix_ f))
            (logicalErrors ++ securityIssues).
Proof.
  split; [reflexivity|]. split; [reflexivity|].
  apply (agnostic_findings_from_catalog
           (lit "for(;;) { x.innerHTML = q }") (lit "go")); reflexivity.
Defined.

Lemma or_else_undefined (v : jsval) : or_else JUndefined v = v.
Proof. reflexivity. Qed.

(** Under a language that names an inherited member, the table that is
    read is a built-in, for each of the four types. *)
Lemma inherited_language_selected (t language : jsstring) :
  mem t finding_types = true ->
  mem language object_prototype_names = true ->
  exists name,
    or_else (member_opt (member fixes t) language) (member fixes t) = JBuiltin name.
Proof.
  intros Ht Hproto.
  destruct (inherited_named language Hproto) as [name Hname].
  exists name.
  assert (Hget : member_opt (member fixes t) language = JBuiltin name);
    [|rewrite Hget; reflexivity].
  unfold mem, object_prototype_names in Hproto. cbn [map existsb] in Hproto.
  destruct (type_cases t Ht) as [-> | [-> | [-> | ->]]].
  all: match goal with
       | |- member_opt ?table _ = _ =>
           let v := eval vm_compute in table in change table with v
       end.
  all: unfold member_opt; cbn [nullish member]; cbv iota.
  all: match goal with
       | |- context [assoc ?l ?props] =>
           assert (Hnone : assoc l props = None);
           [ apply assoc_none; cbn [existsb fst];
             repeat (apply orb_true_iff in Hproto as [Hproto|Hproto];
                     [apply str_eqb_eq in Hproto; subst l; reflexivity|]);
             discriminate
           | rewrite Hnone; exact Hname ]
       end.
Qed.

(** Under a language that names a member inherited from
    [Object.prototype], such as [constructor] or [toString], no Finding
    gets a Fix of the catalog: every Fix of the Report is the generic
    one, with 'Original code' before and the same text as after and as
    explanation. *)
Theorem inherited_language_generic_fixes (code language : jsstring) :
  mem language object_prototype_names = true ->
  exists report,
    analyzeCode code language = Ok report
    /\ Forall (fun f => before (fix_ f) = JString (lit "Original code")
                        /\ after (fix_ f) = explanation (fix_ f)
                        /\ nonempty_string (after (fix_ f)))
         (bugs (debugging report)).
Proof.
  intros Hproto.
  destruct (analyzeCode_ok code language) as (report & Hok & Hbugs & _).
  exists report. split; [exact Hok|].
  rewrite Hbugs. apply Forall_map.
  pose proof (all_bugs_engine code language) as Hengine.
  revert Hengine. apply Forall_impl. intros bug Hbug.
  unfold engine_bug in Hbug.
  apply andb_true_iff in Hbug as [Hbug Hfix].
  apply andb_true_iff in Hbug as [Htype Hmsg].
  rewrite synthesize_fix.
  destruct (inherited_language_selected _ _ Htype Hproto) as [name ->].
  assert (Hmiss : member_opt (JBuiltin name) (bug_message bug) = JUndefined).
  { unfold member_opt. cbn [nullish member]. cbv iota.
    now apply builtin_member_spaced. }
  rewrite Hmiss, or_else_undefined, fallback_value.
  cbn [fallback_fix before after explanation].
  repeat split. exists (bug_fix bug). split; [reflexivity|].
  destruct (bug_fix bug); [discriminate|discriminate].
Qed.

Lemma inherited_language_generic_fixes_witness :
  mem (lit "toString") object_prototype_names = true
  /\ exists report,
       analyzeCode (lit "while(true) { el.innerHTML = s }") (lit "toString")
       = Ok report
       /\ Forall (fun f => before (fix_ f) = JString (lit "Original code")
                           /\ after (fix_ f) = explanation (fix_ f)
                           /\ nonempty_string (after (fix_ f)))
            (bugs (debugging report)).
Proof.
  split; [reflexivity|].
  apply (inherited_language_generic_fixes
           (lit "while(true) { el.innerHTML = s }") (lit "toString")).
  reflexivity.
Defined.

Lemma unreachable_entry_missed (language : jsstring) :
  member_opt
    (or_else (member_opt (member fixes (lit "logical")) language)
       (member fixes (lit "logical")))
    (lit "Unreachable code after return statement")
  = JUndefined.
Proof.
  apply misses_lookup; [|reflexivity].
  match goal with
  | |- context [member fixes ?t] =>
      let props := eval vm_compute in
          (match member fixes t with JObject p => p | _ => [] end) in
      change (member fixes t) with (JObject props)
  end.
  apply (language_lookup_gen
           (misses (lit "Unreachable code after return statement")));
    [reflexivity|vm_compute; reflexivity|vm_compute; reflexivity].
Qed.

Lemma unreachable_fix_generic (code language : jsstring) :
  exists report,
    analyzeCode code language = Ok report
    /\ Forall (fun f =>
                 has_message "Unreachable code" f = false
                 /\ (has_message "Unreachable code after return statement" f = true ->
                     fix_ f = fallback_fix
                       (lit "Remove code after return statement or restructure logic")))
         (bugs (debugging report)).
Proof.
  destruct (analyzeCode_ok code language) as (report & Hok & Hbugs & _).
  exists report. split; [exact Hok|].
  rewrite Hbugs. apply Forall_map.
  change (fun x : Bug =>
            has_message "Unreachable code" (synthesize language x) = false
            /\ (has_message "Unreachable code after return statement"
                  (synthesize language x) = true ->
                fix_ (synthesize language x)
                = fallback_fix
                    (lit "Remove code after return statement or restructure logic")))
    with (fun x : Bug =>
            bug_has_message "Unreachable code" x = false
            /\ (bug_has_message "Unreachable code after return statement" x = true ->
                fix_ (synthesize language x)
                = fallback_fix
                    (lit "Remove code after return statement or restructure logic"))).
  assert (Hunreachable :
    fix_ (synthesize language (unreachable_bug code))
    = fallback_fix (lit "Remove code after return statement or restructure logic")).
  { rewrite synthesize_fix.
    change (bug_type (unreachable_bug code)) with (lit "logical").
    change (bug_message (unreachable_bug code))
      with (lit "Unreachable code after return statement").
    rewrite unreachable_entry_missed, or_else_undefined. reflexivity. }
  unfold all_bugs, syntax_bugs, runtime_bugs.
  unfold javascript_syntax_bugs, python_syntax_bugs, java_syntax_bugs,
    cpp_syntax_bugs, logical_bugs, security_bugs.
  repeat match goal with
         | |- context [if str_eqb language ?l then _ else _] =>
             destruct (str_eqb language l)
         end.
  all: repeat (apply Forall_app; split);
    repeat first [ apply Forall_each; intros
                 | apply Forall_when
                 | apply Forall_cons
                 | apply Forall_nil ].
  all: split; [reflexivity|].
  all: try exact (fun _ => Hunreachable).
  all: intros H; vm_compute in H; discriminate.
Qed.

(** The entry 'Unreachable code' of the catalog is never read: the
    checker writes the message 'Unreachable code after return
    statement'.  In every Report, for every language, no Finding has
    the message of the entry, and the Findings on unreachable code carry
    the generic Fix. *)
Theorem unreachable_entry_never_used (code language : jsstring) :
  exists report,
    analyzeCode code language = Ok report
    /\ filter (has_message "Unreachable code") (bugs (debugging report)) = []
    /\ Forall (fun f =>
                 fix_ f = fallback_fix
                   (lit "Remove code after return statement or restructure logic"))
         (filter (has_message "Unreachable code after return statement")
            (bugs (debugging report))).
Proof.
  destruct (unreachable_fix_generic code language) as (report & Hok & Hall).
  exists report. split; [exact Hok|]. split.
  - apply filter_nothing. revert Hall. apply Forall_impl. now intros f [H _].
  - apply Forall_forall. intros f Hf. apply filter_In in Hf as [Hin Hmsg].
    rewrite Forall_forall in Hall. destruct (Hall f Hin) as [_ H]. now apply H.
Qed.

(* ================================================================== *)
(** * The shape of the list of bugs *)
(* ================================================================== *)

Lemma syntax_bugs_type (code language : jsstring) :
  Forall (fun b => bug_type b = lit "syntax") (syntax_bugs code language).
Proof.
  unfold syntax_bugs, javascript_syntax_bugs, python_syntax_bugs,
    java_syntax_bugs, cpp_syntax_bugs.
  repeat (destruct (str_eqb language _); [bug_pieces|]). constructor.
Qed.

Lemma runtime_bugs_type (code language : jsstring) :
  Forall (fun b => bug_type b = lit "runtime") (runtime_bugs code language).
Proof.
  unfold runtime_bugs.
  repeat (destruct (str_eqb language _); [bug_pieces|]). constructor.
Qed.

Lemma logical_bugs_type (code : jsstring) :
  Forall (fun b => bug_type b = lit "logical") (logical_bugs code).
Proof. unfold logical_bugs. bug_pieces. Qed.

Lemma security_bugs_type (code : jsstring) :
  Forall (fun b => bug_type b = lit "security") (security_bugs code).
Proof. unfold security_bugs. bug_pieces. Qed.

Lemma synthesized_type (t : string) (language : jsstring) (found : list Bug) :
  Forall (fun b => bug_type b = lit t) found ->
  Forall (fun f => type f = lit t) (map (synthesize language) found).
Proof. intros H. apply Forall_map. exact H. Qed.

(** The bugs of a Report are those of the syntax checker, then those of
    the runtime checker, then the logical and then the security ones:
    the list is grouped by type, in this order. *)
Theorem bugs_grouped_by_type (code language : jsstring) :
  exists report syntaxErrors runtimeErrors logicalErrors securityIssues,
    analyzeCode code language = Ok report
    /\ checkSyntaxErrors code language = Ok syntaxErrors
    /\ checkRuntimeErrors code language = Ok runtimeErrors
    /\ checkLogicalErrors code language = Ok logicalErrors
    /\ checkSecurityIssues code language = Ok securityIssues
    /\ bugs (debugging report)
       = syntaxErrors ++ runtimeErrors ++ logicalErrors ++ securityIssues
    /\ Forall (fun f => type f = lit "syntax") syntaxErrors
    /\ Forall (fun f => type f = lit "runtime") runtimeErrors
    /\ Forall (fun f => type f = lit "logical") logicalErrors
    /\ Forall (fun f => type f = lit "security") securityIssues.
Proof.
  destruct (analyzeCode_ok code language) as (report & Hok & Hbugs & _).
  rewrite checkSyntaxErrors_eq, checkRuntimeErrors_eq,
    checkLogicalErrors_eq, checkSecurityIssues_eq.
  exists report. do 4 eexists.
  split; [exact Hok|]. do 4 (split; [reflexivity|]).
  split; [rewrite Hbugs; unfold all_bugs; now rewrite !map_app|].
  split; [apply synthesized_type, syntax_bugs_type|].
  split; [apply synthesized_type, runtime_bugs_type|].
  split; [apply synthesized_type, logical_bugs_type|].
  apply synthesized_type, security_bugs_type.
Qed.

Lemma of_type_synthesized (t t' : string) (language : jsstring)
  (found : list Bug) :
  Forall (fun b => bug_type b = lit t') found ->
  filter (of_type t) (map (synthesize language) found)
  = if str_eqb (lit t') (lit t) then map (synthesize language) found else [].
Proof.
  intros H. destruct (str_eqb (lit t') (lit t)) eqn:E.
  - apply filter_all, Forall_map. revert H. apply Forall_impl.
    intros b Hb. unfold of_type. cbn [type synthesize]. now rewrite Hb.
  - apply filter_nothing, Forall_map. revert H. apply Forall_impl.
    intros b Hb. unfold of_type. cbn [type synthesize]. now rewrite Hb.
Qed.

(** Each counter of a Report is the number of bugs of one checker. *)
Lemma bug_type_counts (code language : jsstring) :
  exists report,
    analyzeCode code language = Ok report
    /\ syntax (bugTypes (debugging report)) = List.length (syntax_bugs code language)
    /\ runtime (bugTypes (debugging report)) = List.length (runtime_bugs code language)
    /\ logical (bugTypes (debugging report)) = List.length (logical_bugs code)
    /\ security (bugTypes (debugging report)) = List.length (security_bugs code).
Proof.
  destruct (analyzeCode_ok code language)
    as (report & Hok & Hbugs & _ & Htypes & _).
  exists report. split; [exact Hok|].
  rewrite Htypes, Hbugs. cbn [syntax runtime logical security].
  unfold all_bugs. rewrite !map_app, !filter_app, !length_app.
  rewrite !(of_type_synthesized _ "syntax" language (syntax_bugs code language)
              (syntax_bugs_type code language)).
  rewrite !(of_type_synthesized _ "runtime" language (runtime_bugs code language)
              (runtime_bugs_type code language)).
  rewrite !(of_type_synthesized _ "logical" language (logical_bugs code)
              (logical_bugs_type code)).
  rewrite !(of_type_synthesized _ "security" language (security_bugs code)
              (security_bugs_type code)).
  repeat match goal with
         | |- context [str_eqb (lit ?a) (lit ?b)] =>
             let v := eval vm_compute in (str_eqb (lit a) (lit b)) in
             change (str_eqb (lit a) (lit b)) with v
         end.
  cbv iota. rewrite !length_map. cbn [List.length]. repeat split; lia.
Qed.

Lemma when_length cond bug : List.length (when cond bug) <= 1.
Proof. unfold when. destruct cond; simpl; lia. Qed.

(** Whatever the text, a Report counts at most two logical and at most
    two security Findings; the runtime checker of python, java and cpp
    (and of a language without rules) gives at most one Finding. *)
Theorem counters_bounded (code language : jsstring) :
  exists report,
    analyzeCode code language = Ok report
    /\ logical (bugTypes (debugging report)) <= 2
    /\ security (bugTypes (debugging report)) <= 2
    /\ (language <> lit "javascript" ->
        runtime (bugTypes (debugging report)) <= 1).
Proof.
  destruct (bug_type_counts code language)
    as (report & Hok & _ & Hruntime & Hlogical & Hsecurity).
  exists report. split; [exact Hok|].
  rewrite Hruntime, Hlogical, Hsecurity.
  assert (Htwo : forall c1 b1 c2 b2,
             List.length (when c1 b1 ++ when c2 b2) <= 2).
  { intros c1 b1 c2 b2. rewrite length_app.
    pose proof (when_length c1 b1). pose proof (when_length c2 b2). lia. }
  split; [apply Htwo|]. split; [apply Htwo|].
  intros Hjs. apply str_eqb_neq in Hjs. unfold runtime_bugs. rewrite Hjs. clear Hjs.
  repeat (destruct (str_eqb language _); [cbv iota; apply when_length|]).
  simpl. lia.
Qed.

Lemma counters_bounded_witness :
  lit "python" <> lit "javascript"
  /\ exists report,
       analyzeCode (lit "x = a / b / c") (lit "python") = Ok report
       /\ runtime (bugTypes (debugging report)) <= 1.
Proof.
  assert (H : lit "python" <> lit "javascript") by discriminate.
  split; [exact H|].
  destruct (counters_bounded (lit "x = a / b / c") (lit "python"))
    as (report & Hok & _ & _ & Hruntime).
  exists report. split; [exact Hok|exact (Hruntime H)].
Defined.

(* ================================================================== *)
(** * Patterns that end at the end of the text *)
(* ================================================================== *)

Lemma exec_here (r : regex) (s : jsstring) :
  forall prev prev0 from rest,
    exec r prev s = Some (prev0, from, rest) ->
    match_here r prev0 from = Some rest.
Proof.
  induction s as [|c s IH]; intros prev prev0 from rest; cbn [exec].
  - destruct (match_here r prev []) as [rest'|] eqn:E; [|discriminate].
    now intros [= <- <- <-].
  - destruct (match_here r prev (c :: s)) as [rest'|] eqn:E.
    + now intros [= <- <- <-].
    + apply IH.
Qed.

Lemma anchored_rest (r : regex) prev s rest :
  match_here (Seq r Eol) prev s = Some rest -> rest = [].
Proof.
  unfold match_here. cbn [rmatch]. intros H.
  apply rmatch_consuming in H as (p' & m & s' & -> & H).
  cbn [rmatch] in H. destruct s'; [|discriminate]. now injection H.
Qed.

(** A pattern that ends with [$] and needs a character matches once at
    most in a global match: its first match runs to the end of the
    text. *)
Lemma match_all_anchored (r : regex) (s : jsstring) :
  (forall prev, match_here (Seq r Eol) prev [] = None) ->
  List.length (match_all (Seq r Eol) s) <= 1.
Proof.
  intros Hempty. unfold match_all. cbn [match_all_from].
  destruct (exec (Seq r Eol) None s) as [[[prev0 from] rest]|] eqn:E;
    [|simpl; lia].
  pose proof (exec_here _ _ _ _ _ _ E) as Hhere.
  apply anchored_rest in Hhere. subst rest.
  cbn [List.length].
  destruct (matched_text from []) as [|x m].
  - simpl. lia.
  - destruct (List.length s) as [|fuel]; cbn [match_all_from]; [simpl; lia|].
    cbn [exec]. rewrite Hempty. simpl. lia.
Qed.

Lemma unclosed_calls_once (code : jsstring) :
  List.length (match_all re_call code) <= 1.
Proof.
  unfold re_call. apply match_all_anchored. intros prev.
  unfold match_here. cbn [rmatch word_after].
  destruct (xorb (word_before prev) false); reflexivity.
Qed.

Lemma unclosed_quotes_once (code : jsstring) :
  List.length (match_all re_quote code) <= 1.
Proof.
  unfold re_quote. apply match_all_anchored. intros prev. reflexivity.
Qed.

Lemma each_singleton_length {A} (g : A -> Bug) (xs : list A) :
  forall i, List.length (each xs i (fun x _ => [g x])) = List.length xs.
Proof.
  induction xs as [|x xs IH]; intros i; simpl; [reflexivity|].
  now rewrite IH.
Qed.

Lemma filter_each_singletons {A} (p : Bug -> bool) (g : A -> Bug) (xs : list A) :
  forall i, List.length (filter p (each xs i (fun x _ => [g x]))) <= List.length xs.
Proof.
  intros i. rewrite <- (each_singleton_length g xs i). apply filter_length_le.
Qed.

Ltac none_pieces :=
  rewrite ?filter_app;
  rewrite ?filter_each_none
    by (intros;
        first [ reflexivity
              | rewrite filter_when, andb_false_r; reflexivity
              | apply filter_each_none; intros;
                rewrite filter_when, andb_false_r; reflexivity ]);
  rewrite ?filter_when, ?andb_false_r.

(** However many calls and strings a text leaves open, the syntax
    checker reports one unclosed call and one unclosed string at most:
    both patterns run to the end of the text, so each matches once. *)
Theorem one_unclosed_finding_at_most (code language : jsstring) :
  exists findings,
    checkSyntaxErrors code language = Ok findings
    /\ List.length
         (filter (has_message "Missing closing parenthesis in function call")
            findings) <= 1
    /\ List.length (filter (has_message "Unclosed string literal") findings) <= 1.
Proof.
  rewrite checkSyntaxErrors_eq. eexists. split; [reflexivity|].
  rewrite !filter_synthesized, !length_map.
  pose proof (unclosed_calls_once code) as Hcalls.
  pose proof (unclosed_quotes_once code) as Hquotes.
  unfold syntax_bugs, javascript_syntax_bugs, python_syntax_bugs,
    java_syntax_bugs, cpp_syntax_bugs, unclosed_quote_bug.
  repeat match goal with
         | |- context [if str_eqb language ?l then _ else _] =>
             destruct (str_eqb language l)
         end.
  all: split.
  all: none_pieces; cbn [when app]; rewrite ?app_nil_r, ?length_app.
  all: repeat match goal with
         | |- context [List.length (filter ?p (each ?xs ?i ?g))] =>
             let n := fresh "n" in
             let Hn := fresh "Hn" in
             first
               [ assert (Hn : List.length (filter p (each xs i g)) = 0)
                   by (rewrite filter_each_none; [reflexivity|intros; reflexivity])
               | assert (Hn : List.length (filter p (each xs i g)) <= List.length xs)
                   by apply filter_each_singletons ];
             revert Hn; generalize (List.length (filter p (each xs i g)));
             intros n Hn
         end.
  all: simpl; lia.
Qed.

(* ================================================================== *)
(** * Where a Finding is located *)
(* ================================================================== *)

Lemma findIndex_range {A} (p : A -> bool) (xs : list A) :
  (-1 <= findIndex p xs < Z.of_nat (List.length xs))%Z.
Proof.
  induction xs as [|x xs IH]; cbn [findIndex List.length]; [lia|].
  destruct (p x); [lia|].
  destruct (Z.ltb_spec (findIndex p xs) 0); lia.
Qed.

Lemma findIndex_none {A} (p : A -> bool) (xs : list A) :
  existsb p xs = false -> findIndex p xs = (-1)%Z.
Proof.
  induction xs as [|x xs IH]; cbn [findIndex existsb]; [reflexivity|].
  intros H. apply orb_false_iff in H as [-> H]. now rewrite (IH H).
Qed.

Lemma findIndex_found {A} (p : A -> bool) (xs : list A) :
  existsb p xs = true ->
  exists n x,
    findIndex p xs = Z.of_nat n
    /\ nth_error xs n = Some x
    /\ p x = true
    /\ forall j y, j < n -> nth_error xs j = Some y -> p y = false.
Proof.
  induction xs as [|x xs IH]; cbn [findIndex existsb]; [discriminate|].
  destruct (p x) eqn:Hx.
  - intros _. exists 0, x. repeat split; auto. intros j y Hj. lia.
  - cbn [orb]. intros H. destruct (IH H) as (n & y & Hfind & Hnth & Hy & Hfirst).
    exists (S n), y. rewrite Hfind.
    destruct (Z.ltb_spec (Z.of_nat n) 0); [lia|].
    repeat split; auto; [lia|].
    intros [|j] z Hj Hz; cbn [nth_error] in Hz.
    + now injection Hz as <-.
    + apply (Hfirst j); [lia|exact Hz].
Qed.

Lemma lineOf_range (p : jsstring -> bool) (code : jsstring) :
  (0 <= lineOf p code <= Z.of_nat (List.length (split_lines code)))%Z.
Proof.
  unfold lineOf. pose proof (findIndex_range p (split_lines code)). lia.
Qed.

Lemma split_lines_cons (c : N) (s : jsstring) :
  exists l ls, split_lines s = l :: ls
               /\ split_lines (c :: s)
                  = if N.eqb c 10 then [] :: l :: ls else (c :: l) :: ls.
Proof.
  pose proof (split_lines_length s) as Hlen.
  destruct (split_lines s) as [|l ls] eqn:E; [simpl in Hlen; lia|].
  exists l, ls. split; [reflexivity|].
  cbn [split_lines]. now rewrite E.
Qed.

Lemma startsWith_first_line (p s : jsstring) :
  no_newline p = true -> startsWith s p = true ->
  exists l ls, split_lines s = l :: ls /\ startsWith l p = true.
Proof.
  revert s. induction p as [|y p IH]; intros s Hp Hs.
  - pose proof (split_lines_length s) as Hlen.
    destruct (split_lines s) as [|l ls]; [simpl in Hlen; lia|].
    exists l, ls. split; [reflexivity|]. now destruct l.
  - destruct s as [|x s]; [discriminate|].
    cbn [startsWith] in Hs. apply andb_true_iff in Hs as [Hxy Hs].
    apply N.eqb_eq in Hxy. subst y.
    unfold no_newline in Hp. cbn [existsb] in Hp.
    apply negb_true_iff, orb_false_iff in Hp as [Hx Hp].
    destruct (IH s) as (l & ls & Hsplit & Hl);
      [unfold no_newline; now rewrite Hp|exact Hs|].
    destruct (split_lines_cons x s) as (l' & ls' & Hsplit' & Hcons).
    rewrite Hsplit in Hsplit'. injection Hsplit' as <- <-.
    rewrite N.eqb_sym in Hx. rewrite Hx in Hcons.
    exists (x :: l), ls. split; [exact Hcons|].
    cbn [startsWith]. now rewrite N.eqb_refl, Hl.
Qed.

Lemma includes_cons (c : N) (l p : jsstring) :
  includes l p = true -> includes (c :: l) p = true.
Proof.
  intros H. rewrite includes_unfold, H. apply orb_true_r.
Qed.

(** A text without a line feed that occurs in the code occurs in one of
    its lines. *)
Lemma includes_some_line (needle code : jsstring) :
  no_newline needle = true ->
  includes code needle = true ->
  existsb (fun l => includes l needle) (split_lines code) = true.
Proof.
  intros Hneedle. induction code as [|c code IH]; intros H.
  - rewrite includes_unfold, orb_false_r in H.
    destruct (startsWith_first_line needle [] Hneedle H) as (l & ls & Hs & Hl).
    rewrite Hs. cbn [existsb]. rewrite includes_unfold, Hl. reflexivity.
  - rewrite includes_unfold in H. apply orb_true_iff in H as [H|H].
    + destruct (startsWith_first_line needle (c :: code) Hneedle H)
        as (l & ls & Hs & Hl).
      rewrite Hs. cbn [existsb]. rewrite includes_unfold, Hl. reflexivity.
    + specialize (IH H).
      destruct (split_lines_cons c code) as (l & ls & Hsplit & Hcons).
      rewrite Hcons. rewrite Hsplit in IH. cbn [existsb] in IH.
      destruct (N.eqb c 10); cbn [existsb].
      * rewrite IH. apply orb_true_r.
      * apply orb_true_iff in IH as [IH|IH].
        -- now rewrite (includes_cons c l needle IH).
        -- rewrite IH. apply orb_true_r.
Qed.

Lemma lineOf_first (p : jsstring -> bool) (code : jsstring) :
  existsb p (split_lines code) = true ->
  first_line_with p code (LineNo (lineOf p code)).
Proof.
  intros H. destruct (findIndex_found p _ H) as (n & x & Hfind & Hnth & Hx & Hfirst).
  exists n, x. unfold lineOf. rewrite Hfind. auto.
Qed.

Lemma existsb_orb {A} (p q : A -> bool) (xs : list A) :
  existsb (fun x => p x || q x) xs = existsb p xs || existsb q xs.
Proof.
  induction xs as [|x xs IH]; [reflexivity|].
  cbn [existsb]. rewrite IH. destruct (p x), (q x), (existsb p xs); reflexivity.
Qed.

Lemma Forall_when_cond (P : Bug -> Prop) cond bug :
  (cond = true -> P bug) -> Forall P (when cond bug).
Proof. intros H. unfold when. destruct cond; auto. Qed.

Ltac some_line :=
  repeat rewrite existsb_orb;
  repeat match goal with
         | H : _ || _ = true |- _ => apply orb_true_iff in H as [H|H]
         | H : _ && _ = true |- _ => apply andb_true_iff in H as [H ?]
         end;
  match goal with
  | H : includes ?code ?needle = true |- _ =>
      rewrite (includes_some_line needle code eq_refl H)
  end;
  rewrite ?orb_true_r; reflexivity.

Lemma logical_bugs_located (code : jsstring) :
  Forall (fun b => first_line_with (trigger (bug_message b)) code (bug_line b))
    (logical_bugs code).
Proof.
  unfold logical_bugs, second_return.
  apply Forall_app; split; apply Forall_when_cond; intros H.
  - apply (lineOf_first
             (fun l => includes l (lit "while(true)") || includes l (lit "for(;;)"))).
    some_line.
  - apply (lineOf_first (fun l => includes l (lit "return"))). some_line.
Qed.

Lemma security_bugs_located (code : jsstring) :
  Forall (fun b => first_line_with (trigger (bug_message b)) code (bug_line b))
    (security_bugs code).
Proof.
  unfold security_bugs.
  apply Forall_app; split; apply Forall_when_cond; intros H.
  - apply (lineOf_first
             (fun l => includes l (lit "SELECT") || includes l (lit "INSERT")
                       || includes l (lit "UPDATE"))).
    some_line.
  - apply (lineOf_first
             (fun l => includes l (lit "innerHTML")
                       || includes l (lit "document.write"))).
    some_line.
Qed.

Lemma runtime_bugs_located (code language : jsstring) :
  str_eqb language (lit "javascript") = false ->
  Forall (fun b => first_line_with (trigger (bug_message b)) code (bug_line b))
    (runtime_bugs code language).
Proof.
  intros Hjs. unfold runtime_bugs. rewrite Hjs. clear Hjs.
  repeat (destruct (str_eqb language _);
          [cbv iota; apply Forall_when_cond; intros H|]).
  - apply (lineOf_first (fun l => includes l (lit "/"))). some_line.
  - apply (lineOf_first (fun l => includes l (lit "."))). some_line.
  - apply (lineOf_first (fun l => includes l (lit "new "))). some_line.
  - constructor.
Qed.

(** The Findings that are located by a fixed text (those of the logical
    and security checkers, and those of the runtime checker outside
    javascript) carry the 1-based number of the first line of the code
    that holds the text. *)
Theorem located_at_first_line (code language : jsstring) :
  language <> lit "javascript" ->
  exists runtimeErrors logicalErrors securityIssues,
    checkRuntimeErrors code language = Ok runtimeErrors
    /\ checkLogicalErrors code language = Ok logicalErrors
    /\ checkSecurityIssues code language = Ok securityIssues
    /\ Forall (fun f => first_line_with (trigger (message f)) code (line f))
         (runtimeErrors ++ logicalErrors ++ securityIssues).
Proof.
  intros Hjs. apply str_eqb_neq in Hjs.
  rewrite checkRuntimeErrors_eq, checkLogicalErrors_eq, checkSecurityIssues_eq.
  do 3 eexists. do 3 (split; [reflexivity|]).
  rewrite <- !map_app. apply Forall_map.
  apply Forall_app; split; [exact (runtime_bugs_located code language Hjs)|].
  apply Forall_app; split.
  - exact (logical_bugs_located code).
  - exact (security_bugs_located code).
Qed.

Lemma located_at_first_line_witness :
  lit "cpp" <> lit "javascript"
  /\ exists runtimeErrors logicalErrors securityIssues,
       checkRuntimeErrors (lit "int a;\nint* p = new int;\nreturn 0;") (lit "cpp")
       = Ok runtimeErrors
       /\ checkLogicalErrors (lit "int a;\nint* p = new int;\nreturn 0;") (lit "cpp")
          = Ok logicalErrors
       /\ checkSecurityIssues (lit "int a;\nint* p = new int;\nreturn 0;") (lit "cpp")
          = Ok securityIssues
       /\ Forall (fun f => first_line_with (trigger (message f))
                             (lit "int a;\nint* p = new int;\nreturn 0;") (line f))
            (runtimeErrors ++ logicalErrors ++ securityIssues).
Proof.
  assert (H : lit "cpp" <> lit "javascript") by discriminate.
  split; [exact H|].
  exact (located_at_first_line
           (lit "int a;\nint* p = new int;\nreturn 0;") (lit "cpp") H).
Defined.

Lemma Forall_each_index {A} (P : Bug -> Prop) (g : A -> nat -> list Bug)
  (xs : list A) :
  forall first,
    (forall x i, first <= i < first + List.length xs -> Forall P (g x i)) ->
    Forall P (each xs first g).
Proof.
  induction xs as [|x xs IH]; intros first Hg; cbn [each]; [constructor|].
  apply Forall_app. split.
  - apply Hg. cbn [List.length]. lia.
  - apply IH. intros y i Hi. apply Hg. cbn [List.length]. lia.
Qed.

Ltac within_pieces code :=
  repeat (apply Forall_app; split);
  repeat first
    [ apply Forall_each_index; intros
    | apply Forall_when
    | apply Forall_cons
    | apply Forall_nil ];
  unfold line_within;
  cbn [bug_line missing_semicolon_bug unclosed_call_bug unclosed_quote_bug
         indentation_bug missing_colon_bug undefined_variable_bug
         infinite_loop_bug unreachable_bug unmatched_braces_bug line_number];
  try reflexivity;
  try apply lineOf_range;
  try (pose proof (split_lines_length code); lia).

Lemma all_bugs_within (code language : jsstring) :
  Forall (fun b => line_within (List.length (split_lines code)) (bug_line b))
    (all_bugs code language).
Proof.
  unfold all_bugs.
  apply Forall_app; split.
  { unfold syntax_bugs, javascript_syntax_bugs, python_syntax_bugs,
      java_syntax_bugs, cpp_syntax_bugs.
    repeat (destruct (str_eqb language _); [within_pieces code|]). constructor. }
  apply Forall_app; split.
  { unfold runtime_bugs.
    repeat (destruct (str_eqb language _); [within_pieces code|]). constructor. }
  apply Forall_app; split.
  - unfold logical_bugs. within_pieces code.
  - unfold security_bugs. within_pieces code.
Qed.

(** The line of every Finding of a Report is the text 'Multiple lines'
    or a number between 0 and the count of lines: no Finding points
    past the end of the text. *)
Theorem finding_lines_within (code language : jsstring) :
  exists report,
    analyzeCode code language = Ok report
    /\ Forall (fun f => line_within (totalLines (codeAnalysis report)) (line f))
         (bugs (debugging report)).
Proof.
  destruct (analyzeCode_ok code language)
    as (report & Hok & Hbugs & _ & _ & _ & Hlines & _).
  exists report. split; [exact Hok|].
  rewrite Hbugs, Hlines. apply Forall_map. apply all_bugs_within.
Qed.

(* ================================================================== *)
(** * A call left open across lines *)
(* ================================================================== *)

Lemma last_of_cons (prev : option N) (x : N) (m : jsstring) :
  last_of prev (x :: m) = last_of (Some x) m.
Proof.
  unfold last_of. cbn [rev]. destruct (rev m); reflexivity.
Qed.

Lemma rmatch_cls_nil (p : N -> bool) prev (k : continuation) :
  rmatch (Cls p) prev [] k = None.
Proof. reflexivity. Qed.

Lemma rmatch_cls_cons (p : N -> bool) prev (x : N) (s : jsstring)
  (k : continuation) :
  rmatch (Cls p) prev (x :: s) k = if p x then k (Some x) s else None.
Proof. reflexivity. Qed.

(** The greedy star of a class takes every character of the class that
    stands at the position, when the rest of the pattern matches after
    them. *)
Lemma star_class_greedy (p : N -> bool) (k : continuation) (m : jsstring) :
  forall fuel prev rest r,
    forallb p m = true ->
    match rest with c :: _ => p c = false | [] => True end ->
    k (last_of prev m) rest = Some r ->
    List.length (m ++ rest) <= fuel ->
    star_loop (rmatch (Cls p)) k fuel prev (m ++ rest) = Some r.
Proof.
  induction m as [|x m IH]; intros fuel prev rest r Hm Hrest Hk Hfuel.
  - cbn [app]. destruct fuel as [|fuel]; cbn [star_loop]; [exact Hk|].
    destruct rest as [|c rest].
    + rewrite rmatch_cls_nil. exact Hk.
    + rewrite rmatch_cls_cons, Hrest. exact Hk.
  - cbn [forallb] in Hm. apply andb_true_iff in Hm as [Hx Hm].
    destruct fuel as [|fuel]; [cbn [app List.length] in Hfuel; lia|].
    cbn [app star_loop]. rewrite rmatch_cls_cons, Hx.
    assert (Hlt : Nat.ltb (List.length (m ++ rest))
                    (List.length (x :: m ++ rest)) = true).
    { apply Nat.ltb_lt. cbn [List.length]. lia. }
    rewrite Hlt.
    rewrite (IH fuel (Some x) rest r); auto.
    + now rewrite <- last_of_cons with (prev := prev).
    + cbn [app List.length] in Hfuel. lia.
Qed.

Lemma split_lines_no_newline (code : jsstring) :
  Forall (fun l => existsb (N.eqb 10) l = false) (split_lines code).
Proof.
  induction code as [|c code IH]; [repeat constructor|].
  destruct (split_lines_cons c code) as (l & ls & Hsplit & Hcons).
  rewrite Hcons. rewrite Hsplit in IH. inversion IH as [|? ? Hl Hls]; subst.
  destruct (N.eqb c 10) eqn:E.
  - constructor; [reflexivity|exact IH].
  - constructor; [|exact Hls]. cbn [existsb].
    rewrite N.eqb_sym, E. exact Hl.
Qed.

Lemma startsWith_exists (q : N -> bool) (p s : jsstring) :
  startsWith s p = true -> existsb q p = true -> existsb q s = true.
Proof.
  revert s. induction p as [|y p IH]; intros s Hs Hq; [discriminate|].
  destruct s as [|x s]; [discriminate|].
  cbn [startsWith] in Hs. apply andb_true_iff in Hs as [Hxy Hs].
  apply N.eqb_eq in Hxy. subst y. cbn [existsb] in *.
  apply orb_true_iff in Hq as [Hq|Hq]; [now rewrite Hq|].
  rewrite (IH s Hs Hq). apply orb_true_r.
Qed.

Lemma includes_exists (q : N -> bool) (p s : jsstring) :
  includes s p = true -> existsb q p = true -> existsb q s = true.
Proof.
  intros Hs Hq. induction s as [|x s IH].
  - rewrite includes_unfold, orb_false_r in Hs.
    exact (startsWith_exists q p [] Hs Hq).
  - rewrite includes_unfold in Hs. apply orb_true_iff in Hs as [Hs|Hs].
    + exact (startsWith_exists q p (x :: s) Hs Hq).
    + cbn [existsb]. rewrite (IH Hs). apply orb_true_r.
Qed.

(** A text that holds a line feed is in no line: the search for its
    line gives 0. *)
Lemma lineOf_across_lines (needle code : jsstring) :
  existsb (N.eqb 10) needle = true ->
  lineOf (fun l => includes l needle) code = 0%Z.
Proof.
  intros Hneedle. unfold lineOf. rewrite findIndex_none; [reflexivity|].
  pose proof (split_lines_no_newline code) as Hlines.
  induction Hlines as [|l ls Hl _ IH]; [reflexivity|].
  cbn [existsb]. rewrite IH, orb_false_r.
  destruct (includes l needle) eqn:E; [|reflexivity].
  rewrite (includes_exists _ _ _ E Hneedle) in Hl. discriminate.
Qed.

Lemma rmatch_seq (r1 r2 : regex) prev s (k : continuation) :
  rmatch (Seq r1 r2) prev s k
  = rmatch r1 prev s (fun prev' s' => rmatch r2 prev' s' k).
Proof. reflexivity. Qed.

Lemma rmatch_plus (r : regex) prev s (k : continuation) :
  rmatch (Plus r) prev s k
  = rmatch r prev s
      (fun prev1 s1 => star_loop (rmatch r) k (List.length s1) prev1 s1).
Proof. reflexivity. Qed.

Lemma rmatch_star (r : regex) prev s (k : continuation) :
  rmatch (Star r) prev s k = star_loop (rmatch r) k (List.length s) prev s.
Proof. reflexivity. Qed.

Lemma rmatch_wordb prev s (k : continuation) :
  rmatch WordB prev s k
  = if xorb (word_before prev) (word_after s) then k prev s else None.
Proof. reflexivity. Qed.

Lemma rmatch_chr_cons (c x : N) prev (s : jsstring) (k : continuation) :
  rmatch (Chr c) prev (x :: s) k = if N.eqb x c then k (Some x) s else None.
Proof. reflexivity. Qed.

Lemma match_here_open_call (name body : jsstring) :
  name <> [] ->
  forallb is_word name = true ->
  forallb (is_not [chr ")"]) body = true ->
  match_here re_call None (name ++ lit "(" ++ body) = Some [].
Proof.
  intros Hname Hword Hbody.
  destruct name as [|x name]; [contradiction|].
  cbn [forallb] in Hword. apply andb_true_iff in Hword as [Hx Hword].
  unfold match_here, re_call.
  rewrite !rmatch_seq, rmatch_wordb.
  cbn [app word_before word_after]. rewrite Hx. cbn [xorb].
  rewrite rmatch_plus, rmatch_cls_cons, Hx.
  apply star_class_greedy; [exact Hword|reflexivity| |lia].
  rewrite rmatch_star.
  apply (star_class_greedy is_space _ [] _ _ (lit "(" ++ body));
    [reflexivity|reflexivity| |cbn [app]; lia].
  change (lit "(" ++ body) with (chr "(" :: body).
  rewrite rmatch_chr_cons, N.eqb_refl, rmatch_star.
  pose proof (star_class_greedy (is_not [chr ")"])
                (fun prev' s' => rmatch Eol prev' s' (fun _ rest => Some rest))
                body (List.length body) (Some (chr "(")) [] []
                Hbody I eq_refl) as Hstar.
  rewrite app_nil_r in Hstar. apply Hstar. lia.
Qed.

Lemma match_all_open_call (name body : jsstring) :
  name <> [] ->
  forallb is_word name = true ->
  forallb (is_not [chr ")"]) body = true ->
  match_all re_call (name ++ lit "(" ++ body) = [name ++ lit "(" ++ body].
Proof.
  intros Hname Hword Hbody.
  pose proof (match_here_open_call name body Hname Hword Hbody) as Hhere.
  assert (Hne : name ++ lit "(" ++ body <> []).
  { destruct name; [contradiction|discriminate]. }
  generalize dependent (name ++ lit "(" ++ body). intros code Hhere Hne.
  assert (Hexec : exec re_call None code = Some (None, code, [])).
  { destruct code; cbn [exec]; now rewrite Hhere. }
  unfold match_all. cbn [match_all_from]. rewrite Hexec.
  assert (Htext : matched_text code [] = code).
  { unfold matched_text. cbn [List.length]. rewrite Nat.sub_0_r.
    apply firstn_all. }
  rewrite Htext.
  destruct code as [|c code']; [contradiction|].
  f_equal. cbn [List.length match_all_from exec].
  assert (Hend : forall prev, match_here re_call prev [] = None).
  { intros prev. unfold match_here, re_call. cbn [rmatch word_after].
    destruct (xorb (word_before prev) false); reflexivity. }
  now rewrite Hend.
Qed.

(** A javascript call that is left open and runs across a line break is
    reported at line 0, which is no line of the text: the matched text
    holds the line feed, and no single line contains it. *)
Theorem open_call_across_lines_at_line_zero (name body : jsstring) :
  name <> [] ->
  forallb is_word name = true ->
  forallb (is_not [chr ")"]) body = true ->
  existsb (N.eqb 10) body = true ->
  exists findings f,
    checkSyntaxErrors (name ++ lit "(" ++ body) (lit "javascript") = Ok findings
    /\ filter (has_message "Missing closing parenthesis in function call") findings
       = [f]
    /\ line f = LineNo 0.
Proof.
  intros Hname Hword Hbody Hnewline.
  pose proof (match_all_open_call name body Hname Hword Hbody) as Hall.
  assert (Hfeed : existsb (N.eqb 10) (name ++ lit "(" ++ body) = true).
  { rewrite !existsb_app, Hnewline. now rewrite !orb_true_r. }
  generalize dependent (name ++ lit "(" ++ body). intros code Hall Hfeed.
  rewrite checkSyntaxErrors_eq.
  change (syntax_bugs code (lit "javascript")) with (javascript_syntax_bugs code).
  exists (map (synthesize (lit "javascript")) (javascript_syntax_bugs code)),
    (synthesize (lit "javascript") (unclosed_call_bug code code)).
  split; [reflexivity|].
  rewrite filter_synthesized.
  unfold javascript_syntax_bugs. rewrite Hall.
  change (each [code] 0 (fun call _ => [unclosed_call_bug code call]))
    with [unclosed_call_bug code code].
  rewrite !filter_app.
  rewrite !filter_each_none
    by (intros; first [ reflexivity | rewrite filter_when, andb_false_r; reflexivity ]).
  rewrite filter_when.
  change (bug_has_message "Missing closing parenthesis in function call"
            unmatched_braces_bug) with false.
  rewrite andb_false_r.
  cbn [each when app filter].
  change (bug_has_message "Missing closing parenthesis in function call"
            (unclosed_call_bug code code)) with true.
  cbv iota. rewrite ?app_nil_r. split; [reflexivity|].
  cbn [line synthesize unclosed_call_bug bug_line]. f_equal.
  now apply lineOf_across_lines.
Qed.

Lemma open_call_across_lines_witness :
  lit "render" <> []
  /\ forallb is_word (lit "render") = true
  /\ forallb (is_not [chr ")"]) (lit "first,\n  second") = true
  /\ existsb (N.eqb 10) (lit "first,\n  second") = true
  /\ exists findings f,
       checkSyntaxErrors (lit "render" ++ lit "(" ++ lit "first,\n  second")
         (lit "javascript") = Ok findings
       /\ filter (has_message "Missing closing parenthesis in function call")
            findings = [f]
       /\ line f = LineNo 0.
Proof.
  assert (H : lit "render" <> []) by discriminate.
  split; [exact H|]. do 3 (split; [reflexivity|]).
  apply (open_call_across_lines_at_line_zero
           (lit "render") (lit "first,\n  second") H); reflexivity.
Defined.

(* ================================================================== *)
(** * Rules on lines *)
(* ================================================================== *)

Lemma flagged_each_lines (m : string) (test : jsstring -> bool)
  (bug : nat -> Bug) :
  (forall i, bug_has_message m (bug i) = true) ->
  (forall i, bug_line (bug i) = line_number i) ->
  forall lines index,
    map bug_line
      (filter (bug_has_message m)
         (each lines index (fun l i => when (test l) (bug i))))
    = map (fun il => line_number (fst il))
        (filter (fun il => test (snd il)) (numbered index lines)).
Proof.
  intros Hmsg Hline. induction lines as [|l lines IH]; intros index;
    [reflexivity|].
  cbn [each numbered filter]. rewrite filter_app, map_app, IH.
  cbn [snd fst]. destruct (test l); cbn [when filter app map]; [|reflexivity].
  now rewrite Hmsg, <- Hline.
Qed.

Lemma trimStart_split (l : jsstring) :
  exists m,
    l = m ++ trimStart l
    /\ forallb is_space m = true
    /\ match trimStart l with c :: _ => is_space c = false | [] => True end.
Proof.
  induction l as [|c l (m & Hl & Hm & Hrest)].
  - exists []. repeat split.
  - cbn [trimStart]. destruct (is_space c) eqn:E.
    + exists (c :: m). cbn [app forallb]. rewrite E, Hm.
      repeat split; [now f_equal|exact Hrest].
    + exists []. repeat split. exact E.
Qed.

(** The pattern of the indentation rule matches the white space that a
    line starts with, all of it. *)
Lemma indentOf_leading_space (l : jsstring) : indentOf l = leading_space l.
Proof.
  unfold indentOf, leading_space, match_first.
  destruct (trimStart_split l) as (m & Hl & Hm & Hrest).
  assert (Hhere : match_here re_indent None l = Some (trimStart l)).
  { unfold match_here, re_indent. rewrite rmatch_seq.
    change (rmatch Bol None l ?k) with (k None l). cbv beta.
    rewrite rmatch_star. rewrite Hl at 1 2.
    apply star_class_greedy; [exact Hm|exact Hrest|reflexivity|lia]. }
  assert (Hexec : exec re_indent None l = Some (None, l, trimStart l)).
  { destruct l; cbn [exec]; now rewrite Hhere. }
  rewrite Hexec. unfold matched_text. rewrite length_firstn. lia.
Qed.

Lemma python_indentation_bugs (code : jsstring) :
  map bug_line
    (filter (bug_has_message "Incorrect indentation") (python_syntax_bugs code))
  = lines_where (fun l => negb (Nat.eqb (leading_space l mod 4) 0)) code.
Proof.
  unfold python_syntax_bugs, lines_where.
  rewrite !filter_app, !map_app.
  rewrite (flagged_each_lines "Incorrect indentation"
             (fun l => negb (Nat.eqb (indentOf l mod 4) 0)) indentation_bug)
    by reflexivity.
  rewrite !filter_each_none
    by (intros;
        first [ reflexivity
              | apply filter_each_none; intros;
                rewrite filter_when; 
                replace (bug_has_message _ _) with false by reflexivity;
                rewrite andb_false_r; reflexivity ]).
  cbn [map app]. rewrite app_nil_r.
  f_equal. apply filter_ext. intros [i l]. cbn [snd].
  now rewrite indentOf_leading_space.
Qed.

(** The indentation rule of python, line by line: a line gets one
    'Incorrect indentation' Finding, at its 1-based number, if and only
    if the count of white-space characters it starts with is no multiple
    of 4.  Every white-space character counts for one, a tab as well,
    and lines of white space only are tested like the others. *)
Theorem python_indentation_rule (code : jsstring) :
  exists findings,
    checkSyntaxErrors code (lit "python") = Ok findings
    /\ map line (filter (has_message "Incorrect indentation") findings)
       = lines_where (fun l => negb (Nat.eqb (leading_space l mod 4) 0)) code.
Proof.
  rewrite checkSyntaxErrors_eq. eexists. split; [reflexivity|].
  rewrite filter_synthesized, map_line_synthesized.
  apply python_indentation_bugs.
Qed.

Lemma Forall_filter {A} (P : A -> Prop) (p : A -> bool) (xs : list A) :
  Forall (fun x => p x = true -> P x) xs -> Forall P (filter p xs).
Proof.
  induction 1 as [|x xs Hx _ IH]; [constructor|].
  cbn [filter]. destruct (p x) eqn:E; [constructor; auto|exact IH].
Qed.

Lemma python_runtime_bugs (code : jsstring) :
  runtime_bugs code (lit "python")
  = when (includes code (lit "/"))
      {| bug_type := lit "runtime";
         bug_message := lit "Potential division by zero";
         bug_line := LineNo (lineOf (fun line => includes line (lit "/")) code);
         bug_fix := lit "Add check for zero before division" |}.
Proof. reflexivity. Qed.

(** Of the bugs of a python text, those on indentation are bugs of the
    syntax checker. *)
Lemma python_indentation_all (code : jsstring) :
  filter (bug_has_message "Incorrect indentation") (all_bugs code (lit "python"))
  = filter (bug_has_message "Incorrect indentation") (python_syntax_bugs code).
Proof.
  unfold all_bugs. rewrite python_runtime_bugs.
  change (syntax_bugs code (lit "python")) with (python_syntax_bugs code).
  unfold logical_bugs, security_bugs.
  rewrite !filter_app, !filter_when.
  repeat match goal with
         | |- context [when (?c && bug_has_message ?m ?b) ?b] =>
             change (bug_has_message m b) with false;
             replace (when (c && false) b) with (@nil Bug)
               by (now rewrite andb_false_r)
         end.
  cbn [app]. now rewrite !app_nil_r.
Qed.

(** The Fix of a bug on indentation under python is the entry of the
    catalog, which shows the body indented by four spaces. *)
Lemma python_indentation_fix (code : jsstring) :
  Forall (fun b => bug_has_message "Incorrect indentation" b = true ->
                   indentation_finding (synthesize (lit "python") b))
    (python_syntax_bugs code).
Proof.
  unfold python_syntax_bugs.
  repeat (apply Forall_app; split);
    repeat first [ apply Forall_each; intros
                 | apply Forall_when
                 | apply Forall_cons
                 | apply Forall_nil ].
  - intros _. split; [reflexivity|]. split; [reflexivity|].
    eexists. split; reflexivity.
  - intros H. discriminate H.
  - intros H. discriminate H.
Qed.

(** C5: under python a line gets a Finding of type syntax with the
    message 'Incorrect indentation' if and only if the count of
    white-space characters it starts with is no multiple of 4, each at
    the 1-based number of its line and with a Fix that shows code
    indented by four spaces.  Both lines of the example of the
    specification start without white space, so its Report has no
    Finding; with the second line indented by one space the Report has
    one Finding on indentation, at line 2. *)
Theorem python_indentation_findings :
  (forall code,
      exists report,
        analyzeCode code (lit "python") = Ok report
        /\ map line (filter (has_message "Incorrect indentation")
                       (bugs (debugging report)))
           = lines_where (fun l => negb (Nat.eqb (leading_space l mod 4) 0)) code
        /\ Forall indentation_finding
             (filter (has_message "Incorrect indentation")
                (bugs (debugging report))))
  /\ (exists report,
         analyzeCode python_example (lit "python") = Ok report
         /\ bugs (debugging report) = [])
  /\ (exists report f,
         analyzeCode python_one_space (lit "python") = Ok report
         /\ bugs (debugging report) = [f]
         /\ indentation_finding f
         /\ line f = LineNo 2).
Proof.
  split; [|split].
  - intros code.
    destruct (analyzeCode_ok code (lit "python")) as (report & Hok & Hbugs & _).
    exists report. split; [exact Hok|].
    rewrite Hbugs, filter_synthesized, python_indentation_all. split.
    + rewrite map_line_synthesized. apply python_indentation_bugs.
    + apply Forall_map, Forall_filter, python_indentation_fix.
  - destruct (analyzeCode_ok python_example (lit "python"))
      as (report & Hok & Hbugs & _).
    exists report. split; [exact Hok|]. rewrite Hbugs. reflexivity.
  - destruct (analyzeCode_ok python_one_space (lit "python"))
      as (report & Hok & Hbugs & _).
    exists report. eexists. split; [exact Hok|]. rewrite Hbugs.
    split; [vm_compute; reflexivity|].
    split; [|reflexivity].
    split; [reflexivity|]. split; [reflexivity|].
    eexists. split; reflexivity.
Qed.

(** The example as the specification has it fails: the Report of the
    example has no Finding at all. *)
Lemma python_example_counterexample : ~ python_example_spec.
Proof.
  intros (report & f & Hok & Hin & _).
  destruct (analyzeCode_ok python_example (lit "python"))
    as (report' & Hok' & Hbugs & _).
  rewrite Hok' in Hok. injection Hok as <-.
  rewrite Hbugs in Hin.
  replace (all_bugs python_example (lit "python")) with (@nil Bug) in Hin
    by (vm_compute; reflexivity).
  exact Hin.
Qed.

Lemma c_missing_semicolon_flagged (l : jsstring) :
  c_missing_semicolon (trim l) = flagged_c l.
Proof.
  unfold c_missing_semicolon, flagged_c.
  cbv zeta. cbn [map existsb].
  rewrite !orb_false_r, !negb_orb, !andb_assoc. reflexivity.
Qed.

Lemma c_missing_semicolons (rest : list Bug) (code : jsstring) :
  filter (bug_has_message "Missing semicolon") rest = [] ->
  map bug_line
    (filter (bug_has_message "Missing semicolon")
       (each (split_lines code) 0 (fun line index =>
          when (c_missing_semicolon (trim line)) (missing_semicolon_bug index))
        ++ rest))
  = lines_where flagged_c code.
Proof.
  intros Hrest. unfold lines_where.
  rewrite filter_app, Hrest, app_nil_r.
  rewrite (flagged_each_lines "Missing semicolon"
             (fun l => c_missing_semicolon (trim l)) missing_semicolon_bug)
    by reflexivity.
  f_equal. apply filter_ext. intros [i l]. cbn [snd].
  apply c_missing_semicolon_flagged.
Qed.

(** The missing-semicolon rule of java and of cpp, line by line: a line
    gets one 'Missing semicolon' Finding, at its 1-based number, if and
    only if it is not empty after trimming, does not end with [;], [{]
    or [}], contains none of if, for, while and class, and does not
    start with //, /* or *.  Unlike for javascript, a line that starts
    with const, let or var is not exempt, and function is no keyword. *)
Theorem c_missing_semicolon_rule (code language : jsstring) :
  language = lit "java" \/ language = lit "cpp" ->
  exists findings,
    checkSyntaxErrors code language = Ok findings
    /\ map line (filter (has_message "Missing semicolon") findings)
       = lines_where flagged_c code.
Proof.
  intros Hlang. rewrite checkSyntaxErrors_eq. eexists. split; [reflexivity|].
  rewrite filter_synthesized, map_line_synthesized.
  destruct Hlang as [-> | ->].
  - change (syntax_bugs code (lit "java")) with (java_syntax_bugs code).
    unfold java_syntax_bugs. apply c_missing_semicolons.
    rewrite filter_app, !filter_when.
    now rewrite !andb_false_r.
  - change (syntax_bugs code (lit "cpp")) with (cpp_syntax_bugs code).
    unfold cpp_syntax_bugs. apply c_missing_semicolons.
    rewrite filter_app, !filter_when.
    now rewrite !andb_false_r.
Qed.

Lemma c_missing_semicolon_rule_witness :
  (lit "java" = lit "java" \/ lit "java" = lit "cpp")
  /\ exists findings,
       checkSyntaxErrors (lit "let total = 0\nclass A\nint function_count")
         (lit "java") = Ok findings
       /\ map line (filter (has_message "Missing semicolon") findings)
          = lines_where flagged_c (lit "let total = 0\nclass A\nint function_count").
Proof.
  assert (H : lit "java" = lit "java" \/ lit "java" = lit "cpp")
    by (left; reflexivity).
  split; [exact H|].
  exact (c_missing_semicolon_rule
           (lit "let total = 0\nclass A\nint function_count") (lit "java") H).
Defined.

(* ================================================================== *)
(** * The numbers of the Report *)
(* ================================================================== *)

Lemma split_lines_count (code : jsstring) :
  List.length (split_lines code) = count_char 10 code + 1.
Proof.
  induction code as [|c code IH]; [reflexivity|].
  destruct (split_lines_cons c code) as (l & ls & Hsplit & Hcons).
  rewrite Hcons. rewrite Hsplit in IH. unfold count_char in *.
  cbn [filter]. rewrite (N.eqb_sym 10 c).
  destruct (N.eqb c 10); cbn [List.length] in *; lia.
Qed.

Lemma analyzeCode_lines (code language : jsstring) :
  exists report,
    analyzeCode code language = Ok report
    /\ totalLines (codeAnalysis report) = List.length (split_lines code)
    /\ commentLines (codeAnalysis report) <= List.length (split_lines code)
    /\ functionCount (codeAnalysis report) <= List.length (split_lines code)
    /\ codeToCommentRatio (codeAnalysis report)
       = num_scale (num_div (commentLines (codeAnalysis report))
                            (List.length (split_lines code))) 100%Q.
Proof.
  unfold analyzeCode.
  rewrite generateBestPractices_eq, analyzePotentialBugs_eq.
  cbv beta iota delta [bind].
  eexists. split; [reflexivity|].
  cbn [codeAnalysis totalLines commentLines functionCount codeToCommentRatio].
  repeat split; apply filter_length_le.
Qed.

Lemma ratio_bounds (c t : nat) :
  c <= t -> 0 < t ->
  exists q, num_scale (num_div c t) 100%Q = Finite q
            /\ (0 <= q)%Q /\ (q <= 100)%Q.
Proof.
  intros Hle Hpos. destruct t as [|t]; [lia|].
  exists ((Z.of_nat c # Pos.of_nat (S t)) * 100)%Q.
  split; [destruct c; reflexivity|].
  unfold Qle, Qmult. cbn [Qnum Qden].
  rewrite Pos.mul_1_r.
  assert (Hden : Z.pos (Pos.of_nat (S t)) = Z.of_nat (S t)).
  { rewrite <- positive_nat_Z, Nat2Pos.id by lia. reflexivity. }
  rewrite Hden. split; lia.
Qed.

(** The line counts of a Report: the text has one line more than it has
    line feeds; comment lines and lines with a function are counted
    among them, so neither count exceeds the total, and the comment
    ratio is a number from 0 to 100. *)
Theorem report_line_counts (code language : jsstring) :
  exists report,
    analyzeCode code language = Ok report
    /\ totalLines (codeAnalysis report) = count_char 10 code + 1
    /\ commentLines (codeAnalysis report) <= totalLines (codeAnalysis report)
    /\ functionCount (codeAnalysis report) <= totalLines (codeAnalysis report)
    /\ exists q, codeToCommentRatio (codeAnalysis report) = Finite q
                 /\ (0 <= q)%Q /\ (q <= 100)%Q.
Proof.
  destruct (analyzeCode_lines code language)
    as (report & Hok & Htotal & Hcomment & Hfunction & Hratio).
  exists report. split; [exact Hok|].
  rewrite Htotal, Hratio.
  split; [apply split_lines_count|]. split; [exact Hcomment|].
  split; [exact Hfunction|].
  apply ratio_bounds; [exact Hcomment|].
  pose proof (split_lines_length code). lia.
Qed.

(* ================================================================== *)
(** * The metrics *)
(* ================================================================== *)

Lemma complexity_level_high (n : nat) : 20 < n -> complexity_level n = High.
Proof.
  intros H. unfold complexity_level.
  destruct (Nat.ltb_spec 20 n); [reflexivity|lia].
Qed.

Lemma complexity_level_medium (n : nat) :
  10 < n -> 1 <= level_rank (complexity_level n).
Proof.
  intros H. unfold complexity_level.
  destruct (Nat.ltb_spec 20 n); [simpl; lia|].
  destruct (Nat.ltb_spec 10 n); [simpl; lia|lia].
Qed.

Lemma score_counts_braces (code : jsstring) :
  count_char (chr "{") code <= complexity_score code.
Proof.
  unfold complexity_score. rewrite <- (match_all_chr (chr "{") code).
  fold re_open. lia.
Qed.

(** Opening braces alone raise the complexity: more than 10 of them give
    Medium at least, more than 20 give High, whatever else the text
    holds and whatever the language. *)
Theorem braces_raise_complexity (code language : jsstring) :
  (10 < count_char (chr "{") code ->
   1 <= level_rank (calculateComplexity code language))
  /\ (20 < count_char (chr "{") code ->
      calculateComplexity code language = High).
Proof.
  pose proof (score_counts_braces code) as Hscore.
  unfold calculateComplexity. split; intros H.
  - apply complexity_level_medium. lia.
  - apply complexity_level_high. lia.
Qed.

Lemma braces_raise_complexity_witness :
  (10 < count_char (chr "{") (lit "{{{{{{{{{{{{{{{{{{{{{")
   /\ 1 <= level_rank (calculateComplexity (lit "{{{{{{{{{{{{{{{{{{{{{") (lit "cpp")))
  /\ (20 < count_char (chr "{") (lit "{{{{{{{{{{{{{{{{{{{{{")
      /\ calculateComplexity (lit "{{{{{{{{{{{{{{{{{{{{{") (lit "cpp") = High).
Proof.
  destruct (braces_raise_complexity (lit "{{{{{{{{{{{{{{{{{{{{{") (lit "cpp"))
    as [Hmedium Hhigh].
  assert (H10 : 10 < count_char (chr "{") (lit "{{{{{{{{{{{{{{{{{{{{{"))
    by (vm_compute; lia).
  assert (H20 : 20 < count_char (chr "{") (lit "{{{{{{{{{{{{{{{{{{{{{"))
    by (vm_compute; lia).
  split; split; auto.
Defined.

Lemma sum_of_lengths (lines : list jsstring) :
  Forall (fun l => List.length l <= 80) lines ->
  forall acc,
    fold_left (fun acc line => acc + List.length line) lines acc
    <= acc + 80 * List.length lines.
Proof.
  induction 1 as [|l lines Hl _ IH]; intros acc; cbn [fold_left List.length];
    [lia|].
  specialize (IH (acc + List.length l)). lia.
Qed.

Lemma num_gt_count (a b : nat) (scale : Q) :
  (inject_Z (Z.of_nat a) <= inject_Z (Z.of_nat b) * scale)%Q ->
  num_gt (count a) (num_scale (count b) scale) = false.
Proof.
  intros H. unfold count, num_scale, num_gt.
  apply negb_false_iff. now apply Qle_bool_iff.
Qed.

(** A text whose lines all have 80 characters at most is rated High for
    maintainability. *)
Theorem short_lines_maintainable (code : jsstring) :
  forallb (fun l => Nat.leb (List.length l) 80) (split_lines code) = true ->
  calculateMaintainability code = High.
Proof.
  intros Hshort. rewrite forallb_forall in Hshort.
  assert (Hall : Forall (fun l => List.length l <= 80) (split_lines code)).
  { apply Forall_forall. intros l Hl. apply Nat.leb_le. now apply Hshort. }
  unfold calculateMaintainability.
  pose proof (split_lines_length code) as Hlen.
  pose proof (sum_of_lengths _ Hall 0) as Hsum.
  set (lines := split_lines code) in *.
  set (total := fold_left (fun acc line => acc + List.length line) lines 0) in *.
  assert (Hlong : filter (fun line => 80 <? List.length line) lines = []).
  { apply filter_nothing. revert Hall. apply Forall_impl.
    intros l Hl. apply Nat.ltb_ge. exact Hl. }
  rewrite Hlong. cbn [List.length].
  assert (Havg : forall bound, 80 <= bound ->
             num_gt (num_div total (List.length lines)) (count bound) = false).
  { intros bound Hbound. destruct (List.length lines) as [|n] eqn:En; [lia|].
    unfold num_div, count, num_gt.
    replace (match total with 0 | _ => Finite (Z.of_nat total # Pos.of_nat (S n)) end)
      with (Finite (Z.of_nat total # Pos.of_nat (S n))) by (destruct total; reflexivity).
    apply negb_false_iff, Qle_bool_iff.
    unfold Qle, inject_Z. cbn [Qnum Qden].
    assert (Hden : Z.pos (Pos.of_nat (S n)) = Z.of_nat (S n)).
    { rewrite <- positive_nat_Z, Nat2Pos.id by lia. reflexivity. }
    rewrite Hden. nia. }
  rewrite (Havg 100), (Havg 80) by lia.
  rewrite !num_gt_count; [reflexivity| |].
  - unfold Qle, Qmult, inject_Z. cbn [Qnum Qden]. lia.
  - unfold Qle, Qmult, inject_Z. cbn [Qnum Qden]. lia.
Qed.

Lemma short_lines_maintainable_witness :
  forallb (fun l => Nat.leb (List.length l) 80)
    (split_lines (lit "let a = 1;\nlet b = 2;")) = true
  /\ calculateMaintainability (lit "let a = 1;\nlet b = 2;") = High.
Proof.
  split; [reflexivity|].
  apply (short_lines_maintainable (lit "let a = 1;\nlet b = 2;")). reflexivity.
Defined.

Lemma rmatch_lit_fails (w : jsstring) prev s (k : continuation) :
  startsWith s w = false -> rmatch (Lit w) prev s k = None.
Proof. intros H. cbn [rmatch]. now rewrite H. Qed.

Lemma includes_starts (pre s w : jsstring) :
  includes (pre ++ s) w = false -> startsWith s w = false.
Proof.
  intros H. destruct (startsWith s w) eqn:E; [|reflexivity].
  now rewrite (includes_app pre s w E) in H.
Qed.

(** A text without the words for and while is rated High for
    efficiency. *)
Theorem no_loops_efficient (code : jsstring) :
  includes code (lit "for") = false ->
  includes code (lit "while") = false ->
  calculateEfficiency code = High.
Proof.
  intros Hfor Hwhile. unfold calculateEfficiency.
  assert (Hloop : match_all re_loop code = []).
  { apply match_all_none. intros pre prev s' ->.
    unfold match_here, re_loop. cbn [rmatch].
    now rewrite (includes_starts _ _ _ Hfor), (includes_starts _ _ _ Hwhile). }
  assert (Hnested : match_all re_nested code = []).
  { apply match_all_none. intros pre prev s' ->.
    unfold match_here, re_nested. cbn [rmatch].
    now rewrite (includes_starts _ _ _ Hfor), (includes_starts _ _ _ Hwhile). }
  rewrite Hloop, Hnested. cbn [List.length Nat.ltb Nat.leb].
  rewrite num_gt_count; [reflexivity|].
  unfold Qle, Qmult, inject_Z. cbn [Qnum Qden]. lia.
Qed.

Lemma no_loops_efficient_witness :
  includes (lit "total = price + tax") (lit "for") = false
  /\ includes (lit "total = price + tax") (lit "while") = false
  /\ calculateEfficiency (lit "total = price + tax") = High.
Proof.
  do 2 (split; [reflexivity|]).
  apply (no_loops_efficient (lit "total = price + tax")); reflexivity.
Defined.

(** One line with text that starts neither with two spaces nor with a
    tab makes the readability Low: a text with code at the left margin
    is never rated better. *)
Theorem unindented_line_unreadable (code : jsstring) :
  existsb unindented (split_lines code) = true ->
  calculateReadability code = Low.
Proof.
  intros H. unfold calculateReadability.
  assert (Hconsistent :
    forallb (fun line => startsWith line (lit "  ")
                         || startsWith line (lit "\t")
                         || negb (nonempty (trim line))) (split_lines code)
    = false).
  { apply existsb_exists in H as (l & Hin & Hl).
    destruct (forallb _ (split_lines code)) eqn:E; [|reflexivity].
    rewrite forallb_forall in E. specialize (E l Hin).
    unfold unindented in Hl.
    destruct (nonempty (trim l)), (startsWith l (lit "  ")),
      (startsWith l (lit "\t")); discriminate. }
  now rewrite Hconsistent.
Qed.

Lemma unindented_line_unreadable_witness :
  existsb unindented (split_lines (lit "function main() {\n  return compute();\n}"))
  = true
  /\ calculateReadability (lit "function main() {\n  return compute();\n}") = Low.
Proof.
  split; [reflexivity|].
  apply (unindented_line_unreadable
           (lit "function main() {\n  return compute();\n}")).
  reflexivity.
Defined.

(* ================================================================== *)
(** * Suggestions and best practices *)
(* ================================================================== *)

Lemma add_if_bounded (n : nat) cond suggestions (s : Suggestion) :
  List.length suggestions <= n
  /\ Forall (fun x => suggestion_ok x = true) suggestions ->
  suggestion_ok s = true ->
  List.length (add_if cond suggestions s) <= S n
  /\ Forall (fun x => suggestion_ok x = true) (add_if cond suggestions s).
Proof.
  intros [Hlen Hall] Hs. unfold add_if. destruct cond.
  - rewrite length_app. cbn [List.length]. split; [lia|].
    apply Forall_app. auto.
  - split; [lia|exact Hall].
Qed.

Lemma bounded_weaken (n m : nat) (suggestions : list Suggestion) :
  n <= m ->
  List.length suggestions <= n
  /\ Forall (fun x => suggestion_ok x = true) suggestions ->
  List.length suggestions <= m
  /\ Forall (fun x => suggestion_ok x = true) suggestions.
Proof. intros Hnm [Hlen Hall]. split; [lia|exact Hall]. Qed.

Ltac suggestions_bounded :=
  repeat (apply add_if_bounded; [|reflexivity]);
  first [ split; [cbn [List.length]; lia|constructor]
        | idtac ].

(** Whatever the text and the language, there are nine suggestions at
    most, and each has a message and an example with a text before and
    a text after. *)
Theorem suggestions_bounded_and_complete (code language : jsstring) :
  List.length (generateSuggestions code language) <= 9
  /\ Forall (fun s => suggestion_ok s = true) (generateSuggestions code language).
Proof.
  unfold generateSuggestions. cbv zeta.
  apply (add_if_bounded 8); [|reflexivity].
  apply (add_if_bounded 7); [|reflexivity].
  destruct (str_eqb language (lit "javascript")).
  { suggestions_bounded. }
  destruct (str_eqb language (lit "python")).
  { apply (bounded_weaken 6); [lia|]. suggestions_bounded. }
  destruct (str_eqb language (lit "java")).
  { apply (bounded_weaken 5); [lia|]. suggestions_bounded. }
  destruct (str_eqb language (lit "cpp")).
  { apply (bounded_weaken 5); [lia|]. suggestions_bounded. }
  apply (bounded_weaken 4); [lia|]. suggestions_bounded.
Qed.

(** For every language that names no member inherited from
    [Object.prototype], the best practices are a list of five texts,
    none of them empty. *)
Theorem best_practices_five (language : jsstring) :
  mem language object_prototype_names = false ->
  exists items,
    generateBestPractices language = Ok (JArray items)
    /\ List.length items = 5
    /\ Forall (fun s => s <> []) items.
Proof.
  intros Hproto. rewrite generateBestPractices_eq. unfold best_practices.
  let v := eval cbv beta delta [practices obj] in practices in
  match v with
  | JObject ?props =>
      destruct (member_object_cases props language) as [E|E];
      change (JObject props) with practices in E
  end.
  - rewrite E, (inherited_unnamed language Hproto).
    eexists. split; [reflexivity|]. split; [reflexivity|].
    repeat constructor; discriminate.
  - cbn [map snd In] in E.
    repeat (destruct E as [E|E];
            [rewrite <- E; eexists; split; [reflexivity|];
             split; [reflexivity|]; repeat constructor; discriminate|]).
    contradiction.
Qed.

Lemma best_practices_five_witness :
  mem (lit "kotlin") object_prototype_names = false
  /\ exists items,
       generateBestPractices (lit "kotlin") = Ok (JArray items)
       /\ List.length items = 5
       /\ Forall (fun s => s <> []) items.
Proof.
  split; [reflexivity|].
  apply (best_practices_five (lit "kotlin")). reflexivity.
Defined.

Lemma best_practices_fallback_witness :
  mem (lit "kotlin") supported_languages = false
  /\ mem (lit "kotlin") object_prototype_names = false
  /\ generateBestPractices (lit "kotlin") = Ok javascript_practices.
Proof.
  do 2 (split; [reflexivity|]).
  apply (best_practices_fallback (lit "kotlin")); reflexivity.
Defined.

(* ================================================================== *)
(** * Checkers without a language *)
(* ================================================================== *)

(** The logical and the security checker read the language for the Fix
    only: for two languages they give the same Findings, one by one,
    in type, message and line. *)
Theorem agnostic_checkers_ignore_language (code language language' : jsstring) :
  exists logical1 logical2 security1 security2,
    checkLogicalErrors code language = Ok logical1
    /\ checkLogicalErrors code language' = Ok logical2
    /\ checkSecurityIssues code language = Ok security1
    /\ checkSecurityIssues code language' = Ok security2
    /\ map (fun f => (type f, message f, line f)) logical1
       = map (fun f => (type f, message f, line f)) logical2
    /\ map (fun f => (type f, message f, line f)) security1
       = map (fun f => (type f, message f, line f)) security2.
Proof.
  rewrite !checkLogicalErrors_eq, !checkSecurityIssues_eq.
  do 4 eexists. do 4 (split; [reflexivity|]).
  rewrite !map_map. split; reflexivity.
Qed.

(* ================================================================== *)
(** * The room for the arguments of a call *)
(* ================================================================== *)

(** The bugs of the engine in a runtime with room for [max_arguments]:
    those of the engine with room for every call when the Findings of
    each checker fit, and a [RangeError] otherwise. *)
Lemma limited_bugs_eq (max_arguments : nat) (code language : jsstring) :
  Limited.analyzePotentialBugs max_arguments code language
  = if Nat.leb (List.length (syntax_bugs code language)) max_arguments
       && Nat.leb (List.length (runtime_bugs code language)) max_arguments
       && Nat.leb (List.length (logical_bugs code)) max_arguments
       && Nat.leb (List.length (security_bugs code)) max_arguments
    then Ok (map (synthesize language) (all_bugs code language))
    else Throw range_error.
Proof.
  unfold Limited.analyzePotentialBugs, all_bugs.
  rewrite checkSyntaxErrors_eq, checkRuntimeErrors_eq,
    checkLogicalErrors_eq, checkSecurityIssues_eq.
  unfold push_spread. cbv beta iota delta [bind]. rewrite length_map.
  destruct (Nat.leb (List.length (syntax_bugs code language)) max_arguments);
    [|reflexivity].
  cbv beta iota. rewrite length_map.
  destruct (Nat.leb (List.length (runtime_bugs code language)) max_arguments);
    [|reflexivity].
  cbv beta iota. rewrite length_map.
  destruct (Nat.leb (List.length (logical_bugs code)) max_arguments);
    [|reflexivity].
  cbv beta iota. rewrite length_map.
  destruct (Nat.leb (List.length (security_bugs code)) max_arguments);
    [|reflexivity].
  cbn [andb]. cbv beta iota. now rewrite !map_app, !app_assoc.
Qed.

Lemma limited_analyzeCode_eq (max_arguments : nat) (code language : jsstring) :
  exists report,
    analyzeCode code language = Ok report
    /\ Limited.analyzeCode max_arguments code language
       = if fits max_arguments report then Ok report else Throw range_error.
Proof.
  destruct (bug_type_counts code language)
    as (report & Hok & Hsyntax & Hruntime & Hlogical & Hsecurity).
  exists report. split; [exact Hok|].
  unfold fits. rewrite Hsyntax, Hruntime, Hlogical, Hsecurity.
  unfold Limited.analyzeCode.
  rewrite generateBestPractices_eq, limited_bugs_eq.
  cbv beta iota delta [bind].
  destruct (_ && _ && _ && _).
  - rewrite <- Hok. unfold analyzeCode.
    rewrite generateBestPractices_eq, analyzePotentialBugs_eq. reflexivity.
  - reflexivity.
Qed.

(** The engine in a runtime with room for [max_arguments] arguments of a
    call.  It returns the Report of the engine with room for every call
    when each of the four counters of that Report is [max_arguments] at
    most, and raises a [RangeError] when one of them is larger.  For a
    language without rules two arguments are room enough, whatever the
    text. *)
Theorem analyzeCode_within_room (max_arguments : nat) (code language : jsstring) :
  exists report,
    analyzeCode code language = Ok report
    /\ Limited.analyzeCode max_arguments code language
       = (if fits max_arguments report then Ok report else Throw range_error)
    /\ (mem language supported_languages = false -> 2 <= max_arguments ->
        Limited.analyzeCode max_arguments code language = Ok report).
Proof.
  destruct (limited_analyzeCode_eq max_arguments code language)
    as (report & Hok & Hlimited).
  exists report. split; [exact Hok|]. split; [exact Hlimited|].
  intros Hlanguage Hroom. rewrite Hlimited.
  destruct (bug_type_counts code language)
    as (report' & Hok' & Hsyntax & Hruntime & Hlogical & Hsecurity).
  rewrite Hok in Hok'. injection Hok' as <-.
  destruct (unsupported_language _ Hlanguage) as (H1 & H2 & H3 & H4).
  unfold fits. rewrite Hsyntax, Hruntime, Hlogical, Hsecurity.
  unfold syntax_bugs, runtime_bugs. rewrite H1, H2, H3, H4.
  unfold logical_bugs, security_bugs. rewrite !length_app.
  repeat match goal with
         | |- context [List.length (when ?c ?b)] =>
             let H := fresh "H" in
             pose proof (when_length c b) as H;
             generalize dependent (List.length (when c b)); intros
         end.
  cbn [List.length].
  repeat match goal with
         | |- context [Nat.leb ?a ?b] =>
             let E := fresh "E" in
             destruct (Nat.leb_spec a b) as [E|E]; [|lia]
         end.
  reflexivity.
Qed.

Lemma analyzeCode_within_room_witness :
  mem (lit "ruby") supported_languages = false
  /\ 2 <= 2
  /\ exists report,
       Limited.analyzeCode 2 (lit "while(true) { el.innerHTML = q; }") (lit "ruby")
       = Ok report.
Proof.
  split; [reflexivity|]. split; [lia|].
  destruct (analyzeCode_within_room 2 (lit "while(true) { el.innerHTML = q; }")
              (lit "ruby")) as (report & _ & _ & Hroom).
  exists report. apply Hroom; [reflexivity|lia].
Defined.

(** ** A text with more Findings than the runtime has room for *)





(* ================================================================== *)
(** * The review route and the client *)
(* ================================================================== *)

(** The review route in a runtime with room for [max_arguments]
    arguments of a call.  It answers 400 'Code is required' when the
    code is absent or empty, whatever the language, and 400 'Programming
    language is required' when only the language is absent or empty.
    In every other case the analysis runs, on a code that is not empty:
    the route answers 200 with the Report when the Findings of each
    checker fit the room, and 500 with the message of the [RangeError]
    when they do not. *)
Theorem review_route_outcome (max_arguments : nat) (req : Request) :
  if absent (body_code req)
  then review_route max_arguments req = rejected "Code is required"
  else if absent (body_language req)
  then review_route max_arguments req
       = rejected "Programming language is required"
  else field_text (body_code req) <> []
       /\ exists report,
            analyzeCode (field_text (body_code req))
              (field_text (body_language req)) = Ok report
            /\ review_route max_arguments req
               = if fits max_arguments report
                 then {| status := 200; payload := ReviewBody report |}
                 else failed "Maximum call stack size exceeded".
Proof.
  unfold review_route. cbv zeta.
  destruct (absent (body_code req)) eqn:Hcode; [reflexivity|].
  destruct (absent (body_language req)) eqn:Hlanguage; [reflexivity|].
  split.
  - destruct (body_code req) as [[|c s]|]; discriminate.
  - destruct (limited_analyzeCode_eq max_arguments (field_text (body_code req))
                (field_text (body_language req))) as (report & Hok & ->).
    exists report. split; [exact Hok|].
    destruct (fits max_arguments report); reflexivity.
Qed.

(** The client gives every Finding of every Report one of its three
    colours, never the default one, and likewise every metric. *)
Theorem client_colours (code language : jsstring) :
  exists report,
    analyzeCode code language = Ok report
    /\ Forall (fun f => In (getBugTypeColor (type f))
                          (map lit ["error"; "warning"; "info"]%string))
         (bugs (debugging report))
    /\ Forall (fun l => In (getMetricColor (level_name l))
                          (map lit ["success"; "warning"; "error"]%string))
         [complexity (codeAnalysis report); maintainability (metrics report);
          readability (metrics report); efficiency (metrics report)].
Proof.
  destruct (analyzeCode_ok code language) as (report & Hok & Hbugs & _).
  exists report. split; [exact Hok|]. split.
  - rewrite Hbugs. apply Forall_map.
    pose proof (all_bugs_engine code language) as Hengine.
    revert Hengine. apply Forall_impl. intros bug Hbug.
    unfold engine_bug in Hbug.
    apply andb_true_iff in Hbug as [Hbug _].
    apply andb_true_iff in Hbug as [Htype _].
    cbn [type synthesize].
    destruct (type_cases _ Htype) as [-> | [-> | [-> | ->]]];
      first [ left; reflexivity
            | right; left; reflexivity
            | right; right; left; reflexivity ].
  - assert (Hlevel : forall l,
               In (getMetricColor (level_name l))
                 (map lit ["success"; "warning"; "error"]%string)).
    { intros [ | | ];
        first [ left; reflexivity
              | right; left; reflexivity
              | right; right; left; reflexivity ]. }
    repeat (apply Forall_cons; [apply Hlevel|]). constructor.
Qed.

(* ================================================================== *)
(** * Coarse rules *)
(* ================================================================== *)

Lemma each_when_true {A} (g : A -> Bug) (xs : list A) :
  forall i, List.length (each xs i (fun x _ => when true (g x))) = List.length xs.
Proof.
  induction xs as [|x xs IH]; intros i; cbn [each when app List.length];
    [reflexivity|]. now rewrite IH.
Qed.

(** In a javascript text without the words var, let and const nothing is
    declared, and every identifier-like token of the text is reported as
    a potentially undefined variable, once for each occurrence, keywords
    and property names among them. *)
Theorem undeclared_identifiers_all_reported (code : jsstring) :
  includes code (lit "var") = false ->
  includes code (lit "let") = false ->
  includes code (lit "const") = false ->
  exists report,
    analyzeCode code (lit "javascript") = Ok report
    /\ runtime (bugTypes (debugging report))
       = List.length (match_all re_identifier code).
Proof.
  intros Hvar Hlet Hconst.
  destruct (bug_type_counts code (lit "javascript"))
    as (report & Hok & _ & Hruntime & _).
  exists report. split; [exact Hok|].
  rewrite Hruntime, javascript_runtime_bugs.
  assert (Hnone : match_all re_declaration code = []).
  { apply match_all_none. intros pre prev s' ->.
    unfold match_here, re_declaration. cbn [rmatch].
    now rewrite (includes_starts _ _ _ Hvar), (includes_starts _ _ _ Hlet),
      (includes_starts _ _ _ Hconst). }
  rewrite Hnone. cbn [existsb negb].
  apply (each_when_true (undefined_variable_bug code)).
Qed.

Lemma undeclared_identifiers_witness :
  includes (lit "if (user.name) return user") (lit "var") = false
  /\ includes (lit "if (user.name) return user") (lit "let") = false
  /\ includes (lit "if (user.name) return user") (lit "const") = false
  /\ exists report,
       analyzeCode (lit "if (user.name) return user") (lit "javascript")
       = Ok report
       /\ runtime (bugTypes (debugging report))
          = List.length (match_all re_identifier (lit "if (user.name) return user")).
Proof.
  do 3 (split; [reflexivity|]).
  apply (undeclared_identifiers_all_reported (lit "if (user.name) return user"));
    reflexivity.
Defined.

Lemma existsb_add_if (p : Suggestion -> bool) cond suggestions s :
  existsb p (add_if cond suggestions s)
  = existsb p suggestions || (cond && p s).
Proof.
  unfold add_if. destruct cond.
  - rewrite existsb_app. cbn [existsb]. now rewrite orb_false_r.
  - now rewrite orb_false_r.
Qed.

(** The note on nested loops is given for every text that holds the
    word for, once or several times, nested or not, and for no other
    text. *)
Theorem loop_suggestion_for_every_for (code language : jsstring) :
  existsb (suggests "Consider optimizing nested loops for better performance")
    (generateSuggestions code language)
  = includes code (lit "for").
Proof.
  unfold generateSuggestions. cbv zeta.
  repeat match goal with
         | |- context [if str_eqb language ?l then _ else _] =>
             destruct (str_eqb language l)
         end.
  all: rewrite !existsb_add_if.
  all: repeat match goal with
         | |- context [suggests ?m (suggest ?a ?b ?c)] =>
             let v := eval vm_compute in (suggests m (suggest a b c)) in
             change (suggests m (suggest a b c)) with v
         end.
  all: cbn [existsb]; rewrite ?andb_false_r, ?andb_true_r, ?orb_false_r.
  all: cbn [orb]; now rewrite andb_diag.
Qed.

(** The star of a class matches when the rest of the pattern matches
    after some of the characters of the class. *)
Lemma star_class_reaches (p : N -> bool) (k : continuation) (m : jsstring) :
  forall fuel prev rest,
    forallb p m = true ->
    k (last_of prev m) rest <> None ->
    List.length (m ++ rest) <= fuel ->
    star_loop (rmatch (Cls p)) k fuel prev (m ++ rest) <> None.
Proof.
  induction m as [|x m IH]; intros fuel prev rest Hm Hk Hfuel.
  - cbn [app]. destruct fuel as [|fuel]; cbn [star_loop]; [exact Hk|].
    destruct (rmatch (Cls p) prev rest _); [discriminate|exact Hk].
  - cbn [forallb] in Hm. apply andb_true_iff in Hm as [Hx Hm].
    destruct fuel as [|fuel]; [cbn [app List.length] in Hfuel; lia|].
    cbn [app star_loop]. rewrite rmatch_cls_cons, Hx.
    assert (Hlt : Nat.ltb (List.length (m ++ rest))
                    (List.length (x :: m ++ rest)) = true).
    { apply Nat.ltb_lt. cbn [List.length]. lia. }
    rewrite Hlt.
    assert (Hdeep : star_loop (rmatch (Cls p)) k fuel (Some x) (m ++ rest) <> None).
    { apply IH; auto.
      - now rewrite <- last_of_cons with (prev := prev).
      - cbn [app List.length] in Hfuel. lia. }
    destruct (star_loop (rmatch (Cls p)) k fuel (Some x) (m ++ rest));
      [discriminate|contradiction].
Qed.

Lemma exec_reaches (r : regex) (pre s : jsstring) :
  (forall prev, match_here r prev s <> None) ->
  forall prev, exec r prev (pre ++ s) <> None.
Proof.
  intros Hs. induction pre as [|c pre IH]; intros prev.
  - cbn [app]. destruct s; cbn [exec];
      destruct (match_here r prev _) eqn:E; try discriminate;
      now apply Hs in E.
  - cbn [app exec]. destruct (match_here r prev (c :: pre ++ s));
      [discriminate|apply IH].
Qed.

Lemma rmatch_lit (w : jsstring) prev s (k : continuation) :
  rmatch (Lit w) prev (w ++ s) k = k (last_of prev w) s.
Proof.
  cbn [rmatch].
  assert (Hstarts : startsWith (w ++ s) w = true).
  { induction w as [|x w IH]; [now destruct s|].
    cbn [app startsWith]. now rewrite N.eqb_refl. }
  rewrite Hstarts. f_equal.
  rewrite skipn_app, skipn_all, Nat.sub_diag. reflexivity.
Qed.

Lemma rmatch_alt (r1 r2 : regex) prev s (k : continuation) :
  rmatch (Alt r1 r2) prev s k
  = match rmatch r1 prev s k with
    | Some rest => Some rest
    | None => rmatch r2 prev s k
    end.
Proof. reflexivity. Qed.

Lemma match_here_twice (word between after : jsstring) (other : regex) prev :
  forallb is_dot between = true ->
  match_here (Lit word >> Star (Cls is_dot) >> Lit word <|> other)%re prev
    (word ++ between ++ word ++ after) <> None
  /\ match_here (other <|> Lit word >> Star (Cls is_dot) >> Lit word)%re prev
       (word ++ between ++ word ++ after) <> None.
Proof.
  intros Hbetween.
  assert (Hfirst :
    rmatch (Lit word >> Star (Cls is_dot) >> Lit word)%re prev
      (word ++ between ++ word ++ after) (fun _ rest => Some rest) <> None).
  { rewrite !rmatch_seq, rmatch_lit, rmatch_star.
    apply star_class_reaches; [exact Hbetween| |lia].
    rewrite rmatch_lit. discriminate. }
  unfold match_here. rewrite !rmatch_alt. split.
  - destruct (rmatch (Lit word >> Star (Cls is_dot) >> Lit word)%re prev
                (word ++ between ++ word ++ after) (fun _ rest => Some rest));
      [discriminate|contradiction].
  - destruct (rmatch other prev (word ++ between ++ word ++ after)
                (fun _ rest => Some rest)); [discriminate|exact Hfirst].
Qed.

(** Two occurrences of for on one line, or two of while, make the
    efficiency Low, whether one loop is inside the other or not. *)
Theorem two_loops_on_a_line_inefficient (before between after : jsstring) :
  forallb is_dot between = true ->
  calculateEfficiency (before ++ lit "for" ++ between ++ lit "for" ++ after) = Low
  /\ calculateEfficiency (before ++ lit "while" ++ between ++ lit "while" ++ after)
     = Low.
Proof.
  intros Hbetween.
  assert (Hsome : forall code,
             exec re_nested None code <> None -> calculateEfficiency code = Low).
  { intros code Hexec.
    assert (Hmatch : 0 < List.length (match_all re_nested code)).
    { unfold match_all. cbn [match_all_from].
      destruct (exec re_nested None code) as [[[p from] rest]|];
        [|contradiction].
      cbn [List.length]. lia. }
    unfold calculateEfficiency.
    destruct (Nat.ltb_spec 0 (List.length (match_all re_nested code)));
      [reflexivity|lia]. }
  split; apply Hsome; apply exec_reaches; intros prev; unfold re_nested.
  - apply (match_here_twice (lit "for") between after). exact Hbetween.
  - apply (match_here_twice (lit "while") between after). exact Hbetween.
Qed.

Lemma two_loops_on_a_line_witness :
  forallb is_dot (lit " (a of b) {} ") = true
  /\ calculateEfficiency
       (lit "x; " ++ lit "for" ++ lit " (a of b) {} " ++ lit "for" ++ lit " (c of d) {}")
     = Low.
Proof.
  split; [reflexivity|].
  apply (two_loops_on_a_line_inefficient
           (lit "x; ") (lit " (a of b) {} ") (lit " (c of d) {}")).
  reflexivity.
Defined.
